(** * New Era AI Form: the session flow of the React front end

    A shallow embedding of the view controller ([App.jsx]), of the face
    polling view ([CameraInterface]) and of the gesture view
    ([GestureInterface.jsx]), with the properties the specification states
    about them.

    How the JavaScript is read:
    - a [useState] cell is a field of the component's world; its setter
      updates the field while the component is mounted and does nothing
      after it has been unmounted;
    - a function created during a render closes over the _values_ the state
      variables had in that render ([const [x, setX] = useState(..)] binds a
      constant): such a function carries a record of the values it captured;
    - the browser is explicit state: registered intervals, pending
      timeouts, pending HTTP calls, the tracks of the media streams;
    - an [await] splits a function in two: the part before it runs in one
      event, the part after it runs in the event that settles the promise. *)

From stdpp Require Import gmap strings list.

Open Scope string_scope.
Open Scope list_scope.

(** A JSON object with string fields, such as the user record the server
    sends back. *)
Abbreviation UserRecord := (gmap string string).

(** A media stream is the list of its track ids. *)
Abbreviation Stream := (list nat).

(** The settlement of an [axios.post] promise. *)
Inductive HttpResult (A : Type) : Type :=
| Resolved (data : A)
| Rejected.
Arguments Resolved {A} data.
Arguments Rejected {A}.

(** ** App.jsx *)
Module App.

Record State := {
  currentView : string;
  user : option UserRecord   (* [None] is JavaScript's null / undefined *)
}.

(** [useState('camera')], [useState(null)] *)
Definition initial : State := {| currentView := "camera"; user := None |}.

Definition setUser (u : option UserRecord) (s : State) : State :=
  {| currentView := currentView s; user := u |}.

Definition setCurrentView (v : string) (s : State) : State :=
  {| currentView := v; user := user s |}.

Definition handleLoginSuccess (userData : option UserRecord) (s : State) : State :=
  setCurrentView "main" (setUser userData s).

Definition handleRegisterPrompt (s : State) : State :=
  setCurrentView "gesture" s.

(** [{ name: 'Guest', email: 'guest@example.com' }] *)
Definition guestUser : UserRecord :=
  <["name" := "Guest"]> (<["email" := "guest@example.com"]> ∅).

Definition handleGuestAccess (s : State) : State :=
  setCurrentView "guest" (setUser (Some guestUser) s).

Definition handleRegistrationComplete (userData : option UserRecord) (s : State) : State :=
  setCurrentView "main" (setUser userData s).

Definition handleBackToCamera (s : State) : State :=
  setCurrentView "camera" s.

(** The component [renderView] returns. *)
Inductive Component :=
| CameraInterface
| GestureInterface
| RegistrationForm
| MainPage
| GuestPage
| HeadPoseDisplay.

#[global] Instance Component_eq_dec : EqDecision Component.
Proof. solve_decision. Defined.

(** The [switch (currentView)] of [renderView]. *)
Definition renderView (s : State) : Component :=
  let v := currentView s in
  if v =? "camera" then CameraInterface
  else if v =? "gesture" then GestureInterface
  else if v =? "register" then RegistrationForm
  else if v =? "main" then MainPage
  else if v =? "guest" then GuestPage
  else if v =? "health" then HeadPoseDisplay
  else CameraInterface.

(** The view names that have a [case] of their own. *)
Definition recognisedViews : list string :=
  ["camera"; "gesture"; "register"; "main"; "guest"; "health"].

(** The callbacks [renderView] passes down as props, and the buttons of
    the header. Each one is a function of the controller's state. *)
Inductive Callback :=
| OnLoginSuccess (userData : option UserRecord)
| OnRegisterPrompt
| OnRegistrationStart
| OnGuestAccess
| OnRegistrationComplete (userData : option UserRecord)
| OnBack
| OnLogout
| NavMainApp
| NavTestHeadDetection
| NavRestart.

Definition call (cb : Callback) (s : State) : State :=
  match cb with
  | OnLoginSuccess u => handleLoginSuccess u s
  | OnRegisterPrompt => handleRegisterPrompt s
  | OnRegistrationStart => setCurrentView "register" s
  | OnGuestAccess => handleGuestAccess s
  | OnRegistrationComplete u => handleRegistrationComplete u s
  | OnBack => handleBackToCamera s
  | OnLogout => handleBackToCamera s
  | NavMainApp => setCurrentView "camera" s
  | NavTestHeadDetection => setCurrentView "health" s
  | NavRestart =>
      (* the button is rendered only when [user] is set *)
      match user s with
      | Some _ => handleBackToCamera s
      | None => s
      end
  end.

End App.

(** ** The mounted child of [App] and its camera session

    [CameraInterface], [GestureInterface], [RegistrationForm] and
    [HeadPoseDisplay] all keep the stream they acquired in [streamRef] and
    share the same effect cleanup,
    [if (streamRef.current) streamRef.current.getTracks().forEach(track => track.stop())].
    [MainPage] and [GuestPage] hold no stream. *)
Module Shell.

Record State := {
  app : App.State;
  child : App.Component;       (* the component this instance is *)
  mounted : bool;
  streamRef : option Stream;
  live : gset nat              (* the tracks of the device that are running *)
}.

Definition setApp (a : App.State) (s : State) : State :=
  {| app := a; child := child s; mounted := mounted s;
     streamRef := streamRef s; live := live s |}.

Definition setStreamRef (r : option Stream) (s : State) : State :=
  {| app := app s; child := child s; mounted := mounted s;
     streamRef := r; live := live s |}.

Definition setLive (l : gset nat) (s : State) : State :=
  {| app := app s; child := child s; mounted := mounted s;
     streamRef := streamRef s; live := l |}.

Definition setMounted (b : bool) (s : State) : State :=
  {| app := app s; child := child s; mounted := b;
     streamRef := streamRef s; live := live s |}.

(** [stream.getTracks().forEach(track => track.stop())] *)
Definition stopTracks (st : Stream) (s : State) : State :=
  setLive (live s ∖ list_to_set st) s.

(** The function the mount effect returns. *)
Definition cleanup (s : State) : State :=
  match streamRef s with
  | Some st => stopTracks st s
  | None => s
  end.

Definition unmount (s : State) : State :=
  setMounted false (cleanup s).

(** Does the state change take this instance off the screen? React keeps
    an instance while [renderView] returns the same component. *)
Definition leaves (a : App.State) (s : State) : bool :=
  mounted s && negb (bool_decide (App.renderView a = child s)).

(** A callback of [App] is called: the controller's state changes, and the
    child is unmounted when another component takes its place. *)
Definition dispatch (cb : App.Callback) (s : State) : State :=
  let a := App.call cb (app s) in
  if leaves a s then unmount (setApp a s) else setApp a s.

(** The instance [App] shows for its current state, holding the stream
    [r]. *)
Definition showing (a : App.State) (r : option Stream) (l : gset nat) : State :=
  {| app := a; child := App.renderView a; mounted := true;
     streamRef := r; live := l |}.

(** The session is open: some track of the held stream is running. *)
Definition sessionOpen (s : State) : Prop :=
  match streamRef s with
  | Some st => ∃ t, t ∈ st ∧ t ∈ live s
  | None => False
  end.

End Shell.


(** ** CameraInterface: camera acquisition and face polling *)
Module Camera.

Record VideoConstraints := {
  width : N;                 (* [width: { ideal }] *)
  height : N;                (* [height: { ideal }] *)
  frameRate : N;             (* [frameRate: { ideal, max }], always equal *)
  facingMode : string;
  focusMode : string;
  exposureMode : string;
  whiteBalanceMode : string
}.

Record Constraints := {
  video : VideoConstraints;
  audio : bool
}.

Definition preset (w h fps : N) : Constraints :=
  {| video := {| width := w; height := h; frameRate := fps;
                 facingMode := "user"; focusMode := "continuous";
                 exposureMode := "continuous";
                 whiteBalanceMode := "continuous" |};
     audio := false |}.

(** The object literal is the 1920x1080 at 60 preset; the [switch]
    overwrites it for 'ultra', 'high' and 'medium' and leaves it for any
    other name. *)
Definition getCameraConstraints (quality : string) : Constraints :=
  if quality =? "ultra" then preset 3840 2160 30
  else if quality =? "high" then preset 1920 1080 60
  else if quality =? "medium" then preset 1280 720 30
  else preset 1920 1080 60.

(** What [navigator.mediaDevices.getUserMedia] answers: the promise is
    rejected, or it resolves with a value the code then tests with
    [if (stream)]. *)
Inductive GumResult :=
| GumResolved (stream : option Stream)
| GumRejected.

(** The device: the answer to the [n]-th request made of it. *)
Abbreviation Device := (nat → Constraints → GumResult).

(** The state values a render binds, as far as the functions created in it
    read them. *)
Record Render := {
  r_isProcessing : bool;
  r_cameraQuality : string
}.

(** The [video] element behind [videoRef]. *)
Record Video := {
  srcObject : option Stream;
  videoWidth : N;
  videoHeight : N;
  onloadedmetadata : option Render   (* the handler, with the render it closes over *)
}.

(** The body of the POST to [/api/validate-face], together with the
    interval handle its continuation holds in [interval]. *)
Record Request := {
  image : string;
  quality : string;
  timestamp : N;
  owner : nat
}.

(** [response.data] of the face endpoint. *)
Module Data.
Record t := {
  success : bool;
  user : option UserRecord;
  action : option string;
  message : option string
}.
End Data.

Record World := {
  shell : Shell.State;
  (* useState *)
  message : option string;
  isProcessing : bool;
  cameraQuality : string;
  (* useRef *)
  videoRef : option Video;
  (* the browser *)
  now : N;
  gumCalls : list Constraints;      (* the requests made of the device *)
  intervals : gmap nat Render;      (* handle of a running interval, and its closure *)
  nextHandle : nat;
  inflight : gmap nat Request;      (* the calls not settled yet *)
  calls : list Request              (* every call issued, oldest first *)
}.

Definition with_shell (s : Shell.State) (w : World) : World :=
  {| shell := s; message := message w; isProcessing := isProcessing w;
     cameraQuality := cameraQuality w; videoRef := videoRef w; now := now w;
     gumCalls := gumCalls w; intervals := intervals w;
     nextHandle := nextHandle w; inflight := inflight w; calls := calls w |}.

Definition with_message (m : option string) (w : World) : World :=
  {| shell := shell w; message := m; isProcessing := isProcessing w;
     cameraQuality := cameraQuality w; videoRef := videoRef w; now := now w;
     gumCalls := gumCalls w; intervals := intervals w;
     nextHandle := nextHandle w; inflight := inflight w; calls := calls w |}.

Definition with_isProcessing (b : bool) (w : World) : World :=
  {| shell := shell w; message := message w; isProcessing := b;
     cameraQuality := cameraQuality w; videoRef := videoRef w; now := now w;
     gumCalls := gumCalls w; intervals := intervals w;
     nextHandle := nextHandle w; inflight := inflight w; calls := calls w |}.

Definition with_cameraQuality (q : string) (w : World) : World :=
  {| shell := shell w; message := message w; isProcessing := isProcessing w;
     cameraQuality := q; videoRef := videoRef w; now := now w;
     gumCalls := gumCalls w; intervals := intervals w;
     nextHandle := nextHandle w; inflight := inflight w; calls := calls w |}.

Definition with_videoRef (v : option Video) (w : World) : World :=
  {| shell := shell w; message := message w; isProcessing := isProcessing w;
     cameraQuality := cameraQuality w; videoRef := v; now := now w;
     gumCalls := gumCalls w; intervals := intervals w;
     nextHandle := nextHandle w; inflight := inflight w; calls := calls w |}.

Definition with_now (t : N) (w : World) : World :=
  {| shell := shell w; message := message w; isProcessing := isProcessing w;
     cameraQuality := cameraQuality w; videoRef := videoRef w; now := t;
     gumCalls := gumCalls w; intervals := intervals w;
     nextHandle := nextHandle w; inflight := inflight w; calls := calls w |}.

Definition with_gumCalls (l : list Constraints) (w : World) : World :=
  {| shell := shell w; message := message w; isProcessing := isProcessing w;
     cameraQuality := cameraQuality w; videoRef := videoRef w; now := now w;
     gumCalls := l; intervals := intervals w;
     nextHandle := nextHandle w; inflight := inflight w; calls := calls w |}.

Definition with_intervals (i : gmap nat Render) (n : nat) (w : World) : World :=
  {| shell := shell w; message := message w; isProcessing := isProcessing w;
     cameraQuality := cameraQuality w; videoRef := videoRef w; now := now w;
     gumCalls := gumCalls w; intervals := i;
     nextHandle := n; inflight := inflight w; calls := calls w |}.

Definition with_http (f : gmap nat Request) (c : list Request) (w : World) : World :=
  {| shell := shell w; message := message w; isProcessing := isProcessing w;
     cameraQuality := cameraQuality w; videoRef := videoRef w; now := now w;
     gumCalls := gumCalls w; intervals := intervals w;
     nextHandle := nextHandle w; inflight := f; calls := c |}.

Definition mounted (w : World) : bool := Shell.mounted (shell w).

(** The setters [useState] returns. *)
Definition setMessage (m : option string) (w : World) : World :=
  if mounted w then with_message m w else w.

Definition setIsProcessing (b : bool) (w : World) : World :=
  if mounted w then with_isProcessing b w else w.

Definition setCameraQuality (q : string) (w : World) : World :=
  if mounted w then with_cameraQuality q w else w.

(** The values the render of the current state binds. *)
Definition render (w : World) : Render :=
  {| r_isProcessing := isProcessing w; r_cameraQuality := cameraQuality w |}.

(** [setInterval] and [clearInterval]. *)
Definition setInterval (r : Render) (w : World) : World :=
  with_intervals (<[nextHandle w := r]> (intervals w)) (S (nextHandle w)) w.

Definition clearInterval (h : nat) (w : World) : World :=
  with_intervals (delete h (intervals w)) (nextHandle w) w.

(** [axios.post]: the call is recorded and stays pending until it is
    settled. Its id is its position in [calls]. *)
Definition post (req : Request) (w : World) : World :=
  with_http (<[length (calls w) := req]> (inflight w)) (calls w ++ [req]) w.

(** [await navigator.mediaDevices.getUserMedia(constraints)]: a stream that
    is handed out has its tracks running. *)
Definition getUserMedia (dev : Device) (c : Constraints) (w : World) : GumResult * World :=
  let res := dev (length (gumCalls w)) c in
  let w1 := with_gumCalls (gumCalls w ++ [c]) w in
  match res with
  | GumResolved (Some st) =>
      (res, with_shell (Shell.setLive (Shell.live (shell w1) ∪ list_to_set st) (shell w1)) w1)
  | _ => (res, w1)
  end.

(** The [for (const quality of qualities)] loop of [initializeCamera], with
    the value of [stream] when it is left. A rejected request is caught and
    the loop continues; so does it after a falsy result. *)
Fixpoint acquire (dev : Device) (qualities : list string) (w : World) : option Stream * World :=
  match qualities with
  | [] => (None, w)
  | quality :: rest =>
      let constraints := getCameraConstraints quality in
      let '(res, w1) := getUserMedia dev constraints w in
      match res with
      | GumResolved (Some stream) => (Some stream, setCameraQuality quality w1)
      | GumResolved None => acquire dev rest w1
      | GumRejected => acquire dev rest w1
      end
  end.

Definition qualities : list string := ["high"; "medium"; "default"].

Definition cameraFailed : string :=
  "❌ Camera access failed. Please check permissions and try again.".

(** [initializeCamera], for a list of qualities. [r] is the render the
    function belongs to: the [onloadedmetadata] handler it installs calls
    that render's [startFaceValidation]. [enhanceVideoQuality] only sets the
    element's style and playback attributes, which nothing else reads. *)
Definition initializeCameraWith (qs : list string) (r : Render) (dev : Device) (w : World) : World :=
  let w1 := setMessage (Some "🔄 Accessing camera with optimal settings...") w in
  let '(stream, w2) := acquire dev qs w1 in
  match stream with
  | None =>
      (* throw new Error(..), caught below *)
      setMessage (Some cameraFailed) w2
  | Some st =>
      let w3 := with_shell (Shell.setStreamRef (Some st) (shell w2)) w2 in
      match videoRef w3 with
      | None =>
          (* videoRef.current is null: the assignment throws, caught below *)
          setMessage (Some cameraFailed) w3
      | Some v =>
          with_videoRef
            (Some {| srcObject := Some st; videoWidth := videoWidth v;
                     videoHeight := videoHeight v; onloadedmetadata := Some r |}) w3
      end
  end.

Definition initializeCamera : Render → Device → World → World :=
  initializeCameraWith qualities.

(** [captureFrame]; [picture] is what the canvas encodes at that moment. *)
Definition captureFrame (picture : string) (w : World) : option string :=
  match videoRef w with
  | None => None
  | Some v => if (videoWidth v =? 0)%N then None else Some picture
  end.

(** The callback [startFaceValidation] hands to [setInterval], up to the
    [await]. [r] holds the values of the render that created it and [h] is
    its own handle. *)
Definition intervalCallback (h : nat) (r : Render) (picture : string) (w : World) : World :=
  if r_isProcessing r then w
  else
    match captureFrame picture w with
    | None => w
    | Some imageData =>
        let w1 := setIsProcessing true w in
        post {| image := imageData; quality := r_cameraQuality r;
                timestamp := now w1; owner := h |} w1
    end.

Definition startFaceValidation (r : Render) (w : World) : World :=
  setInterval r w.

(** A callback of [App] is called from this component. When the component
    leaves the screen its refs are reset. *)
Definition dispatch (cb : App.Callback) (w : World) : World :=
  let s := Shell.dispatch cb (shell w) in
  let w1 := with_shell s w in
  if mounted w && negb (Shell.mounted s) then with_videoRef None w1 else w1.

Definition serviceUnavailable : string :=
  "Face detection service unavailable. Please try again.".

(** The rest of the interval callback, after the [await]: the [try] body,
    [catch] and [finally]. *)
Definition settled (req : Request) (res : HttpResult Data.t) (w : World) : World :=
  let w1 :=
    match res with
    | Resolved data =>
        if Data.success data then
          dispatch (App.OnLoginSuccess (Data.user data)) (clearInterval (owner req) w)
        else if bool_decide (Data.action data = Some "register_prompt") then
          dispatch App.OnRegisterPrompt (clearInterval (owner req) w)
        else setMessage (Data.message data) w
    | Rejected => setMessage (Some serviceUnavailable) w
    end in
  setIsProcessing false w1.

(** [retryWithBetterQuality], the handler of the button as the current
    render binds it. *)
Definition retryWithBetterQuality (dev : Device) (w : World) : World :=
  let w1 :=
    match Shell.streamRef (shell w) with
    | Some st => with_shell (Shell.stopTracks st (shell w)) w
    | None => w
    end in
  let w2 := setMessage (Some "🔄 Retrying with enhanced camera settings...") w1 in
  initializeCamera (render w) dev w2.

(** What can happen to a camera view. When the browser runs an interval,
    relative to the responses, is up to the environment: ticks are events of
    their own. *)
Inductive Event :=
| LoadedMetadata (vw vh : N)                  (* the video element has its dimensions *)
| Tick (h : nat) (picture : string)           (* the browser runs interval [h] *)
| Settle (id : nat) (res : HttpResult Data.t) (* call [id] settles *)
| ClickEnhance                                (* the Enhance Quality button *)
| Header (cb : App.Callback)                  (* a button of the header *)
| Elapse (dt : N).

Definition loadedmetadata (vw vh : N) (w : World) : World :=
  match videoRef w with
  | None => w
  | Some v =>
      let w1 := with_videoRef
                  (Some {| srcObject := srcObject v; videoWidth := vw;
                           videoHeight := vh;
                           onloadedmetadata := onloadedmetadata v |}) w in
      match onloadedmetadata v with
      | None => w1
      | Some r =>
          startFaceValidation r
            (setMessage (Some "✅ Camera ready! Positioning face in center...") w1)
      end
  end.

(** The browser runs the callback of an interval only while it is
    registered. *)
Definition tick (h : nat) (picture : string) (w : World) : World :=
  match intervals w !! h with
  | Some r => intervalCallback h r picture w
  | None => w
  end.

(** A promise settles once. *)
Definition settle (id : nat) (res : HttpResult Data.t) (w : World) : World :=
  match inflight w !! id with
  | Some req => settled req res (with_http (delete id (inflight w)) (calls w) w)
  | None => w
  end.

Definition step (dev : Device) (e : Event) (w : World) : World :=
  match e with
  | LoadedMetadata vw vh => loadedmetadata vw vh w
  | Tick h picture => tick h picture w
  | Settle id res => settle id res w
  | ClickEnhance => if mounted w then retryWithBetterQuality dev w else w
  | Header cb => dispatch cb w
  | Elapse dt => with_now (now w + dt)%N w
  end.

Definition run (dev : Device) (es : list Event) (w : World) : World :=
  foldl (λ w e, step dev e w) w es.

(** The first render: [useState('Initializing camera...')],
    [useState(false)], [useState('high')], empty refs. *)
Definition firstRender : Render :=
  {| r_isProcessing := false; r_cameraQuality := "high" |}.

Definition fresh (a : App.State) : World :=
  {| shell := {| Shell.app := a; Shell.child := App.CameraInterface;
                 Shell.mounted := true; Shell.streamRef := None;
                 Shell.live := ∅ |};
     message := Some "Initializing camera..."; isProcessing := false;
     cameraQuality := "high";
     videoRef := Some {| srcObject := None; videoWidth := 0; videoHeight := 0;
                         onloadedmetadata := None |};
     now := 0; gumCalls := []; intervals := ∅; nextHandle := 0;
     inflight := ∅; calls := [] |}.

(** Mounting: the effect with the empty dependency list runs once, in the
    first render. The device answers the requests of [initializeCamera]
    before any other event is handled. *)
Definition mount (dev : Device) (a : App.State) : World :=
  initializeCamera firstRender dev (fresh a).

(** The calls issued by interval [h] that are still pending. *)
Definition pendingOf (h : nat) (w : World) : gmap nat Request :=
  filter (λ kv, owner kv.2 = h) (inflight w).

(** Every call issued by interval [h], oldest first. *)
Definition callsOf (h : nat) (w : World) : list Request :=
  filter (λ req, owner req = h) (calls w).

(** The [n]-th request of the device, for [quality], yields no stream. *)
Definition refuses (dev : Device) (n : nat) (quality : string) : Prop :=
  ∀ st, dev n (getCameraConstraints quality) ≠ GumResolved (Some st).

(** Nothing polls and nothing is set up to start polling: no interval is
    registered and the video element has no [onloadedmetadata] handler. *)
Definition quiet (w : World) : Prop :=
  intervals w = ∅ ∧
  match videoRef w with
  | Some v => onloadedmetadata v = None
  | None => True
  end.

(** Handles are handed out in increasing order: a registered interval and
    the issuer of a pending call have handles below the next one. *)
Definition wellFormed (w : World) : Prop :=
  (∀ h r, intervals w !! h = Some r → h < nextHandle w) ∧
  (∀ id req, inflight w !! id = Some req → owner req < nextHandle w).

(** A pending call is one of the calls issued. *)
Definition pendingIssued (w : World) : Prop :=
  ∀ id req, inflight w !! id = Some req → id < length (calls w).

(** Every function of the view that reads state is the one of the first
    render: the closure of each registered interval, and of the
    [onloadedmetadata] handler. *)
Definition firstRenderOnly (w : World) : Prop :=
  (∀ h r, intervals w !! h = Some r → r = firstRender) ∧
  (∀ v r, videoRef w = Some v → onloadedmetadata v = Some r → r = firstRender).

End Camera.


(** ** GestureInterface.jsx: gesture polling and the manual buttons *)
Module Gesture.

(** The state values a render binds, as far as the interval callback reads
    them. *)
Record Render := {
  r_isDetecting : bool;
  r_message : string
}.

Record Video := {
  srcObject : option Stream;
  videoWidth : N;
  videoHeight : N
}.

(** The body of the POST to [/api/detect-gesture], with what its
    continuation holds: the handle [detectionInterval] and the render. *)
Record Request := {
  image : string;
  owner : nat;
  env : Render
}.

(** [response.data] of the gesture endpoint. *)
Module Data.
Record t := {
  success : bool;
  detected : bool;
  gesture : option string
}.
End Data.

Record World := {
  shell : Shell.State;
  (* useState *)
  message : string;
  gestureDetected : option string;
  isDetecting : bool;
  (* useRef *)
  videoRef : option Video;
  (* the browser *)
  now : N;
  intervals : gmap nat Render;
  nextHandle : nat;
  inflight : gmap nat Request;
  calls : list Request;
  timeouts : list (N * App.Callback)   (* pending: due time and callback *)
}.

Definition with_shell (s : Shell.State) (w : World) : World :=
  {| shell := s; message := message w; gestureDetected := gestureDetected w;
     isDetecting := isDetecting w; videoRef := videoRef w; now := now w;
     intervals := intervals w; nextHandle := nextHandle w;
     inflight := inflight w; calls := calls w; timeouts := timeouts w |}.

Definition with_message (m : string) (w : World) : World :=
  {| shell := shell w; message := m; gestureDetected := gestureDetected w;
     isDetecting := isDetecting w; videoRef := videoRef w; now := now w;
     intervals := intervals w; nextHandle := nextHandle w;
     inflight := inflight w; calls := calls w; timeouts := timeouts w |}.

Definition with_gestureDetected (g : option string) (w : World) : World :=
  {| shell := shell w; message := message w; gestureDetected := g;
     isDetecting := isDetecting w; videoRef := videoRef w; now := now w;
     intervals := intervals w; nextHandle := nextHandle w;
     inflight := inflight w; calls := calls w; timeouts := timeouts w |}.

Definition with_isDetecting (b : bool) (w : World) : World :=
  {| shell := shell w; message := message w; gestureDetected := gestureDetected w;
     isDetecting := b; videoRef := videoRef w; now := now w;
     intervals := intervals w; nextHandle := nextHandle w;
     inflight := inflight w; calls := calls w; timeouts := timeouts w |}.

Definition with_videoRef (v : option Video) (w : World) : World :=
  {| shell := shell w; message := message w; gestureDetected := gestureDetected w;
     isDetecting := isDetecting w; videoRef := v; now := now w;
     intervals := intervals w; nextHandle := nextHandle w;
     inflight := inflight w; calls := calls w; timeouts := timeouts w |}.

Definition with_now (t : N) (w : World) : World :=
  {| shell := shell w; message := message w; gestureDetected := gestureDetected w;
     isDetecting := isDetecting w; videoRef := videoRef w; now := t;
     intervals := intervals w; nextHandle := nextHandle w;
     inflight := inflight w; calls := calls w; timeouts := timeouts w |}.

Definition with_intervals (i : gmap nat Render) (n : nat) (w : World) : World :=
  {| shell := shell w; message := message w; gestureDetected := gestureDetected w;
     isDetecting := isDetecting w; videoRef := videoRef w; now := now w;
     intervals := i; nextHandle := n;
     inflight := inflight w; calls := calls w; timeouts := timeouts w |}.

Definition with_http (f : gmap nat Request) (c : list Request) (w : World) : World :=
  {| shell := shell w; message := message w; gestureDetected := gestureDetected w;
     isDetecting := isDetecting w; videoRef := videoRef w; now := now w;
     intervals := intervals w; nextHandle := nextHandle w;
     inflight := f; calls := c; timeouts := timeouts w |}.

Definition with_timeouts (t : list (N * App.Callback)) (w : World) : World :=
  {| shell := shell w; message := message w; gestureDetected := gestureDetected w;
     isDetecting := isDetecting w; videoRef := videoRef w; now := now w;
     intervals := intervals w; nextHandle := nextHandle w;
     inflight := inflight w; calls := calls w; timeouts := t |}.

Definition mounted (w : World) : bool := Shell.mounted (shell w).

(** The setters [useState] returns. *)
Definition setMessage (m : string) (w : World) : World :=
  if mounted w then with_message m w else w.

Definition setGestureDetected (g : option string) (w : World) : World :=
  if mounted w then with_gestureDetected g w else w.

Definition setIsDetecting (b : bool) (w : World) : World :=
  if mounted w then with_isDetecting b w else w.

Definition setInterval (r : Render) (w : World) : World :=
  with_intervals (<[nextHandle w := r]> (intervals w)) (S (nextHandle w)) w.

Definition clearInterval (h : nat) (w : World) : World :=
  with_intervals (delete h (intervals w)) (nextHandle w) w.

(** [setTimeout(cb, delay)] *)
Definition setTimeout (cb : App.Callback) (delay : N) (w : World) : World :=
  with_timeouts (timeouts w ++ [((now w + delay)%N, cb)]) w.

Definition post (req : Request) (w : World) : World :=
  with_http (<[length (calls w) := req]> (inflight w)) (calls w ++ [req]) w.

(** [initializeCamera]: one request, [{ video: { width: 640, height: 480 } }];
    [dev] is the device's answer to it. The resolved value is stored
    without a test. *)
Definition initializeCamera (dev : Camera.GumResult) (w : World) : World :=
  match dev with
  | Camera.GumResolved stream =>
      let l := match stream with
               | Some st => Shell.live (shell w) ∪ list_to_set st
               | None => Shell.live (shell w)
               end in
      let w1 := with_shell (Shell.setStreamRef stream (Shell.setLive l (shell w))) w in
      match videoRef w1 with
      | None =>
          (* videoRef.current is null: the assignment throws, caught below *)
          setMessage "Error accessing camera. Please allow camera permissions." w1
      | Some v =>
          with_videoRef (Some {| srcObject := stream; videoWidth := videoWidth v;
                                 videoHeight := videoHeight v |}) w1
      end
  | Camera.GumRejected =>
      setMessage "Error accessing camera. Please allow camera permissions." w
  end.

Definition captureFrame (picture : string) (w : World) : option string :=
  match videoRef w with
  | None => None
  | Some v => if (videoWidth v =? 0)%N then None else Some picture
  end.

(** The callback [startGestureDetection] hands to [setInterval], up to the
    [await]. *)
Definition intervalCallback (h : nat) (r : Render) (picture : string) (w : World) : World :=
  if negb (r_isDetecting r) then clearInterval h w
  else
    match captureFrame picture w with
    | None => w
    | Some imageData => post {| image := imageData; owner := h; env := r |} w
    end.

Definition startGestureDetection (r : Render) (w : World) : World :=
  setInterval r w.

(** [message.includes(sub)] *)
Definition includes (s sub : string) : bool :=
  match String.index 0 sub s with
  | Some _ => true
  | None => false
  end.

Definition yesDetected : string := "✅ Yes detected! Starting registration...".
Definition noDetected : string := "❌ No detected. Redirecting to guest access...".
Definition useButtons : string := "Gesture detection unavailable. Use buttons below.".

(** The delay before a detected gesture takes effect, and the one before a
    manual choice does, in milliseconds. *)
Definition gestureDelay : N := 2000.
Definition manualDelay : N := 1500.

(** The rest of the interval callback, after the [await]. *)
Definition settled (req : Request) (res : HttpResult Data.t) (w : World) : World :=
  match res with
  | Resolved data =>
      if Data.success data && Data.detected data then
        let gesture := Data.gesture data in
        let w1 := setGestureDetected gesture w in
        if bool_decide (gesture = Some "left") then
          setTimeout App.OnRegistrationStart gestureDelay
            (setMessage yesDetected (setIsDetecting false w1))
        else if bool_decide (gesture = Some "right") then
          setTimeout App.OnGuestAccess gestureDelay
            (setMessage noDetected (setIsDetecting false w1))
        else w1
      else w
  | Rejected =>
      if negb (includes (r_message (env req)) "Use buttons below")
      then setMessage useButtons w
      else w
  end.

Definition handleManualYes (w : World) : World :=
  setTimeout App.OnRegistrationStart manualDelay
    (setMessage "✅ Yes selected! Starting registration..."
       (setGestureDetected (Some "left") (setIsDetecting false w))).

Definition handleManualNo (w : World) : World :=
  setTimeout App.OnGuestAccess manualDelay
    (setMessage "❌ No selected. Redirecting to guest access..."
       (setGestureDetected (Some "right") (setIsDetecting false w))).

(** [disabled={!isDetecting}] on both manual buttons. *)
Definition manualDisabled (w : World) : bool := negb (isDetecting w).

Definition lookingHint : string := "🔍 Looking for head movements...".

(** The [detection-status] block of the render. *)
Definition detectionStatus (w : World) : string :=
  match gestureDetected w with
  | Some g =>
      if g =? "" then lookingHint
      else if g =? "left" then "Detected: YES ✅"
      else "Detected: NO ❌"
  | None => lookingHint
  end.

Definition dispatch (cb : App.Callback) (w : World) : World :=
  let s := Shell.dispatch cb (shell w) in
  let w1 := with_shell s w in
  if mounted w && negb (Shell.mounted s) then with_videoRef None w1 else w1.

Inductive Event :=
| LoadedMetadata (vw vh : N)
| Tick (h : nat) (picture : string)
| Settle (id : nat) (res : HttpResult Data.t)
| ClickYes
| ClickNo
| Fire (k : nat)                 (* the [k]-th pending timeout comes due *)
| Header (cb : App.Callback)
| Elapse (dt : N).

Definition loadedmetadata (vw vh : N) (w : World) : World :=
  match videoRef w with
  | None => w
  | Some v =>
      with_videoRef (Some {| srcObject := srcObject v; videoWidth := vw;
                             videoHeight := vh |}) w
  end.

Definition tick (h : nat) (picture : string) (w : World) : World :=
  match intervals w !! h with
  | Some r => intervalCallback h r picture w
  | None => w
  end.

Definition settle (id : nat) (res : HttpResult Data.t) (w : World) : World :=
  match inflight w !! id with
  | Some req => settled req res (with_http (delete id (inflight w)) (calls w) w)
  | None => w
  end.

(** A click reaches the handler only on a button that is on the screen and
    not disabled. *)
Definition clickYes (w : World) : World :=
  if mounted w && negb (manualDisabled w) then handleManualYes w else w.

Definition clickNo (w : World) : World :=
  if mounted w && negb (manualDisabled w) then handleManualNo w else w.

(** The browser runs a timeout once its delay has passed. *)
Definition fire (k : nat) (w : World) : World :=
  match timeouts w !! k with
  | Some (due, cb) =>
      if (due <=? now w)%N
      then dispatch cb (with_timeouts (delete k (timeouts w)) w)
      else w
  | None => w
  end.

Definition step (e : Event) (w : World) : World :=
  match e with
  | LoadedMetadata vw vh => loadedmetadata vw vh w
  | Tick h picture => tick h picture w
  | Settle id res => settle id res w
  | ClickYes => clickYes w
  | ClickNo => clickNo w
  | Fire k => fire k w
  | Header cb => dispatch cb w
  | Elapse dt => with_now (now w + dt)%N w
  end.

Definition run (es : list Event) (w : World) : World :=
  foldl (λ w e, step e w) w es.

(** The first render: [useState('Move your head LEFT for Yes, RIGHT for No')],
    [useState(null)], [useState(true)]. *)
Definition firstRender : Render :=
  {| r_isDetecting := true;
     r_message := "Move your head LEFT for Yes, RIGHT for No" |}.

Definition fresh (a : App.State) : World :=
  {| shell := {| Shell.app := a; Shell.child := App.GestureInterface;
                 Shell.mounted := true; Shell.streamRef := None;
                 Shell.live := ∅ |};
     message := "Move your head LEFT for Yes, RIGHT for No";
     gestureDetected := None; isDetecting := true;
     videoRef := Some {| srcObject := None; videoWidth := 0; videoHeight := 0 |};
     now := 0; intervals := ∅; nextHandle := 0;
     inflight := ∅; calls := []; timeouts := [] |}.

(** Mounting: the effect runs [initializeCamera(); startGestureDetection();]
    once, in the first render. The device answers before any other event is
    handled; until the video has its dimensions a tick finds no frame
    either way. *)
Definition mount (dev : Camera.GumResult) (a : App.State) : World :=
  startGestureDetection firstRender (initializeCamera dev (fresh a)).

(** Every registered interval has the closure of the first render. *)
Definition firstRenderOnly (w : World) : Prop :=
  ∀ h r, intervals w !! h = Some r → r = firstRender.

End Gesture.

(** ** RegistrationForm.jsx and MainPage.jsx: the buttons wired to [App] *)
Module Registration.

(** [onClick={onGuestAccess}] of Continue as Guest,
    [onClick={onBack}] of Back to Camera. *)
Definition clickContinueAsGuest (s : Shell.State) : Shell.State :=
  Shell.dispatch App.OnGuestAccess s.

Definition clickBackToCamera (s : Shell.State) : Shell.State :=
  Shell.dispatch App.OnBack s.

End Registration.

Module MainPage.

(** [onClick={onLogout}] of Logout & Start Over. *)
Definition clickLogout (s : Shell.State) : Shell.State :=
  Shell.dispatch App.OnLogout s.

End MainPage.


(** ** Concrete sessions used in the examples below *)
Module Scenario.

Definition alice : UserRecord :=
  <["name" := "A"]> (<["email" := "a@x.com"]> ∅).

(** The main view after [alice] logged in. *)
Definition loggedIn : Shell.State :=
  Shell.showing (App.handleLoginSuccess (Some alice) App.initial) None ∅.

(** The gesture view holding a stream with the running track 7. *)
Definition gestureWithStream : Shell.State :=
  Shell.showing (App.handleRegisterPrompt App.initial) (Some [7]) {[7]}.

(** The camera view holding a stream with the running track 7. *)
Definition cameraWithStream : Shell.State :=
  Shell.showing App.initial (Some [7]) {[7]}.

(** A view name without a [case]. *)
Definition unknownView : App.State :=
  {| App.currentView := "settings"; App.user := None |}.

(** A device that hands out the stream with track 0 at once. *)
Definition willing : Camera.Device :=
  λ _ _, Camera.GumResolved (Some [0]).

(** A device that rejects every request. *)
Definition unwilling : Camera.Device :=
  λ _ _, Camera.GumRejected.

(** A device that rejects its first request and grants the second. *)
Definition reluctant : Camera.Device :=
  λ n _, match n with
         | 1 => Camera.GumResolved (Some [0])
         | _ => Camera.GumRejected
         end.

(** The camera view once the video plays: polling runs as interval 0. *)
Definition polling : Camera.World :=
  Camera.run willing [Camera.LoadedMetadata 640 480] (Camera.mount willing App.initial).

(** Responses of the face endpoint. *)
Definition recognised : Camera.Data.t :=
  {| Camera.Data.success := true; Camera.Data.user := Some alice;
     Camera.Data.action := None; Camera.Data.message := None |}.

Definition registerPrompt : Camera.Data.t :=
  {| Camera.Data.success := false; Camera.Data.user := None;
     Camera.Data.action := Some "register_prompt";
     Camera.Data.message := Some "Face not recognized" |}.

Definition noFace : Camera.Data.t :=
  {| Camera.Data.success := false; Camera.Data.user := None;
     Camera.Data.action := None;
     Camera.Data.message := Some "No face detected" |}.

(** Two ticks that each got an answer asking to retry, then a third tick
    whose call is pending. *)
Definition beforeThirdAnswer : list Camera.Event :=
  [Camera.LoadedMetadata 640 480;
   Camera.Tick 0 "frame 1"; Camera.Settle 0 (Resolved noFace);
   Camera.Tick 0 "frame 2"; Camera.Settle 1 Rejected;
   Camera.Tick 0 "frame 3"].

Definition thirdTick : Camera.World :=
  Camera.run willing beforeThirdAnswer (Camera.mount willing App.initial).

(** Responses of the gesture endpoint. *)
Definition centerSeen : Gesture.Data.t :=
  {| Gesture.Data.success := true; Gesture.Data.detected := true;
     Gesture.Data.gesture := Some "center" |}.

Definition leftSeen : Gesture.Data.t :=
  {| Gesture.Data.success := true; Gesture.Data.detected := true;
     Gesture.Data.gesture := Some "left" |}.

Definition rightSeen : Gesture.Data.t :=
  {| Gesture.Data.success := true; Gesture.Data.detected := true;
     Gesture.Data.gesture := Some "right" |}.

(** The gesture view once the video plays: polling runs as interval 0. *)
Definition watching : Gesture.World :=
  Gesture.run [Gesture.LoadedMetadata 640 480]
    (Gesture.mount (Camera.GumResolved (Some [0])) (App.handleRegisterPrompt App.initial)).

(** A left gesture was answered to the first call. *)
Definition leftDetected : Gesture.World :=
  Gesture.run [Gesture.Tick 0 "frame 1"; Gesture.Settle 0 (Resolved leftSeen)] watching.

(** The user pressed No while the first call was pending. *)
Definition declinedByHand : Gesture.World :=
  Gesture.run [Gesture.Tick 0 "frame 1"; Gesture.ClickNo] watching.

End Scenario.

(** The callbacks behind the logout and restart controls: [onLogout] of the
    main page, [onBack] of the other views, and the header's Restart button,
    which exists once a user is stored. *)
Definition logoutOrRestart (cb : App.Callback) (a : App.State) : Prop :=
  match cb with
  | App.OnLogout | App.OnBack => True
  | App.NavRestart => App.user a ≠ None
  | _ => False
  end.

(** ** Sequences of controller callbacks *)
Module Flow.

(** The callbacks are called one after the other. *)
Definition run (cbs : list App.Callback) (s : App.State) : App.State :=
  foldl (λ s cb, App.call cb s) s cbs.

(** The callback hands over a user record where it hands over anything:
    the server's answer had its [user] field. *)
Definition carriesUser (cb : App.Callback) : Prop :=
  match cb with
  | App.OnLoginSuccess None | App.OnRegistrationComplete None => False
  | _ => True
  end.

(** The views that read [user.name] and [user.email]. *)
Definition showsUser (s : App.State) : Prop :=
  App.renderView s = App.MainPage ∨ App.renderView s = App.GuestPage.

End Flow.

(** ** The regular expressions the form uses

    A JavaScript string is a sequence of UTF-16 code units, and a regular
    expression without the [u] flag matches code unit by code unit. *)
Module Regex.

Inductive t :=
| Void                      (* matches nothing *)
| Eps                       (* matches the empty string *)
| Class (p : N → bool)      (* one code unit of a class *)
| Seq (r s : t)
| Alt (r s : t)
| Star (r : t).

(** [r+] and a literal character. *)
Definition Plus (r : t) : t := Seq r (Star r).
Definition Lit (c : N) : t := Class (N.eqb c).

(** What it means for a string to match. *)
Inductive Matches : t → list N → Prop :=
| MEps : Matches Eps []
| MClass p c : p c = true → Matches (Class p) [c]
| MSeq r s u v : Matches r u → Matches s v → Matches (Seq r s) (u ++ v)
| MAltL r s u : Matches r u → Matches (Alt r s) u
| MAltR r s u : Matches s u → Matches (Alt r s) u
| MStarNil r : Matches (Star r) []
| MStarApp r u v : Matches r u → Matches (Star r) v → Matches (Star r) (u ++ v).

Fixpoint nullable (r : t) : bool :=
  match r with
  | Void => false
  | Eps => true
  | Class _ => false
  | Seq r s => nullable r && nullable s
  | Alt r s => nullable r || nullable s
  | Star _ => true
  end.

(** What is left to match after the code unit [c]. *)
Fixpoint deriv (c : N) (r : t) : t :=
  match r with
  | Void => Void
  | Eps => Void
  | Class p => if p c then Eps else Void
  | Seq r s =>
      if nullable r then Alt (Seq (deriv c r) s) (deriv c s)
      else Seq (deriv c r) s
  | Alt r s => Alt (deriv c r) (deriv c s)
  | Star r => Seq (deriv c r) (Star r)
  end.

(** Some prefix of [s] matches. *)
Fixpoint matchHere (r : t) (s : list N) : bool :=
  nullable r ||
  match s with
  | [] => false
  | c :: s' => matchHere (deriv c r) s'
  end.

(** [r.test(s)] for an expression without flags: some part of [s]
    matches. *)
Fixpoint test (r : t) (s : list N) : bool :=
  matchHere r s ||
  match s with
  | [] => false
  | _ :: s' => test r s'
  end.

End Regex.

(** ** RegistrationForm.jsx: the form, its validation and its two calls *)
Module Form.

Abbreviation JsString := (list N).

(** The code units [String.prototype.trim] removes and [\s] matches:
    white space and line terminators. *)
Definition isWhiteSpace (c : N) : bool :=
  ((9 <=? c) && (c <=? 13) || (c =? 32) || (c =? 160) || (c =? 5760) ||
   (8192 <=? c) && (c <=? 8202) || (c =? 8232) || (c =? 8233) ||
   (c =? 8239) || (c =? 8287) || (c =? 12288) || (c =? 65279))%N.

Definition nonSpace (c : N) : bool := negb (isWhiteSpace c).

Fixpoint dropWhile (p : N → bool) (s : JsString) : JsString :=
  match s with
  | [] => []
  | c :: s' => if p c then dropWhile p s' else s
  end.

Definition trim (s : JsString) : JsString :=
  reverse (dropWhile isWhiteSpace (reverse (dropWhile isWhiteSpace s))).

(** [!s] for a string. *)
Definition isEmpty (s : JsString) : bool :=
  match s with
  | [] => true
  | _ => false
  end.

(** [/\S+@\S+\.\S+/] *)
Definition emailPattern : Regex.t :=
  Regex.Seq (Regex.Plus (Regex.Class nonSpace))
    (Regex.Seq (Regex.Lit 64)
       (Regex.Seq (Regex.Plus (Regex.Class nonSpace))
          (Regex.Seq (Regex.Lit 46) (Regex.Plus (Regex.Class nonSpace))))).

(** The [name] attributes of the four inputs. *)
Inductive Field := FName | FEmail | FPassword | FConfirmPassword.

Record FormData := {
  name : JsString;
  email : JsString;
  password : JsString;
  confirmPassword : JsString
}.

(** [{ ...formData, [e.target.name]: e.target.value }] *)
Definition withField (f : Field) (value : JsString) (d : FormData) : FormData :=
  match f with
  | FName =>
      {| name := value; email := email d; password := password d;
         confirmPassword := confirmPassword d |}
  | FEmail =>
      {| name := name d; email := value; password := password d;
         confirmPassword := confirmPassword d |}
  | FPassword =>
      {| name := name d; email := email d; password := value;
         confirmPassword := confirmPassword d |}
  | FConfirmPassword =>
      {| name := name d; email := email d; password := password d;
         confirmPassword := value |}
  end.

(** An error object: a key may be present with the value null. *)
Abbreviation Errors := (gmap string (option string)).

(** [response.data] of the capture-face and register endpoints. *)
Module Data.
Record t := {
  success : bool;
  user : option UserRecord;
  face_image : option string;
  message : option string
}.
End Data.

(** A pending call. The continuation of [captureFace] holds the [errors] of
    the render in which the button was pressed. *)
Inductive Request :=
| CaptureFace (image : string) (errors : Errors)
| Register (form : FormData) (face_image : option string).

Record World := {
  shell : Shell.State;
  (* useState *)
  formData : FormData;
  errors : Errors;
  isSubmitting : bool;
  capturedFace : option string;
  isCapturingFace : bool;
  (* useRef *)
  videoRef : option Gesture.Video;
  (* the browser *)
  inflight : gmap nat Request;
  calls : list Request
}.

Definition with_shell (s : Shell.State) (w : World) : World :=
  {| shell := s; formData := formData w; errors := errors w;
     isSubmitting := isSubmitting w; capturedFace := capturedFace w;
     isCapturingFace := isCapturingFace w; videoRef := videoRef w;
     inflight := inflight w; calls := calls w |}.

Definition with_formData (d : FormData) (w : World) : World :=
  {| shell := shell w; formData := d; errors := errors w;
     isSubmitting := isSubmitting w; capturedFace := capturedFace w;
     isCapturingFace := isCapturingFace w; videoRef := videoRef w;
     inflight := inflight w; calls := calls w |}.

Definition with_errors (e : Errors) (w : World) : World :=
  {| shell := shell w; formData := formData w; errors := e;
     isSubmitting := isSubmitting w; capturedFace := capturedFace w;
     isCapturingFace := isCapturingFace w; videoRef := videoRef w;
     inflight := inflight w; calls := calls w |}.

Definition with_isSubmitting (b : bool) (w : World) : World :=
  {| shell := shell w; formData := formData w; errors := errors w;
     isSubmitting := b; capturedFace := capturedFace w;
     isCapturingFace := isCapturingFace w; videoRef := videoRef w;
     inflight := inflight w; calls := calls w |}.

Definition with_capturedFace (f : option string) (w : World) : World :=
  {| shell := shell w; formData := formData w; errors := errors w;
     isSubmitting := isSubmitting w; capturedFace := f;
     isCapturingFace := isCapturingFace w; videoRef := videoRef w;
     inflight := inflight w; calls := calls w |}.

Definition with_isCapturingFace (b : bool) (w : World) : World :=
  {| shell := shell w; formData := formData w; errors := errors w;
     isSubmitting := isSubmitting w; capturedFace := capturedFace w;
     isCapturingFace := b; videoRef := videoRef w;
     inflight := inflight w; calls := calls w |}.

Definition with_videoRef (v : option Gesture.Video) (w : World) : World :=
  {| shell := shell w; formData := formData w; errors := errors w;
     isSubmitting := isSubmitting w; capturedFace := capturedFace w;
     isCapturingFace := isCapturingFace w; videoRef := v;
     inflight := inflight w; calls := calls w |}.

Definition with_http (f : gmap nat Request) (c : list Request) (w : World) : World :=
  {| shell := shell w; formData := formData w; errors := errors w;
     isSubmitting := isSubmitting w; capturedFace := capturedFace w;
     isCapturingFace := isCapturingFace w; videoRef := videoRef w;
     inflight := f; calls := c |}.

Definition mounted (w : World) : bool := Shell.mounted (shell w).

(** The setters [useState] returns. *)
Definition setFormData (d : FormData) (w : World) : World :=
  if mounted w then with_formData d w else w.

Definition setErrors (e : Errors) (w : World) : World :=
  if mounted w then with_errors e w else w.

Definition setIsSubmitting (b : bool) (w : World) : World :=
  if mounted w then with_isSubmitting b w else w.

Definition setCapturedFace (f : option string) (w : World) : World :=
  if mounted w then with_capturedFace f w else w.

Definition setIsCapturingFace (b : bool) (w : World) : World :=
  if mounted w then with_isCapturingFace b w else w.

Definition post (req : Request) (w : World) : World :=
  with_http (<[length (calls w) := req]> (inflight w)) (calls w ++ [req]) w.

(** A string state that is set and not empty. *)
Definition truthy (o : option string) : bool :=
  match o with
  | Some s => negb (s =? "")
  | None => false
  end.

Definition handleChange (f : Field) (value : JsString) (w : World) : World :=
  setFormData (withField f value (formData w)) w.

(** The object [validateForm] builds, check by check. *)
Definition newErrors (d : FormData) (face : option string) : Errors :=
  let e0 : Errors := ∅ in
  let e1 :=
    if isEmpty (trim (name d)) then <["name" := Some "Name is required"]> e0
    else e0 in
  let e2 :=
    if isEmpty (trim (email d)) then <["email" := Some "Email is required"]> e1
    else if negb (Regex.test emailPattern (email d))
         then <["email" := Some "Email is invalid"]> e1
         else e1 in
  let e3 :=
    if isEmpty (password d) then <["password" := Some "Password is required"]> e2
    else if (length (password d) <? 6)%nat
         then <["password" := Some "Password must be at least 6 characters"]> e2
         else e2 in
  let e4 :=
    if negb (bool_decide (password d = confirmPassword d))
    then <["confirmPassword" := Some "Passwords do not match"]> e3
    else e3 in
  if negb (truthy face)
  then <["face" := Some "Please capture your face before registering"]> e4
  else e4.

(** [validateForm]: the errors are replaced, and the result tells whether
    the new object has no key. *)
Definition validateForm (w : World) : bool * World :=
  let e := newErrors (formData w) (capturedFace w) in
  ((size e =? 0)%nat, setErrors e w).

Definition captureFailed : string := "Failed to capture face. Please try again.".
Definition registrationFailed : string := "Registration failed. Please try again.".

(** [captureFace], up to the [await]. Without its elements the first
    access throws, which the [catch] reports. *)
Definition captureFace (picture : string) (w : World) : World :=
  let w1 := setIsCapturingFace true w in
  match videoRef w1 with
  | None =>
      setIsCapturingFace false
        (setErrors (<["face" := Some captureFailed]> (errors w)) w1)
  | Some _ => post (CaptureFace picture (errors w)) w1
  end.

(** [handleSubmit], up to the [await]. *)
Definition handleSubmit (w : World) : World :=
  let '(ok, w1) := validateForm w in
  if negb ok then w1
  else post (Register (formData w) (capturedFace w)) (setIsSubmitting true w1).

Definition dispatch (cb : App.Callback) (w : World) : World :=
  let s := Shell.dispatch cb (shell w) in
  let w1 := with_shell s w in
  if mounted w && negb (Shell.mounted s) then with_videoRef None w1 else w1.

(** The rest of [captureFace] and of [handleSubmit], after the [await]. *)
Definition settled (req : Request) (res : HttpResult Data.t) (w : World) : World :=
  match req with
  | CaptureFace _ errs =>
      let w1 :=
        match res with
        | Resolved data =>
            if Data.success data then
              setErrors (<["face" := None]> errs)
                (setCapturedFace (Data.face_image data) w)
            else setErrors (<["face" := Data.message data]> errs) w
        | Rejected => setErrors (<["face" := Some captureFailed]> errs) w
        end in
      setIsCapturingFace false w1
  | Register _ _ =>
      let w1 :=
        match res with
        | Resolved data =>
            if Data.success data then
              dispatch (App.OnRegistrationComplete (Data.user data)) w
            else setErrors {["submit" := Data.message data]} w
        | Rejected => setErrors {["submit" := Some registrationFailed]} w
        end in
      setIsSubmitting false w1
  end.

(** [disabled={isSubmitting || !capturedFace}] on the submit button. *)
Definition submitDisabled (w : World) : bool :=
  isSubmitting w || negb (truthy (capturedFace w)).

Inductive Event :=
| Change (f : Field) (value : JsString)
| ClickCapture (picture : string)
| ClickRetake
| Submit
| Settle (id : nat) (res : HttpResult Data.t)
| ClickBack
| ClickGuest
| Header (cb : App.Callback).

Definition settle (id : nat) (res : HttpResult Data.t) (w : World) : World :=
  match inflight w !! id with
  | Some req => settled req res (with_http (delete id (inflight w)) (calls w) w)
  | None => w
  end.

(** An event reaches its handler only on an element that is on the screen
    and not disabled; the Retake button exists while a face is captured. *)
Definition step (e : Event) (w : World) : World :=
  match e with
  | Change f value => if mounted w then handleChange f value w else w
  | ClickCapture picture =>
      if mounted w && negb (isCapturingFace w) then captureFace picture w else w
  | ClickRetake =>
      if mounted w && truthy (capturedFace w) then setCapturedFace None w else w
  | Submit =>
      if mounted w && negb (submitDisabled w) then handleSubmit w else w
  | Settle id res => settle id res w
  | ClickBack => if mounted w then dispatch App.OnBack w else w
  | ClickGuest => if mounted w then dispatch App.OnGuestAccess w else w
  | Header cb => dispatch cb w
  end.

Definition run (es : list Event) (w : World) : World :=
  foldl (λ w e, step e w) w es.

(** [initializeCamera]: one request; a failure is only logged. *)
Definition initializeCamera (dev : Camera.GumResult) (w : World) : World :=
  match dev with
  | Camera.GumResolved stream =>
      let l := match stream with
               | Some st => Shell.live (shell w) ∪ list_to_set st
               | None => Shell.live (shell w)
               end in
      let w1 := with_shell (Shell.setStreamRef stream (Shell.setLive l (shell w))) w in
      match videoRef w1 with
      | None => w1
      | Some v =>
          with_videoRef
            (Some {| Gesture.srcObject := stream;
                     Gesture.videoWidth := Gesture.videoWidth v;
                     Gesture.videoHeight := Gesture.videoHeight v |}) w1
      end
  | Camera.GumRejected => w
  end.

Definition fresh (a : App.State) : World :=
  {| shell := {| Shell.app := a; Shell.child := App.RegistrationForm;
                 Shell.mounted := true; Shell.streamRef := None;
                 Shell.live := ∅ |};
     formData := {| name := []; email := []; password := [];
                    confirmPassword := [] |};
     errors := ∅; isSubmitting := false; capturedFace := None;
     isCapturingFace := false;
     videoRef := Some {| Gesture.srcObject := None; Gesture.videoWidth := 0;
                         Gesture.videoHeight := 0 |};
     inflight := ∅; calls := [] |}.

Definition mount (dev : Camera.GumResult) (a : App.State) : World :=
  initializeCamera dev (fresh a).

Definition isRegister (req : Request) : Prop :=
  match req with
  | Register _ _ => True
  | CaptureFace _ _ => False
  end.

Definition isCapture (req : Request) : Prop :=
  match req with
  | CaptureFace _ _ => True
  | Register _ _ => False
  end.

(** A string of white space only, the empty one included. *)
Definition blank (s : JsString) : Prop :=
  Forall (λ c, isWhiteSpace c = true) s.

(** A form with a name that is not blank, an email with a part of the shape
    x@y.z, a password of six code units or more that is repeated exactly,
    and a captured face. *)
Definition acceptable (d : FormData) (face : option string) : Prop :=
  ¬ blank (name d) ∧
  Regex.test emailPattern (email d) = true ∧
  (6 <= length (password d))%nat ∧
  password d = confirmPassword d ∧
  truthy face = true.

(** A pending call is one of the calls issued. *)
Definition pendingIssued (w : World) : Prop :=
  ∀ id req, inflight w !! id = Some req → id < length (calls w).

(** At most one registration and at most one face capture are pending, and
    one is pending only while its flag is set. *)
Definition singleFlight (w : World) : Prop :=
  (∀ i j ri rj, inflight w !! i = Some ri → inflight w !! j = Some rj →
                isRegister ri → isRegister rj → i = j) ∧
  (∀ i j ri rj, inflight w !! i = Some ri → inflight w !! j = Some rj →
                isCapture ri → isCapture rj → i = j) ∧
  (mounted w = true → isSubmitting w = false →
   ∀ i r, inflight w !! i = Some r → ¬ isRegister r) ∧
  (mounted w = true → isCapturingFace w = false →
   ∀ i r, inflight w !! i = Some r → ¬ isCapture r).

(** The code units of a text in ASCII. *)
Definition units (s : string) : JsString :=
  (λ a, Ascii.N_of_ascii a) <$> String.list_ascii_of_string s.

End Form.

(** ** HeadPoseDisplay: the pose indicator and the detection counter *)
Module HeadPose.

(** [headPose] is a string, or undefined after an answer without a
    [gesture] field. *)
Definition getHeadPoseColor (headPose : option string) : string :=
  match headPose with
  | Some p =>
      if p =? "left" then "#10b981"
      else if p =? "right" then "#ef4444"
      else if p =? "center" then "#3b82f6"
      else "#6b7280"
  | None => "#6b7280"
  end.

Definition getHeadPoseEmoji (headPose : option string) : string :=
  match headPose with
  | Some p =>
      if p =? "left" then "👈 LEFT"
      else if p =? "right" then "👉 RIGHT"
      else if p =? "center" then "🎯 CENTER"
      else "❌ ERROR"
  | None => "❌ ERROR"
  end.

Record State := {
  mounted : bool;
  headPose : option string;
  detectionCount : nat
}.

(** [useState('center')], [useState(0)] *)
Definition initial : State :=
  {| mounted := true; headPose := Some "center"; detectionCount := 0 |}.

Definition setHeadPose (p : option string) (s : State) : State :=
  if mounted s
  then {| mounted := true; headPose := p; detectionCount := detectionCount s |}
  else s.

(** [setDetectionCount(prev => prev + 1)]: the update is applied to the
    state of the moment, not to a value of some render. *)
Definition bumpDetectionCount (s : State) : State :=
  if mounted s
  then {| mounted := true; headPose := headPose s;
          detectionCount := S (detectionCount s) |}
  else s.

(** The interval callback of [startHeadPoseDetection], after the [await]. *)
Definition settled (res : HttpResult Gesture.Data.t) (s : State) : State :=
  match res with
  | Resolved data =>
      if Gesture.Data.success data
      then bumpDetectionCount (setHeadPose (Gesture.Data.gesture data) s)
      else s
  | Rejected => setHeadPose (Some "error") s
  end.



End HeadPose.

(** ** Concrete forms and sessions for the examples of the further
    properties *)
Module Sample.

Definition filled : Form.FormData :=
  {| Form.name := Form.units "Ada";
     Form.email := Form.units "ada@example.com";
     Form.password := Form.units "secret";
     Form.confirmPassword := Form.units "secret" |}.

Definition faceCaptured : Form.Data.t :=
  {| Form.Data.success := true; Form.Data.user := None;
     Form.Data.face_image := Some "data:image/jpeg;base64,AAAA";
     Form.Data.message := None |}.

Definition registered : Form.Data.t :=
  {| Form.Data.success := true; Form.Data.user := Some Scenario.alice;
     Form.Data.face_image := None; Form.Data.message := None |}.

Definition refused : Form.Data.t :=
  {| Form.Data.success := false; Form.Data.user := None;
     Form.Data.face_image := None;
     Form.Data.message := Some "Email already registered" |}.

(** The form after the face was captured and all fields were typed. *)
Definition readyToSubmit : Form.World :=
  Form.run
    [Form.ClickCapture "frame"; Form.Settle 0 (Resolved faceCaptured);
     Form.Change Form.FName (Form.name filled);
     Form.Change Form.FEmail (Form.email filled);
     Form.Change Form.FPassword (Form.password filled);
     Form.Change Form.FConfirmPassword (Form.confirmPassword filled)]
    (Form.mount (Camera.GumResolved (Some [0]))
       {| App.currentView := "register"; App.user := None |}).

(** The events up to and including the submission. *)
Definition submission : list Form.Event :=
  [Form.ClickCapture "frame"; Form.Settle 0 (Resolved faceCaptured);
   Form.Change Form.FName (Form.name filled);
   Form.Change Form.FEmail (Form.email filled);
   Form.Change Form.FPassword (Form.password filled);
   Form.Change Form.FConfirmPassword (Form.confirmPassword filled);
   Form.Submit].

Definition submitted : Form.World :=
  Form.run submission
    (Form.mount (Camera.GumResolved (Some [0]))
       {| App.currentView := "register"; App.user := None |}).

(** A login, a logout and a second visit as a guest. *)
Definition visit : list App.Callback :=
  [App.OnLoginSuccess (Some Scenario.alice); App.OnLogout;
   App.OnRegisterPrompt; App.OnGuestAccess].

(** The camera view acquired at medium quality, polling. *)
Definition pollingAtMedium : Camera.World :=
  Camera.run Scenario.reluctant
    [Camera.LoadedMetadata 1280 720; Camera.Tick 0 "frame 1"]
    (Camera.mount Scenario.reluctant App.initial).

(** A device that grants one stream, with track 0, and then refuses. *)
Definition oneShot : Camera.Device :=
  λ n _, match n with
         | 0 => Camera.GumResolved (Some [0])
         | _ => Camera.GumRejected
         end.

Definition pollingOneShot : Camera.World :=
  Camera.run oneShot [Camera.LoadedMetadata 640 480] (Camera.mount oneShot App.initial).

(** The camera view with a call pending. *)
Definition busy : Camera.World :=
  Camera.run Scenario.willing [Camera.Tick 0 "frame 1"] Scenario.polling.

End Sample.

(** * Properties *)

(** ** The controller *)

Ltac case_view :=
  match goal with
  | |- context [String.eqb ?a ?b] => destruct (String.eqb_spec a b)
  end.

(** C10. [renderView] returns a component for every value of
    [currentView], and for every value that is not one of the six names
    with a [case] it returns the camera interface. *)
Theorem renderView_default_is_camera (s : App.State) :
  App.currentView s ∉ App.recognisedViews →
  App.renderView s = App.CameraInterface.
Proof.
  unfold App.recognisedViews. rewrite !not_elem_of_cons.
  intros (H1 & H2 & H3 & H4 & H5 & H6 & _).
  unfold App.renderView. cbv zeta.
  repeat (case_view; [congruence | idtac]).
  reflexivity.
Qed.

Lemma renderView_default_is_camera_witness :
  (App.currentView Scenario.unknownView ∉ App.recognisedViews) ∧
  App.renderView Scenario.unknownView = App.CameraInterface.
Proof.
  assert (H : App.currentView Scenario.unknownView ∉ App.recognisedViews).
  { unfold App.recognisedViews. rewrite !not_elem_of_cons.
    repeat split; try discriminate. apply not_elem_of_nil. }
  split; [exact H | exact (renderView_default_is_camera Scenario.unknownView H)].
Defined.

Lemma call_logout_view (cb : App.Callback) (a : App.State) :
  logoutOrRestart cb a → App.call cb a = App.handleBackToCamera a.
Proof.
  destruct cb; cbn; try tauto.
  destruct (App.user a); [reflexivity | congruence].
Qed.

Lemma unmount_closes_session (s : Shell.State) :
  ¬ Shell.sessionOpen (Shell.unmount s).
Proof.
  unfold Shell.sessionOpen, Shell.unmount, Shell.cleanup.
  destruct s as [a c m [st|] l]; cbn; [ | tauto].
  intros (t & Hin & Hlive).
  apply elem_of_difference in Hlive as [_ Hnot].
  apply Hnot, elem_of_list_to_set, Hin.
Qed.

Lemma unmount_app (s : Shell.State) :
  Shell.app (Shell.unmount s) = Shell.app s.
Proof. destruct s as [a c m [st|] l]; reflexivity. Qed.

Lemma unmount_mounted (s : Shell.State) :
  Shell.mounted (Shell.unmount s) = false.
Proof. reflexivity. Qed.

(** C6, as the code has it. A logout or restart sets the view to camera and
    leaves the stored user record as it was. The component on screen is
    unmounted, and the tracks of its stream stopped, when another component
    replaces it; when the camera interface is already on screen it stays
    mounted and keeps its stream. *)
Theorem logout_returns_to_camera_keeping_user (cb : App.Callback) (s : Shell.State) :
  logoutOrRestart cb (Shell.app s) →
  let s' := Shell.dispatch cb s in
  App.currentView (Shell.app s') = "camera" ∧
  App.user (Shell.app s') = App.user (Shell.app s) ∧
  (Shell.mounted s = true → Shell.child s ≠ App.CameraInterface →
     Shell.mounted s' = false ∧ ¬ Shell.sessionOpen s') ∧
  (Shell.child s = App.CameraInterface →
     Shell.mounted s' = Shell.mounted s ∧
     Shell.streamRef s' = Shell.streamRef s ∧
     Shell.live s' = Shell.live s).
Proof.
  intros Hcb. cbv zeta. unfold Shell.dispatch.
  rewrite (call_logout_view _ _ Hcb).
  assert (Hview : App.renderView (App.handleBackToCamera (Shell.app s))
                  = App.CameraInterface) by reflexivity.
  unfold Shell.leaves. rewrite Hview.
  destruct (decide (App.CameraInterface = Shell.child s)) as [Heq | Hne].
  - rewrite bool_decide_eq_true_2 by exact Heq.
    rewrite andb_false_r. cbn.
    split; [reflexivity | split; [reflexivity | split]].
    + intros _ Hne. congruence.
    + intros _. repeat split.
  - rewrite bool_decide_eq_false_2 by exact Hne.
    rewrite andb_true_r.
    destruct (Shell.mounted s) eqn:Hm.
    + rewrite unmount_app, unmount_mounted. cbn.
      split; [reflexivity | split; [reflexivity | split]].
      * intros _ _. split; [reflexivity | apply unmount_closes_session].
      * congruence.
    + cbn. rewrite Hm. split; [reflexivity | split; [reflexivity | split]].
      * discriminate.
      * congruence.
Qed.

Lemma logout_returns_to_camera_keeping_user_witness :
  logoutOrRestart App.OnBack (Shell.app Scenario.gestureWithStream) ∧
  App.currentView (Shell.app (Shell.dispatch App.OnBack Scenario.gestureWithStream)) = "camera" ∧
  ¬ Shell.sessionOpen (Shell.dispatch App.OnBack Scenario.gestureWithStream).
Proof.
  assert (H : logoutOrRestart App.OnBack (Shell.app Scenario.gestureWithStream))
    by exact I.
  destruct (logout_returns_to_camera_keeping_user
              App.OnBack Scenario.gestureWithStream H) as (Hv & _ & Hrel & _).
  split; [exact H | split; [exact Hv | ]].
  apply Hrel; [reflexivity | discriminate].
Defined.

(** A restart pressed in the camera view leaves the camera interface
    mounted, with its stream running. *)
Lemma restart_in_camera_view_keeps_session :
  Shell.dispatch App.OnBack Scenario.cameraWithStream = Scenario.cameraWithStream ∧
  Shell.sessionOpen (Shell.dispatch App.OnBack Scenario.cameraWithStream).
Proof.
  split; [reflexivity | ].
  exists 7. split; [apply list_elem_of_here | ].
  change (7 ∈ ({[7]} : gset nat)). apply elem_of_singleton. reflexivity.
Qed.

(** C6, as the specification states it, fails on the user record: after
    the logout button of the main page the record of the user who logged in
    is still stored. *)
Lemma logout_keeps_user_record :
  App.currentView (Shell.app Scenario.loggedIn) = "main" ∧
  App.user (Shell.app (MainPage.clickLogout Scenario.loggedIn)) = Some Scenario.alice ∧
  App.user (Shell.app (MainPage.clickLogout Scenario.loggedIn)) ≠ None.
Proof. split; [reflexivity | split; [reflexivity | discriminate]]. Qed.

(** ** Camera acquisition *)

(** The loop touches the device and [cameraQuality] only. *)
Lemma getUserMedia_frame (dev : Camera.Device) (c : Camera.Constraints) (w : Camera.World) :
  let w' := (Camera.getUserMedia dev c w).2 in
  Camera.gumCalls w' = Camera.gumCalls w ++ [c] ∧
  Camera.message w' = Camera.message w ∧
  Camera.videoRef w' = Camera.videoRef w ∧
  Camera.intervals w' = Camera.intervals w ∧
  Camera.nextHandle w' = Camera.nextHandle w ∧
  Camera.inflight w' = Camera.inflight w ∧
  Camera.calls w' = Camera.calls w ∧
  Camera.mounted w' = Camera.mounted w ∧
  Shell.app (Camera.shell w') = Shell.app (Camera.shell w) ∧
  Shell.streamRef (Camera.shell w') = Shell.streamRef (Camera.shell w).
Proof.
  unfold Camera.getUserMedia. cbv zeta.
  destruct (dev _ c) as [[st|]|]; cbn; repeat split.
Qed.

Lemma getUserMedia_result (dev : Camera.Device) (c : Camera.Constraints) (w : Camera.World) :
  (Camera.getUserMedia dev c w).1 = dev (length (Camera.gumCalls w)) c.
Proof.
  unfold Camera.getUserMedia. cbv zeta.
  destruct (dev _ c) as [[st|]|]; reflexivity.
Qed.

Lemma setCameraQuality_frame (q : string) (w : Camera.World) :
  let w' := Camera.setCameraQuality q w in
  Camera.gumCalls w' = Camera.gumCalls w ∧
  Camera.message w' = Camera.message w ∧
  Camera.videoRef w' = Camera.videoRef w ∧
  Camera.intervals w' = Camera.intervals w ∧
  Camera.nextHandle w' = Camera.nextHandle w ∧
  Camera.inflight w' = Camera.inflight w ∧
  Camera.calls w' = Camera.calls w ∧
  Camera.mounted w' = Camera.mounted w ∧
  Shell.app (Camera.shell w') = Shell.app (Camera.shell w) ∧
  Shell.streamRef (Camera.shell w') = Shell.streamRef (Camera.shell w).
Proof.
  unfold Camera.setCameraQuality, Camera.mounted. cbv zeta.
  destruct (Shell.mounted (Camera.shell w)) eqn:Hm; cbn; rewrite ?Hm; repeat split.
Qed.

Lemma acquire_frame (dev : Camera.Device) (qs : list string) (w : Camera.World) :
  let w' := (Camera.acquire dev qs w).2 in
  Camera.message w' = Camera.message w ∧
  Camera.videoRef w' = Camera.videoRef w ∧
  Camera.intervals w' = Camera.intervals w ∧
  Camera.nextHandle w' = Camera.nextHandle w ∧
  Camera.inflight w' = Camera.inflight w ∧
  Camera.calls w' = Camera.calls w ∧
  Camera.mounted w' = Camera.mounted w ∧
  Shell.app (Camera.shell w') = Shell.app (Camera.shell w) ∧
  Shell.streamRef (Camera.shell w') = Shell.streamRef (Camera.shell w).
Proof.
  revert w. induction qs as [|q rest IH]; intros w; cbn.
  - repeat split.
  - pose proof (getUserMedia_frame dev (Camera.getCameraConstraints q) w) as Hg.
    cbv zeta in Hg.
    destruct (Camera.getUserMedia dev (Camera.getCameraConstraints q) w)
      as [res w1]; cbn in Hg.
    destruct Hg as (_ & G1 & G2 & G3 & G4 & G5 & G6 & G7 & G8 & G9).
    destruct res as [[st|]|]; cbn.
    + pose proof (setCameraQuality_frame q w1) as Hq. cbv zeta in Hq.
      destruct Hq as (_ & Q1 & Q2 & Q3 & Q4 & Q5 & Q6 & Q7 & Q8 & Q9).
      repeat split; congruence.
    + specialize (IH w1). cbv zeta in IH.
      destruct IH as (I1 & I2 & I3 & I4 & I5 & I6 & I7 & I8 & I9).
      repeat split; congruence.
    + specialize (IH w1). cbv zeta in IH.
      destruct IH as (I1 & I2 & I3 & I4 & I5 & I6 & I7 & I8 & I9).
      repeat split; congruence.
Qed.

(** The loop stops at the first quality that yields a stream: the requests
    made are those for the qualities before it, which all failed, and the
    one for it. *)
Lemma acquire_first_success (dev : Camera.Device) (pre : list string) :
  ∀ (q : string) (rest : list string) (st : Stream) (w : Camera.World),
    (∀ i q', pre !! i = Some q' →
       Camera.refuses dev (length (Camera.gumCalls w) + i) q') →
    dev (length (Camera.gumCalls w) + length pre) (Camera.getCameraConstraints q)
      = Camera.GumResolved (Some st) →
    let '(stream, w') := Camera.acquire dev (pre ++ q :: rest) w in
    stream = Some st ∧
    Camera.gumCalls w' =
      Camera.gumCalls w ++ (Camera.getCameraConstraints <$> (pre ++ [q])) ∧
    (Camera.mounted w = true → Camera.cameraQuality w' = q).
Proof.
  induction pre as [|p pre IH]; intros q rest st w Hpre Hq; cbn [app Camera.acquire].
  - pose proof (getUserMedia_frame dev (Camera.getCameraConstraints q) w) as Hg.
    pose proof (getUserMedia_result dev (Camera.getCameraConstraints q) w) as Hr.
    cbv zeta in Hg.
    destruct (Camera.getUserMedia dev (Camera.getCameraConstraints q) w)
      as [res w1]; cbn in Hg, Hr.
    cbn in Hq. rewrite Nat.add_0_r in Hq. rewrite Hq in Hr. subst res.
    destruct Hg as (G0 & _ & _ & _ & _ & _ & _ & G7 & _).
    split; [reflexivity | split].
    + destruct (setCameraQuality_frame q w1) as (Q0 & _). cbn. congruence.
    + intros Hm. unfold Camera.setCameraQuality.
      rewrite G7, Hm. reflexivity.
  - pose proof (getUserMedia_frame dev (Camera.getCameraConstraints p) w) as Hg.
    pose proof (getUserMedia_result dev (Camera.getCameraConstraints p) w) as Hr.
    cbv zeta in Hg.
    destruct (Camera.getUserMedia dev (Camera.getCameraConstraints p) w)
      as [res w1]; cbn in Hg, Hr.
    destruct Hg as (G0 & _ & _ & _ & _ & _ & _ & G7 & _).
    assert (Hp : Camera.refuses dev (length (Camera.gumCalls w)) p).
    { specialize (Hpre 0 p eq_refl). rewrite Nat.add_0_r in Hpre. exact Hpre. }
    assert (Hlen : length (Camera.gumCalls w1) = S (length (Camera.gumCalls w))).
    { rewrite G0, length_app. cbn. lia. }
    assert (Hrec :
      let '(stream, w') := Camera.acquire dev (pre ++ q :: rest) w1 in
      stream = Some st ∧
      Camera.gumCalls w' =
        Camera.gumCalls w1 ++ (Camera.getCameraConstraints <$> (pre ++ [q])) ∧
      (Camera.mounted w1 = true → Camera.cameraQuality w' = q)).
    { apply IH.
      - intros i q' Hi. rewrite Hlen.
        replace (S (length (Camera.gumCalls w)) + i)
          with (length (Camera.gumCalls w) + S i) by lia.
        apply Hpre. exact Hi.
      - rewrite Hlen.
        replace (S (length (Camera.gumCalls w)) + length pre)
          with (length (Camera.gumCalls w) + length (p :: pre)) by (cbn; lia).
        exact Hq. }
    assert (Hgoal :
      let '(stream, w') := Camera.acquire dev (pre ++ q :: rest) w1 in
      stream = Some st ∧
      Camera.gumCalls w' =
        Camera.gumCalls w ++
          (Camera.getCameraConstraints <$> ((p :: pre) ++ [q])) ∧
      (Camera.mounted w = true → Camera.cameraQuality w' = q)).
    { destruct (Camera.acquire dev (pre ++ q :: rest) w1) as [stream w'].
      destruct Hrec as (R1 & R2 & R3).
      split; [exact R1 | split].
      - rewrite R2, G0. cbn. rewrite <- app_assoc. reflexivity.
      - intros Hm. apply R3. congruence. }
    destruct res as [[st'|]|].
    + exfalso. exact (Hp st' (eq_sym Hr)).
    + exact Hgoal.
    + exact Hgoal.
Qed.

(** When every quality fails the loop has requested each of them, in
    order, and leaves without a stream. *)
Lemma acquire_all_fail (dev : Camera.Device) (qs : list string) :
  ∀ (w : Camera.World),
    (∀ i q', qs !! i = Some q' →
       Camera.refuses dev (length (Camera.gumCalls w) + i) q') →
    let '(stream, w') := Camera.acquire dev qs w in
    stream = None ∧
    Camera.gumCalls w' = Camera.gumCalls w ++ (Camera.getCameraConstraints <$> qs) ∧
    Camera.cameraQuality w' = Camera.cameraQuality w.
Proof.
  induction qs as [|p qs IH]; intros w Hall; cbn [Camera.acquire].
  - cbn. rewrite app_nil_r. repeat split.
  - pose proof (getUserMedia_frame dev (Camera.getCameraConstraints p) w) as Hg.
    pose proof (getUserMedia_result dev (Camera.getCameraConstraints p) w) as Hr.
    cbv zeta in Hg.
    assert (Hcq : Camera.cameraQuality
                    (Camera.getUserMedia dev (Camera.getCameraConstraints p) w).2
                  = Camera.cameraQuality w).
    { unfold Camera.getUserMedia. cbv zeta.
      destruct (dev _ _) as [[?|]|]; reflexivity. }
    destruct (Camera.getUserMedia dev (Camera.getCameraConstraints p) w)
      as [res w1]; cbn in Hg, Hr, Hcq.
    destruct Hg as (G0 & _).
    assert (Hp : Camera.refuses dev (length (Camera.gumCalls w)) p).
    { specialize (Hall 0 p eq_refl). rewrite Nat.add_0_r in Hall. exact Hall. }
    assert (Hlen : length (Camera.gumCalls w1) = S (length (Camera.gumCalls w))).
    { rewrite G0, length_app. cbn. lia. }
    assert (Hgoal :
      let '(stream, w') := Camera.acquire dev qs w1 in
      stream = None ∧
      Camera.gumCalls w' =
        Camera.gumCalls w ++ (Camera.getCameraConstraints <$> (p :: qs)) ∧
      Camera.cameraQuality w' = Camera.cameraQuality w).
    { specialize (IH w1).
      destruct (Camera.acquire dev qs w1) as [stream w'].
      destruct IH as (R1 & R2 & R3).
      - intros i q' Hi. rewrite Hlen.
        replace (S (length (Camera.gumCalls w)) + i)
          with (length (Camera.gumCalls w) + S i) by lia.
        apply Hall. exact Hi.
      - split; [exact R1 | split].
        + rewrite R2, G0. cbn. rewrite <- app_assoc. reflexivity.
        + congruence. }
    destruct res as [[st'|]|].
    + exfalso. exact (Hp st' (eq_sym Hr)).
    + exact Hgoal.
    + exact Hgoal.
Qed.

(** ** Face polling: what each handler leaves alone *)

Ltac camera_unfold :=
  unfold Camera.settled, Camera.dispatch, Camera.setMessage,
    Camera.setIsProcessing, Camera.clearInterval, Camera.mounted,
    Shell.dispatch, Shell.unmount, Shell.cleanup, Shell.leaves;
  cbn.

Ltac camera_cases :=
  repeat match goal with
         | |- context [if ?b then _ else _] => destruct b eqn:?; cbn
         | |- context [match ?o with Some _ => _ | None => _ end] =>
             destruct o eqn:?; cbn
         end.

Lemma dispatch_timers (cb : App.Callback) (w : Camera.World) :
  let w' := Camera.dispatch cb w in
  Camera.intervals w' = Camera.intervals w ∧
  Camera.nextHandle w' = Camera.nextHandle w ∧
  Camera.inflight w' = Camera.inflight w ∧
  Camera.calls w' = Camera.calls w ∧
  (Camera.videoRef w' = Camera.videoRef w ∨ Camera.videoRef w' = None).
Proof.
  cbv zeta. camera_unfold. camera_cases; repeat split; auto.
Qed.

Lemma dispatch_app (cb : App.Callback) (w : Camera.World) :
  Shell.app (Camera.shell (Camera.dispatch cb w))
  = App.call cb (Shell.app (Camera.shell w)).
Proof. camera_unfold. camera_cases; reflexivity. Qed.

Lemma settled_timers (req : Camera.Request) (res : HttpResult Camera.Data.t) (w : Camera.World) :
  let w' := Camera.settled req res w in
  (Camera.intervals w' = Camera.intervals w ∨
   Camera.intervals w' = delete (Camera.owner req) (Camera.intervals w)) ∧
  Camera.nextHandle w' = Camera.nextHandle w ∧
  Camera.inflight w' = Camera.inflight w ∧
  Camera.calls w' = Camera.calls w ∧
  (Camera.videoRef w' = Camera.videoRef w ∨ Camera.videoRef w' = None).
Proof.
  cbv zeta. camera_unfold. destruct res as [data|]; camera_cases;
    repeat split; auto.
Qed.

Lemma initializeCameraWith_timers (qs : list string) (r : Camera.Render) (dev : Camera.Device) (w : Camera.World) :
  let w' := Camera.initializeCameraWith qs r dev w in
  Camera.intervals w' = Camera.intervals w ∧
  Camera.nextHandle w' = Camera.nextHandle w ∧
  Camera.inflight w' = Camera.inflight w ∧
  Camera.calls w' = Camera.calls w.
Proof.
  cbv zeta. unfold Camera.initializeCameraWith.
  pose proof (acquire_frame dev qs
                (Camera.setMessage (Some "🔄 Accessing camera with optimal settings...") w))
    as Hf. cbv zeta in Hf.
  destruct (Camera.acquire dev qs _) as [stream w2]. cbn in Hf.
  destruct Hf as (_ & _ & F3 & F4 & F5 & F6 & _).
  assert (H0 : ∀ m,
    Camera.intervals (Camera.setMessage m w) = Camera.intervals w ∧
    Camera.nextHandle (Camera.setMessage m w) = Camera.nextHandle w ∧
    Camera.inflight (Camera.setMessage m w) = Camera.inflight w ∧
    Camera.calls (Camera.setMessage m w) = Camera.calls w).
  { intros m. unfold Camera.setMessage. destruct (Camera.mounted w); repeat split. }
  destruct (H0 (Some "🔄 Accessing camera with optimal settings...")) as (A1 & A2 & A3 & A4).
  rewrite A1 in F3. rewrite A2 in F4. rewrite A3 in F5. rewrite A4 in F6.
  destruct stream as [st|].
  - destruct (Camera.videoRef _) as [v|] eqn:Hv.
    + cbn. repeat split; assumption.
    + unfold Camera.setMessage. camera_cases; cbn; repeat split; assumption.
  - unfold Camera.setMessage. camera_cases; cbn; repeat split; assumption.
Qed.

Lemma setMessage_frame (m : option string) (w : Camera.World) :
  let w' := Camera.setMessage m w in
  Camera.shell w' = Camera.shell w ∧
  Camera.cameraQuality w' = Camera.cameraQuality w ∧
  Camera.videoRef w' = Camera.videoRef w ∧
  Camera.gumCalls w' = Camera.gumCalls w ∧
  Camera.intervals w' = Camera.intervals w ∧
  Camera.calls w' = Camera.calls w ∧
  (Camera.mounted w = true → Camera.message w' = m).
Proof.
  cbv zeta. unfold Camera.setMessage.
  destruct (Camera.mounted w); cbn; repeat split; congruence.
Qed.

(** While nothing polls and no handler is installed, only the Enhance
    Quality button can change that. *)
Lemma step_quiet (dev : Camera.Device) (e : Camera.Event) (w : Camera.World) :
  Camera.quiet w → e ≠ Camera.ClickEnhance →
  Camera.quiet (Camera.step dev e w) ∧
  Camera.calls (Camera.step dev e w) = Camera.calls w.
Proof.
  intros [Hi Hv] He. unfold Camera.quiet.
  destruct e as [vw vh|h picture|id res| |cb|dt]; cbn [Camera.step].
  - unfold Camera.loadedmetadata.
    destruct (Camera.videoRef w) as [v|] eqn:Ev.
    + rewrite Hv. cbn. rewrite Hi. auto.
    + rewrite Ev, Hi. auto.
  - unfold Camera.tick. rewrite Hi, lookup_empty.
    destruct (Camera.videoRef w); auto.
  - unfold Camera.settle.
    destruct (Camera.inflight w !! id) as [req|] eqn:Eq.
    + pose proof (settled_timers req res
                    (Camera.with_http (delete id (Camera.inflight w)) (Camera.calls w) w))
        as (T1 & _ & _ & T4 & T5). cbn in T1, T4, T5.
      split; [split | exact T4].
      * destruct T1 as [-> | ->]; rewrite Hi; [reflexivity | apply delete_empty].
      * destruct T5 as [-> | ->]; [exact Hv | exact I].
    + auto.
  - congruence.
  - pose proof (dispatch_timers cb w) as (T1 & _ & _ & T4 & T5).
    split; [split | exact T4].
    + congruence.
    + destruct T5 as [-> | ->]; [exact Hv | exact I].
  - cbn. auto.
Qed.

Lemma run_quiet (dev : Camera.Device) (es : list Camera.Event) :
  ∀ w : Camera.World,
    Camera.quiet w → Camera.ClickEnhance ∉ es →
    Camera.quiet (Camera.run dev es w) ∧
    Camera.calls (Camera.run dev es w) = Camera.calls w.
Proof.
  induction es as [|e es IH]; intros w Hq Hes; cbn.
  - auto.
  - apply not_elem_of_cons in Hes as [He Hes].
    destruct (step_quiet dev e w Hq) as [Hq1 Hc1]; [congruence | ].
    destruct (IH (Camera.step dev e w) Hq1 Hes) as [Hq2 Hc2].
    unfold Camera.run in Hq2, Hc2. split; [exact Hq2 | congruence].
Qed.

(** C2. [initializeCamera] requests the qualities in the order of the list
    and stops at the first one that yields a stream: the requests made are
    exactly those up to and including it, and the stream is kept. When every
    quality fails, each was requested once, in order, the failure message
    is the status, no stream is kept, and polling does not start: no
    interval is registered and no call goes out, whatever happens next,
    until the user asks for a new attempt. *)
Theorem acquisition_tries_tiers_in_order
    (dev : Camera.Device) (qs : list string) (r : Camera.Render) (w : Camera.World) :
  Camera.mounted w = true →
  let n := length (Camera.gumCalls w) in
  let w' := Camera.initializeCameraWith qs r dev w in
  (∀ pre q rest st,
     qs = pre ++ q :: rest →
     (∀ i q', pre !! i = Some q' → Camera.refuses dev (n + i) q') →
     dev (n + length pre) (Camera.getCameraConstraints q)
       = Camera.GumResolved (Some st) →
     Camera.gumCalls w' =
       Camera.gumCalls w ++ (Camera.getCameraConstraints <$> (pre ++ [q])) ∧
     Shell.streamRef (Camera.shell w') = Some st ∧
     Camera.cameraQuality w' = q) ∧
  ((∀ i q', qs !! i = Some q' → Camera.refuses dev (n + i) q') →
     Camera.gumCalls w' =
       Camera.gumCalls w ++ (Camera.getCameraConstraints <$> qs) ∧
     Camera.message w' = Some Camera.cameraFailed ∧
     Shell.streamRef (Camera.shell w') = Shell.streamRef (Camera.shell w) ∧
     (Camera.quiet w →
      ∀ es, Camera.ClickEnhance ∉ es →
        Camera.quiet (Camera.run dev es w') ∧
        Camera.calls (Camera.run dev es w') = Camera.calls w)).
Proof.
  intros Hm. cbv zeta. unfold Camera.initializeCameraWith.
  set (w1 := Camera.setMessage (Some "🔄 Accessing camera with optimal settings...") w).
  destruct (setMessage_frame (Some "🔄 Accessing camera with optimal settings...") w)
    as (S1 & S2 & S3 & S4 & S5 & S6 & _). fold w1 in S1, S2, S3, S4, S5, S6.
  assert (Hm1 : Camera.mounted w1 = true).
  { unfold Camera.mounted. rewrite S1. exact Hm. }
  pose proof (acquire_frame dev qs w1) as Hf. cbv zeta in Hf.
  split.
  - intros pre q rest st -> Hpre Hq.
    pose proof (acquire_first_success dev pre q rest st w1) as Hacq.
    rewrite S4 in Hacq. specialize (Hacq Hpre Hq).
    destruct (Camera.acquire dev (pre ++ q :: rest) w1) as [stream w2].
    destruct Hacq as (-> & A2 & A3). specialize (A3 Hm1).
    cbn. destruct (Camera.videoRef w2) as [v|]; cbn.
    + auto.
    + destruct (setMessage_frame (Some Camera.cameraFailed)
                  (Camera.with_shell
                     (Shell.setStreamRef (Some st) (Camera.shell w2)) w2))
        as (M1 & M2 & _ & M4 & _).
      rewrite M1, M2, M4. cbn. auto.
  - intros Hall.
    pose proof (acquire_all_fail dev qs w1) as Hacq.
    rewrite S4 in Hacq. specialize (Hacq Hall).
    destruct (Camera.acquire dev qs w1) as [stream w2]. cbn in Hf.
    destruct Hacq as (-> & A2 & A3).
    destruct Hf as (_ & F2 & F3 & _ & _ & F6 & F7 & _ & F9).
    destruct (setMessage_frame (Some Camera.cameraFailed) w2)
      as (M1 & M2 & M3 & M4 & M5 & M6 & M7).
    set (w3 := Camera.setMessage (Some Camera.cameraFailed) w2) in *.
    split; [congruence | split; [ | split]].
    + apply M7. congruence.
    + rewrite M1, F9, S1. reflexivity.
    + intros [Hi Hv] es Hes.
      assert (Hq3 : Camera.quiet w3).
      { split; [congruence | ]. rewrite M3, F2, S3. exact Hv. }
      destruct (run_quiet dev es w3 Hq3 Hes) as [Hq Hc].
      split; [exact Hq | congruence].
Qed.

Lemma acquisition_tries_tiers_in_order_witness :
  Camera.gumCalls (Camera.mount Scenario.reluctant App.initial)
    = Camera.getCameraConstraints <$> ["high"; "medium"] ∧
  Camera.cameraQuality (Camera.mount Scenario.reluctant App.initial) = "medium" ∧
  Camera.message (Camera.mount Scenario.unwilling App.initial)
    = Some Camera.cameraFailed ∧
  Camera.gumCalls (Camera.mount Scenario.unwilling App.initial)
    = Camera.getCameraConstraints <$> Camera.qualities.
Proof.
  assert (Hm : Camera.mounted (Camera.fresh App.initial) = true) by reflexivity.
  destruct (acquisition_tries_tiers_in_order Scenario.reluctant Camera.qualities
              Camera.firstRender (Camera.fresh App.initial) Hm) as [Hfirst _].
  destruct (Hfirst ["high"] "medium" ["default"] [0]) as (C1 & _ & C3).
  { reflexivity. }
  { intros [|i] q' Hi st; [discriminate | destruct i; discriminate]. }
  { reflexivity. }
  destruct (acquisition_tries_tiers_in_order Scenario.unwilling Camera.qualities
              Camera.firstRender (Camera.fresh App.initial) Hm) as [_ Hnone].
  destruct Hnone as (D1 & D2 & _).
  { intros i q' _ st. discriminate. }
  repeat split; assumption.
Defined.

(** ** Face polling: ticks and settlements *)

Lemma tick_effect (h : nat) (picture : string) (w : Camera.World) :
  let w' := Camera.tick h picture w in
  Camera.intervals w' = Camera.intervals w ∧
  Camera.nextHandle w' = Camera.nextHandle w ∧
  ((Camera.calls w' = Camera.calls w ∧ Camera.inflight w' = Camera.inflight w) ∨
   (∃ req, is_Some (Camera.intervals w !! h) ∧ Camera.owner req = h ∧
           Camera.calls w' = Camera.calls w ++ [req] ∧
           Camera.inflight w' = <[length (Camera.calls w) := req]> (Camera.inflight w))).
Proof.
  cbv zeta. unfold Camera.tick.
  destruct (Camera.intervals w !! h) as [r|] eqn:Eh; [ | auto].
  unfold Camera.intervalCallback.
  destruct (Camera.r_isProcessing r); [auto | ].
  destruct (Camera.captureFrame picture w) as [img|]; [ | auto].
  unfold Camera.setIsProcessing.
  destruct (Camera.mounted w); cbn;
    (split; [reflexivity | split; [reflexivity | right]]);
    eexists; (split; [eauto | split; [ | split; reflexivity]]); reflexivity.
Qed.

Lemma loadedmetadata_timers (vw vh : N) (w : Camera.World) :
  let w' := Camera.loadedmetadata vw vh w in
  Camera.inflight w' = Camera.inflight w ∧
  Camera.calls w' = Camera.calls w ∧
  ((Camera.intervals w' = Camera.intervals w ∧
    Camera.nextHandle w' = Camera.nextHandle w) ∨
   (∃ r, Camera.intervals w' = <[Camera.nextHandle w := r]> (Camera.intervals w) ∧
         Camera.nextHandle w' = S (Camera.nextHandle w))).
Proof.
  cbv zeta. unfold Camera.loadedmetadata.
  destruct (Camera.videoRef w) as [v|]; [ | auto].
  destruct (Camera.onloadedmetadata v) as [r|]; [ | cbn; auto].
  unfold Camera.startFaceValidation, Camera.setInterval, Camera.setMessage,
    Camera.mounted. cbn.
  destruct (Shell.mounted (Camera.shell w)); cbn; eauto 10.
Qed.

Lemma retry_timers (dev : Camera.Device) (w : Camera.World) :
  let w' := Camera.retryWithBetterQuality dev w in
  Camera.intervals w' = Camera.intervals w ∧
  Camera.nextHandle w' = Camera.nextHandle w ∧
  Camera.inflight w' = Camera.inflight w ∧
  Camera.calls w' = Camera.calls w.
Proof.
  cbv zeta. unfold Camera.retryWithBetterQuality, Camera.initializeCamera.
  match goal with
  | |- context [Camera.initializeCameraWith ?qs ?r dev ?w0] =>
      destruct (initializeCameraWith_timers qs r dev w0) as (T1 & T2 & T3 & T4);
      rewrite T1, T2, T3, T4
  end.
  unfold Camera.setMessage, Camera.mounted.
  destruct (Shell.streamRef (Camera.shell w)); cbn;
    destruct (Shell.mounted (Camera.shell w)); cbn; auto.
Qed.

(** The effect of one event on the timers and on the calls. *)
Lemma step_timers (dev : Camera.Device) (e : Camera.Event) (w : Camera.World) :
  let w' := Camera.step dev e w in
  (* intervals: unchanged, one registered under the next handle, or one cleared *)
  ((Camera.intervals w' = Camera.intervals w ∧
    Camera.nextHandle w' = Camera.nextHandle w) ∨
   (∃ r, Camera.intervals w' = <[Camera.nextHandle w := r]> (Camera.intervals w) ∧
         Camera.nextHandle w' = S (Camera.nextHandle w)) ∨
   (∃ h, Camera.intervals w' = delete h (Camera.intervals w) ∧
         Camera.nextHandle w' = Camera.nextHandle w)) ∧
  (* calls: unchanged, one settled, or one issued by a registered interval *)
  ((Camera.calls w' = Camera.calls w ∧ Camera.inflight w' = Camera.inflight w) ∨
   (∃ id, Camera.calls w' = Camera.calls w ∧
          Camera.inflight w' = delete id (Camera.inflight w)) ∨
   (∃ req, is_Some (Camera.intervals w !! Camera.owner req) ∧
           Camera.calls w' = Camera.calls w ++ [req] ∧
           Camera.inflight w' = <[length (Camera.calls w) := req]> (Camera.inflight w))).
Proof.
  cbv zeta. destruct e as [vw vh|h picture|id res| |cb|dt]; cbn [Camera.step].
  - destruct (loadedmetadata_timers vw vh w) as (L1 & L2 & [[L3 L4]|(r & L3 & L4)]);
      split; eauto 10.
  - destruct (tick_effect h picture w)
      as (T1 & T2 & [[T3 T4]|(req & T3 & T4 & T5 & T6)]); split; eauto 10.
    right; right. exists req. rewrite T4. auto.
  - unfold Camera.settle.
    destruct (Camera.inflight w !! id) as [req|]; [ | auto].
    destruct (settled_timers req res
                (Camera.with_http (delete id (Camera.inflight w)) (Camera.calls w) w))
      as (T1 & T2 & T3 & T4 & _). cbn in T1, T2, T3, T4.
    split; [ | eauto 10].
    destruct T1 as [T1 | T1]; eauto 10.
  - destruct (Camera.mounted w); [ | auto].
    destruct (retry_timers dev w) as (T1 & T2 & T3 & T4). auto.
  - destruct (dispatch_timers cb w) as (T1 & T2 & T3 & T4 & _). auto.
  - cbn. auto.
Qed.

Lemma fresh_wellFormed (a : App.State) : Camera.wellFormed (Camera.fresh a).
Proof.
  split; cbn; intros ? ? H; rewrite lookup_empty in H; discriminate.
Qed.

Lemma step_wellFormed (dev : Camera.Device) (e : Camera.Event) (w : Camera.World) :
  Camera.wellFormed w → Camera.wellFormed (Camera.step dev e w).
Proof.
  intros [Hi Hf].
  destruct (step_timers dev e w) as [Hint Hcalls].
  assert (Hle : (Camera.nextHandle w <= Camera.nextHandle (Camera.step dev e w))%nat).
  { destruct Hint as [[_ ->]|[(r & _ & ->)|(h & _ & ->)]]; lia. }
  split.
  - intros h r Hh.
    destruct Hint as [[Ei En]|[(r' & Ei & En)|(h' & Ei & En)]];
      rewrite Ei in Hh; rewrite En.
    + eauto.
    + destruct (decide (Camera.nextHandle w = h)) as [<- | Hne]; [lia | ].
      rewrite lookup_insert_ne in Hh by exact Hne.
      specialize (Hi _ _ Hh). lia.
    + apply lookup_delete_Some in Hh as [_ Hh]. eauto.
  - intros id req Hreq.
    destruct Hcalls as [[_ Ef]|[(id' & _ & Ef)|(req' & [r' Hr'] & _ & Ef)]];
      rewrite Ef in Hreq.
    + specialize (Hf _ _ Hreq). lia.
    + apply lookup_delete_Some in Hreq as [_ Hreq].
      specialize (Hf _ _ Hreq). lia.
    + destruct (decide (length (Camera.calls w) = id)) as [<- | Hne].
      * rewrite lookup_insert_eq in Hreq. injection Hreq as <-.
        specialize (Hi _ _ Hr'). lia.
      * rewrite lookup_insert_ne in Hreq by exact Hne.
        specialize (Hf _ _ Hreq). lia.
Qed.

Lemma run_wellFormed (dev : Camera.Device) (es : list Camera.Event) :
  ∀ w, Camera.wellFormed w → Camera.wellFormed (Camera.run dev es w).
Proof.
  induction es as [|e es IH]; intros w Hw; cbn; [exact Hw | ].
  apply IH, step_wellFormed, Hw.
Qed.

(** Every world a mounted camera view can reach is well formed. *)
Lemma reachable_wellFormed (dev : Camera.Device) (a : App.State) (es : list Camera.Event) :
  Camera.wellFormed (Camera.run dev es (Camera.mount dev a)).
Proof.
  apply run_wellFormed. unfold Camera.mount, Camera.initializeCamera.
  destruct (initializeCameraWith_timers Camera.qualities Camera.firstRender dev
              (Camera.fresh a)) as (T1 & T2 & T3 & _).
  destruct (fresh_wellFormed a) as [Hi Hf].
  split.
  - intros h r. rewrite T1, T2. apply Hi.
  - intros id req. rewrite T3, T2. apply Hf.
Qed.

(** An interval that has been cleared stays cleared, and issues no call. *)
Lemma step_cleared (dev : Camera.Device) (e : Camera.Event) (w : Camera.World) (h : nat) :
  Camera.intervals w !! h = None → h < Camera.nextHandle w →
  Camera.intervals (Camera.step dev e w) !! h = None ∧
  h < Camera.nextHandle (Camera.step dev e w) ∧
  Camera.callsOf h (Camera.step dev e w) = Camera.callsOf h w.
Proof.
  intros Hh Hlt.
  destruct (step_timers dev e w) as [Hint Hcalls].
  split; [ | split].
  - destruct Hint as [[-> _]|[(r & -> & _)|(h' & -> & _)]].
    + exact Hh.
    + rewrite lookup_insert_ne by lia. exact Hh.
    + apply lookup_delete_None. auto.
  - destruct Hint as [[_ ->]|[(r & _ & ->)|(h' & _ & ->)]]; lia.
  - unfold Camera.callsOf.
    destruct Hcalls as [[-> _]|[(id' & -> & _)|(req & [r Hr] & -> & _)]];
      try reflexivity.
    rewrite filter_app, filter_cons_False, filter_nil, app_nil_r; [reflexivity | ].
    intros <-. congruence.
Qed.

Lemma run_cleared (dev : Camera.Device) (es : list Camera.Event) (h : nat) :
  ∀ w, Camera.intervals w !! h = None → h < Camera.nextHandle w →
       Camera.callsOf h (Camera.run dev es w) = Camera.callsOf h w.
Proof.
  induction es as [|e es IH]; intros w Hh Hlt; cbn; [reflexivity | ].
  destruct (step_cleared dev e w h Hh Hlt) as (S1 & S2 & S3).
  rewrite <- S3. apply IH; assumption.
Qed.

Lemma setIsProcessing_frame (b : bool) (w : Camera.World) :
  let w' := Camera.setIsProcessing b w in
  Camera.shell w' = Camera.shell w ∧
  Camera.message w' = Camera.message w ∧
  Camera.videoRef w' = Camera.videoRef w ∧
  Camera.intervals w' = Camera.intervals w ∧
  Camera.nextHandle w' = Camera.nextHandle w ∧
  Camera.calls w' = Camera.calls w ∧
  Camera.now w' = Camera.now w ∧
  (Camera.mounted w = true → Camera.isProcessing w' = b).
Proof.
  cbv zeta. unfold Camera.setIsProcessing.
  destruct (Camera.mounted w); cbn; repeat split; congruence.
Qed.

(** What a success or a register prompt does to the timers and to the
    controller. *)
Lemma settled_terminal (req : Camera.Request) (data : Camera.Data.t) (w : Camera.World) :
  let w' := Camera.settled req (Resolved data) w in
  let cb := if Camera.Data.success data
            then App.OnLoginSuccess (Camera.Data.user data)
            else App.OnRegisterPrompt in
  Camera.Data.success data = true ∨
    Camera.Data.action data = Some "register_prompt" →
  Camera.intervals w' = delete (Camera.owner req) (Camera.intervals w) ∧
  Camera.nextHandle w' = Camera.nextHandle w ∧
  Shell.app (Camera.shell w') = App.call cb (Shell.app (Camera.shell w)).
Proof.
  cbv zeta. intros Hcase. unfold Camera.settled.
  match goal with
  | |- context [Camera.setIsProcessing false ?x] =>
      destruct (setIsProcessing_frame false x) as (P1 & _ & _ & P4 & P5 & _);
      rewrite P1, P4, P5; clear P1 P4 P5
  end.
  destruct (Camera.Data.success data) eqn:Hs.
  - match goal with
    | |- context [Camera.dispatch ?cb ?x] =>
        destruct (dispatch_timers cb x) as (D1 & D2 & _);
        rewrite D1, D2, (dispatch_app cb x)
    end.
    cbn. auto.
  - destruct Hcase as [Hcase | Hcase]; [discriminate | ].
    rewrite bool_decide_eq_true_2 by exact Hcase.
    match goal with
    | |- context [Camera.dispatch ?cb ?x] =>
        destruct (dispatch_timers cb x) as (D1 & D2 & _);
        rewrite D1, D2, (dispatch_app cb x)
    end.
    cbn. auto.
Qed.

(** C3. When the response to a call has [success] set and carries a user
    record, the controller shows the main view and stores exactly that
    record; when it has [success] unset and the action register_prompt, the
    controller shows the gesture view. In both cases the interval that
    issued the call is cleared, and it issues no further call whatever
    happens afterwards. *)
Theorem face_outcome_ends_polling
    (dev : Camera.Device) (w : Camera.World) (id : nat)
    (req : Camera.Request) (data : Camera.Data.t) :
  Camera.wellFormed w →
  Camera.inflight w !! id = Some req →
  let w' := Camera.settle id (Resolved data) w in
  let a := Shell.app (Camera.shell w') in
  (∀ u, Camera.Data.success data = true → Camera.Data.user data = Some u →
        App.currentView a = "main" ∧ App.user a = Some u) ∧
  (Camera.Data.success data = false →
   Camera.Data.action data = Some "register_prompt" →
        App.currentView a = "gesture") ∧
  (Camera.Data.success data = true ∨
     Camera.Data.action data = Some "register_prompt" →
        Camera.intervals w' !! Camera.owner req = None ∧
        (∀ picture, Camera.tick (Camera.owner req) picture w' = w') ∧
        ∀ es, Camera.callsOf (Camera.owner req) (Camera.run dev es w')
              = Camera.callsOf (Camera.owner req) w').
Proof.
  intros [Hi Hf] Hreq. cbv zeta. unfold Camera.settle. rewrite Hreq.
  set (w0 := Camera.with_http (delete id (Camera.inflight w)) (Camera.calls w) w).
  pose proof (settled_terminal req data w0) as Hterm. cbv zeta in Hterm.
  split; [ | split].
  - intros u Hs Hu. destruct Hterm as (_ & _ & T3); [auto | ].
    rewrite T3, Hs, Hu. cbn. auto.
  - intros Hs Ha. destruct Hterm as (_ & _ & T3); [auto | ].
    rewrite T3, Hs. reflexivity.
  - intros Hcase. destruct (Hterm Hcase) as (T1 & T2 & _).
    assert (Hnone : Camera.intervals (Camera.settled req (Resolved data) w0)
                      !! Camera.owner req = None).
    { rewrite T1. apply lookup_delete_eq. }
    split; [exact Hnone | split].
    + intros picture. unfold Camera.tick. rewrite Hnone. reflexivity.
    + intros es. apply run_cleared; [exact Hnone | ].
      rewrite T2. cbn. exact (Hf _ _ Hreq).
Qed.

Lemma face_outcome_ends_polling_witness :
  let w' := Camera.settle 2 (Resolved Scenario.recognised) Scenario.thirdTick in
  App.currentView (Shell.app (Camera.shell w')) = "main" ∧
  App.user (Shell.app (Camera.shell w')) = Some Scenario.alice ∧
  Camera.callsOf 0 (Camera.run Scenario.willing [Camera.Tick 0 "frame 4"] w')
    = Camera.callsOf 0 w'.
Proof.
  assert (Hwf : Camera.wellFormed Scenario.thirdTick).
  { apply reachable_wellFormed. }
  assert (Hreq : Camera.inflight Scenario.thirdTick !! 2
                 = Some {| Camera.image := "frame 3"; Camera.quality := "high";
                           Camera.timestamp := 0; Camera.owner := 0 |}).
  { vm_compute. reflexivity. }
  destruct (face_outcome_ends_polling Scenario.willing Scenario.thirdTick 2 _
              Scenario.recognised Hwf Hreq) as (Hmain & _ & Hstop).
  destruct (Hmain Scenario.alice eq_refl eq_refl) as [Hview Huser].
  destruct (Hstop (or_introl eq_refl)) as (_ & _ & Hnever).
  split; [exact Hview | split; [exact Huser | ]].
  exact (Hnever [Camera.Tick 0 "frame 4"]).
Defined.

(** C4. A response with [success] unset and an action other than
    register_prompt, and a failed call, are absorbed by the view: the status
    becomes the response's message, or the service-unavailable text;
    [isProcessing] is reset; the controller and the component are untouched;
    every interval stays registered, and its next tick with a frame at hand
    issues a call. *)
Theorem face_failure_keeps_polling
    (w : Camera.World) (id : nat) (req : Camera.Request)
    (res : HttpResult Camera.Data.t) :
  Camera.mounted w = true →
  Camera.inflight w !! id = Some req →
  (res = Rejected ∨
   ∃ data, res = Resolved data ∧ Camera.Data.success data = false ∧
           Camera.Data.action data ≠ Some "register_prompt") →
  let w' := Camera.settle id res w in
  Camera.message w' =
    match res with
    | Resolved data => Camera.Data.message data
    | Rejected => Some Camera.serviceUnavailable
    end ∧
  Camera.isProcessing w' = false ∧
  Camera.shell w' = Camera.shell w ∧
  Camera.intervals w' = Camera.intervals w ∧
  Camera.calls w' = Camera.calls w ∧
  ∀ h r picture imageData,
    Camera.intervals w !! h = Some r →
    Camera.r_isProcessing r = false →
    Camera.captureFrame picture w = Some imageData →
    Camera.calls (Camera.tick h picture w') =
      Camera.calls w ++ [{| Camera.image := imageData;
                            Camera.quality := Camera.r_cameraQuality r;
                            Camera.timestamp := Camera.now w;
                            Camera.owner := h |}].
Proof.
  intros Hm Hreq Hres. cbv zeta. unfold Camera.settle. rewrite Hreq.
  set (w0 := Camera.with_http (delete id (Camera.inflight w)) (Camera.calls w) w).
  assert (Hm0 : Camera.mounted w0 = true) by exact Hm.
  set (msg := match res with
              | Resolved data => Camera.Data.message data
              | Rejected => Some Camera.serviceUnavailable
              end).
  assert (Hshape : Camera.settled req res w0
                   = Camera.setIsProcessing false (Camera.setMessage msg w0)).
  { unfold Camera.settled, msg.
    destruct Hres as [-> | (data & -> & Hs & Ha)]; [reflexivity | ].
    rewrite Hs, bool_decide_eq_false_2 by exact Ha. reflexivity. }
  rewrite Hshape. clear Hshape.
  destruct (setMessage_frame msg w0) as (M1 & _ & M3 & _ & M5 & M6 & M7).
  set (w1 := Camera.setMessage msg w0) in *.
  assert (Hm1 : Camera.mounted w1 = true).
  { unfold Camera.mounted. rewrite M1. exact Hm. }
  destruct (setIsProcessing_frame false w1) as (P1 & P2 & P3 & P4 & _ & P6 & P7 & P8).
  set (w2 := Camera.setIsProcessing false w1) in *.
  assert (Hnow : Camera.now w2 = Camera.now w).
  { rewrite P7. unfold w1, Camera.setMessage. rewrite Hm0. reflexivity. }
  split; [rewrite P2; exact (M7 Hm0) | ].
  split; [exact (P8 Hm1) | ].
  split; [rewrite P1, M1; reflexivity | ].
  split; [rewrite P4, M5; reflexivity | ].
  split; [rewrite P6, M6; reflexivity | ].
  intros h r picture imageData Hh Hr Hframe.
  unfold Camera.tick. rewrite P4, M5. cbn. rewrite Hh.
  unfold Camera.intervalCallback. rewrite Hr.
  assert (Hframe2 : Camera.captureFrame picture w2 = Some imageData).
  { unfold Camera.captureFrame in *. rewrite P3, M3. exact Hframe. }
  rewrite Hframe2.
  assert (Hm2 : Camera.mounted w2 = true).
  { unfold Camera.mounted. rewrite P1. exact Hm1. }
  unfold Camera.setIsProcessing. rewrite Hm2. cbn.
  rewrite P6, M6, Hnow. reflexivity.
Qed.

Lemma face_failure_keeps_polling_witness :
  let w' := Camera.settle 2 Rejected Scenario.thirdTick in
  Camera.message w' = Some Camera.serviceUnavailable ∧
  Camera.isProcessing w' = false ∧
  length (Camera.calls (Camera.tick 0 "frame 4" w')) = 4.
Proof.
  assert (Hm : Camera.mounted Scenario.thirdTick = true) by reflexivity.
  assert (Hreq : Camera.inflight Scenario.thirdTick !! 2
                 = Some {| Camera.image := "frame 3"; Camera.quality := "high";
                           Camera.timestamp := 0; Camera.owner := 0 |}).
  { vm_compute. reflexivity. }
  destruct (face_failure_keeps_polling Scenario.thirdTick 2 _ Rejected Hm Hreq
              (or_introl eq_refl)) as (Hmsg & Hidle & _ & _ & _ & Hnext).
  split; [exact Hmsg | split; [exact Hidle | ]].
  rewrite (Hnext 0 Camera.firstRender "frame 4" "frame 4").
  - reflexivity.
  - vm_compute. reflexivity.
  - reflexivity.
  - reflexivity.
Defined.

(** ** Face polling: the guard of the interval callback *)

(** The guard looks at the value the closure captured, so a tick of an
    interval whose closure holds [false] issues a call whenever a frame is
    at hand, whatever [isProcessing] is by then and however many calls are
    pending. *)
Lemma tick_submits_regardless
    (w : Camera.World) (h : nat) (r : Camera.Render) (picture imageData : string) :
  Camera.intervals w !! h = Some r →
  Camera.r_isProcessing r = false →
  Camera.captureFrame picture w = Some imageData →
  let req := {| Camera.image := imageData; Camera.quality := Camera.r_cameraQuality r;
                Camera.timestamp := Camera.now w; Camera.owner := h |} in
  Camera.calls (Camera.tick h picture w) = Camera.calls w ++ [req] ∧
  Camera.inflight (Camera.tick h picture w)
    = <[length (Camera.calls w) := req]> (Camera.inflight w).
Proof.
  intros Hh Hr Hframe. cbv zeta.
  unfold Camera.tick. rewrite Hh.
  unfold Camera.intervalCallback. rewrite Hr, Hframe.
  unfold Camera.setIsProcessing. destruct (Camera.mounted w); cbn; auto.
Qed.

Lemma step_pendingIssued (dev : Camera.Device) (e : Camera.Event) (w : Camera.World) :
  Camera.pendingIssued w → Camera.pendingIssued (Camera.step dev e w).
Proof.
  intros Hp id req Hreq.
  destruct (step_timers dev e w) as [_ Hcalls].
  destruct Hcalls as [[Ec Ef]|[(id' & Ec & Ef)|(req' & _ & Ec & Ef)]];
    rewrite Ef in Hreq; rewrite Ec.
  - eauto.
  - apply lookup_delete_Some in Hreq as [_ Hreq]. eauto.
  - rewrite length_app. cbn.
    destruct (decide (length (Camera.calls w) = id)) as [<- | Hne]; [lia | ].
    rewrite lookup_insert_ne in Hreq by exact Hne.
    specialize (Hp _ _ Hreq). lia.
Qed.

Lemma initializeCameraWith_handler
    (qs : list string) (r : Camera.Render) (dev : Camera.Device) (w : Camera.World) :
  let w' := Camera.initializeCameraWith qs r dev w in
  Camera.videoRef w' = Camera.videoRef w ∨
  ∃ v, Camera.videoRef w' = Some v ∧ Camera.onloadedmetadata v = Some r.
Proof.
  cbv zeta. unfold Camera.initializeCameraWith.
  destruct (setMessage_frame (Some "🔄 Accessing camera with optimal settings...") w)
    as (_ & _ & S3 & _).
  pose proof (acquire_frame dev qs
                (Camera.setMessage (Some "🔄 Accessing camera with optimal settings...") w))
    as Hf. cbv zeta in Hf.
  destruct (Camera.acquire dev qs _) as [stream w2]. cbn in Hf.
  destruct Hf as (_ & F2 & _).
  destruct stream as [st|].
  - cbn. destruct (Camera.videoRef w2) as [v|] eqn:Ev.
    + right. eexists. split; reflexivity.
    + left. match goal with
            | |- context [Camera.setMessage ?m ?x] =>
                destruct (setMessage_frame m x) as (_ & _ & M3 & _); rewrite M3
            end.
      cbn. congruence.
  - left. destruct (setMessage_frame (Some Camera.cameraFailed) w2) as (_ & _ & M3 & _).
    congruence.
Qed.

Lemma step_firstRenderOnly (dev : Camera.Device) (e : Camera.Event) (w : Camera.World) :
  e ≠ Camera.ClickEnhance →
  Camera.firstRenderOnly w → Camera.firstRenderOnly (Camera.step dev e w).
Proof.
  intros He [Hi Hv].
  destruct e as [vw vh|h picture|id res| |cb|dt]; cbn [Camera.step].
  - unfold Camera.loadedmetadata.
    destruct (Camera.videoRef w) as [v|] eqn:Ev; [ | split; [exact Hi | ]].
    + destruct (Camera.onloadedmetadata v) as [r|] eqn:Er.
      * unfold Camera.startFaceValidation, Camera.setInterval, Camera.setMessage,
          Camera.mounted. cbn.
        assert (Hr : r = Camera.firstRender) by exact (Hv v r eq_refl Er).
        destruct (Shell.mounted (Camera.shell w)); cbn; (split;
          [ intros h r' Hh; cbn in Hh;
            destruct (decide (Camera.nextHandle w = h)) as [<- | Hne];
            [ rewrite lookup_insert_eq in Hh; congruence
            | rewrite lookup_insert_ne in Hh by exact Hne; eauto ]
          | intros v' r' Hv'; cbn in Hv'; injection Hv' as <-; cbn; congruence ]).
      * split; [exact Hi | ]. intros v' r' [= <-]. cbn. congruence.
    + rewrite Ev. exact Hv.
  - destruct (tick_effect h picture w) as (T1 & _).
    split; [rewrite T1; exact Hi | ].
    assert (Hvr : Camera.videoRef (Camera.tick h picture w) = Camera.videoRef w).
    { unfold Camera.tick, Camera.intervalCallback, Camera.setIsProcessing.
      destruct (Camera.intervals w !! h) as [r|]; [ | reflexivity].
      destruct (Camera.r_isProcessing r); [reflexivity | ].
      destruct (Camera.captureFrame picture w); [ | reflexivity].
      destruct (Camera.mounted w); reflexivity. }
    rewrite Hvr. exact Hv.
  - unfold Camera.settle.
    destruct (Camera.inflight w !! id) as [req|]; [ | split; assumption].
    destruct (settled_timers req res
                (Camera.with_http (delete id (Camera.inflight w)) (Camera.calls w) w))
      as (T1 & _ & _ & _ & T5). cbn in T1, T5.
    split.
    + intros h r Hh. destruct T1 as [T1 | T1]; rewrite T1 in Hh.
      * eauto.
      * apply lookup_delete_Some in Hh as [_ Hh]. eauto.
    + intros v r Ev. destruct T5 as [T5 | T5]; rewrite T5 in Ev.
      * eauto.
      * discriminate.
  - congruence.
  - destruct (dispatch_timers cb w) as (T1 & _ & _ & _ & T5).
    split.
    + rewrite T1. exact Hi.
    + intros v r Ev. destruct T5 as [T5 | T5]; rewrite T5 in Ev.
      * eauto.
      * discriminate.
  - split; assumption.
Qed.

Lemma mount_firstRenderOnly (dev : Camera.Device) (a : App.State) :
  Camera.firstRenderOnly (Camera.mount dev a).
Proof.
  unfold Camera.mount, Camera.initializeCamera.
  destruct (initializeCameraWith_timers Camera.qualities Camera.firstRender dev
              (Camera.fresh a)) as (T1 & _).
  split.
  - intros h r. rewrite T1. cbn. rewrite lookup_empty. discriminate.
  - intros v r Ev Er.
    destruct (initializeCameraWith_handler Camera.qualities Camera.firstRender dev
                (Camera.fresh a)) as [H | (v' & H & Hr)]; rewrite H in Ev.
    + cbn in Ev. injection Ev as <-. discriminate.
    + congruence.
Qed.

Lemma mount_pendingIssued (dev : Camera.Device) (a : App.State) :
  Camera.pendingIssued (Camera.mount dev a).
Proof.
  unfold Camera.mount, Camera.initializeCamera. intros id req.
  destruct (initializeCameraWith_timers Camera.qualities Camera.firstRender dev
              (Camera.fresh a)) as (_ & _ & T3 & _).
  rewrite T3. cbn. rewrite lookup_empty. discriminate.
Qed.

Lemma run_mount_invariants (dev : Camera.Device) (a : App.State) (es : list Camera.Event) :
  Camera.ClickEnhance ∉ es →
  Camera.firstRenderOnly (Camera.run dev es (Camera.mount dev a)) ∧
  Camera.pendingIssued (Camera.run dev es (Camera.mount dev a)).
Proof.
  generalize (mount_firstRenderOnly dev a) (mount_pendingIssued dev a).
  generalize (Camera.mount dev a) as w.
  induction es as [|e es IH]; intros w Hf Hp Hes; cbn; [auto | ].
  apply not_elem_of_cons in Hes as [He Hes].
  apply IH; [ | apply step_pendingIssued, Hp | exact Hes].
  apply step_firstRenderOnly; [congruence | exact Hf].
Qed.

(** In every world the mounted view reaches on its own, a tick of a
    registered interval with a frame at hand adds a pending call, however
    many calls of that interval are pending already. *)
Lemma mounted_view_tick_adds_pending
    (dev : Camera.Device) (a : App.State) (es : list Camera.Event)
    (h : nat) (picture imageData : string) :
  Camera.ClickEnhance ∉ es →
  let w := Camera.run dev es (Camera.mount dev a) in
  is_Some (Camera.intervals w !! h) →
  Camera.captureFrame picture w = Some imageData →
  size (Camera.pendingOf h (Camera.tick h picture w)) = S (size (Camera.pendingOf h w)).
Proof.
  intros Hes w [r Hh] Hframe.
  destruct (run_mount_invariants dev a es Hes) as [[Hi _] Hp]. fold w in Hi, Hp.
  assert (Hr : Camera.r_isProcessing r = false).
  { rewrite (Hi h r Hh). reflexivity. }
  destruct (tick_submits_regardless w h r picture imageData Hh Hr Hframe) as [_ Hin].
  unfold Camera.pendingOf. rewrite Hin.
  assert (Hfresh : Camera.inflight w !! length (Camera.calls w) = None).
  { destruct (Camera.inflight w !! length (Camera.calls w)) as [req|] eqn:E;
      [ | reflexivity].
    specialize (Hp _ _ E). lia. }
  rewrite map_filter_insert_True by reflexivity.
  apply map_size_insert_None.
  apply map_lookup_filter_None. left. exact Hfresh.
Qed.

(** C1, on the code. The mounted view is sent two ticks in a row. At the
    second one the first call is still pending and [isProcessing] is set,
    yet the callback samples and submits again: two calls of the one
    interval are in flight. *)
Theorem second_tick_submits_while_first_pending :
  let w1 := Camera.run Scenario.willing [Camera.Tick 0 "frame 1"] Scenario.polling in
  let w2 := Camera.run Scenario.willing [Camera.Tick 0 "frame 2"] w1 in
  Camera.intervals Scenario.polling !! 0 = Some Camera.firstRender ∧
  size (Camera.pendingOf 0 w1) = 1 ∧
  Camera.isProcessing w1 = true ∧
  size (Camera.pendingOf 0 w2) = 2 ∧
  Camera.image <$> Camera.calls w2 = ["frame 1"; "frame 2"].
Proof. vm_compute. repeat split. Qed.

(** ** Gesture polling *)

Ltac gesture_unfold :=
  unfold Gesture.settled, Gesture.dispatch, Gesture.setMessage,
    Gesture.setGestureDetected, Gesture.setIsDetecting, Gesture.setTimeout,
    Gesture.clearInterval, Gesture.mounted,
    Shell.dispatch, Shell.unmount, Shell.cleanup, Shell.leaves;
  cbn.

Lemma gesture_dispatch_app (cb : App.Callback) (w : Gesture.World) :
  Shell.app (Gesture.shell (Gesture.dispatch cb w))
  = App.call cb (Shell.app (Gesture.shell w)).
Proof. gesture_unfold. camera_cases; reflexivity. Qed.

Lemma gesture_dispatch_intervals (cb : App.Callback) (w : Gesture.World) :
  Gesture.intervals (Gesture.dispatch cb w) = Gesture.intervals w.
Proof. gesture_unfold. camera_cases; reflexivity. Qed.

Lemma gesture_settled_intervals
    (req : Gesture.Request) (res : HttpResult Gesture.Data.t) (w : Gesture.World) :
  Gesture.intervals (Gesture.settled req res w) = Gesture.intervals w.
Proof. gesture_unfold. destruct res; camera_cases; reflexivity. Qed.

(** The guard of the gesture callback reads the closure too: with the
    closure of the first render it never clears the interval. *)
Lemma gesture_step_intervals (e : Gesture.Event) (w : Gesture.World) :
  Gesture.firstRenderOnly w →
  Gesture.intervals (Gesture.step e w) = Gesture.intervals w.
Proof.
  intros Hf.
  destruct e as [vw vh|h picture|id res| | |k|cb|dt]; cbn [Gesture.step].
  - unfold Gesture.loadedmetadata. destruct (Gesture.videoRef w); reflexivity.
  - unfold Gesture.tick.
    destruct (Gesture.intervals w !! h) as [r|] eqn:Eh; [ | reflexivity].
    rewrite (Hf h r Eh). unfold Gesture.intervalCallback. cbn.
    destruct (Gesture.captureFrame picture w); reflexivity.
  - unfold Gesture.settle.
    destruct (Gesture.inflight w !! id) as [req|]; [ | reflexivity].
    rewrite gesture_settled_intervals. reflexivity.
  - unfold Gesture.clickYes, Gesture.handleManualYes. gesture_unfold.
    camera_cases; reflexivity.
  - unfold Gesture.clickNo, Gesture.handleManualNo. gesture_unfold.
    camera_cases; reflexivity.
  - unfold Gesture.fire.
    destruct (Gesture.timeouts w !! k) as [[due cb]|]; [ | reflexivity].
    destruct (due <=? Gesture.now w)%N; [ | reflexivity].
    rewrite gesture_dispatch_intervals. reflexivity.
  - apply gesture_dispatch_intervals.
  - reflexivity.
Qed.

(** In every world the mounted gesture view reaches, interval 0 is still
    registered: nothing the view does stops its own polling. *)
Lemma gesture_interval_never_cleared
    (dev : Camera.GumResult) (a : App.State) (es : list Gesture.Event) :
  Gesture.intervals (Gesture.run es (Gesture.mount dev a))
  = {[0 := Gesture.firstRender]}.
Proof.
  assert (H0 : Gesture.intervals (Gesture.mount dev a) = {[0 := Gesture.firstRender]}).
  { unfold Gesture.mount, Gesture.startGestureDetection, Gesture.setInterval,
      Gesture.initializeCamera, Gesture.setMessage.
    destruct dev as [stream|]; reflexivity. }
  revert H0. generalize (Gesture.mount dev a) as w.
  induction es as [|e es IH]; intros w Hw; cbn; [exact Hw | ].
  apply IH. rewrite gesture_step_intervals; [exact Hw | ].
  intros h r. rewrite Hw. intros [_ <-]%lookup_singleton_Some. reflexivity.
Qed.

(** C7, on the code. A left gesture is answered to the first call: the
    view resets [isDetecting] and schedules the registration two seconds
    ahead. One second later, with that timeout not yet due, the interval is
    still registered and its tick samples and submits again. A right
    gesture answered to this second call then schedules the guest access
    as well, and both callbacks reach the controller. *)
Theorem polling_continues_after_detected_gesture :
  let w1 := Scenario.leftDetected in
  let w2 := Gesture.run [Gesture.Elapse 1000; Gesture.Tick 0 "frame 2"] w1 in
  let w3 := Gesture.run [Gesture.Settle 1 (Resolved Scenario.rightSeen)] w2 in
  let w4 := Gesture.run [Gesture.Elapse 1000; Gesture.Fire 0] w3 in
  let w5 := Gesture.run [Gesture.Elapse 1000; Gesture.Fire 0] w4 in
  (Gesture.isDetecting w1 = false ∧
   Gesture.timeouts w1 = [(2000%N, App.OnRegistrationStart)] ∧
   Gesture.intervals w1 !! 0 = Some Gesture.firstRender) ∧
  (Gesture.now w2 = 1000%N ∧
   App.currentView (Shell.app (Gesture.shell w2)) = "gesture" ∧
   Gesture.image <$> Gesture.calls w2 = ["frame 1"; "frame 2"] ∧
   size (Gesture.inflight w2) = 1) ∧
  (Gesture.timeouts w3 =
     [(2000%N, App.OnRegistrationStart); (3000%N, App.OnGuestAccess)]) ∧
  (App.currentView (Shell.app (Gesture.shell w4)) = "register") ∧
  (App.currentView (Shell.app (Gesture.shell w5)) = "guest" ∧
   App.user (Shell.app (Gesture.shell w5)) = Some App.guestUser).
Proof. vm_compute. repeat split. Qed.

(** ** Stopping and late responses *)

Lemma clearInterval_comm (h k : nat) (w : Camera.World) :
  Camera.clearInterval h (Camera.clearInterval k w)
  = Camera.clearInterval k (Camera.clearInterval h w).
Proof.
  unfold Camera.clearInterval, Camera.with_intervals. cbn.
  rewrite delete_delete. reflexivity.
Qed.

Lemma clearInterval_setMessage (h : nat) (m : option string) (w : Camera.World) :
  Camera.clearInterval h (Camera.setMessage m w)
  = Camera.setMessage m (Camera.clearInterval h w).
Proof.
  unfold Camera.setMessage, Camera.mounted. cbn.
  destruct (Shell.mounted (Camera.shell w)); reflexivity.
Qed.

Lemma clearInterval_setIsProcessing (h : nat) (b : bool) (w : Camera.World) :
  Camera.clearInterval h (Camera.setIsProcessing b w)
  = Camera.setIsProcessing b (Camera.clearInterval h w).
Proof.
  unfold Camera.setIsProcessing, Camera.mounted. cbn.
  destruct (Shell.mounted (Camera.shell w)); reflexivity.
Qed.

Lemma clearInterval_dispatch (h : nat) (cb : App.Callback) (w : Camera.World) :
  Camera.clearInterval h (Camera.dispatch cb w)
  = Camera.dispatch cb (Camera.clearInterval h w).
Proof.
  unfold Camera.dispatch, Camera.mounted. cbn.
  destruct (Shell.mounted (Camera.shell w)
            && negb (Shell.mounted (Shell.dispatch cb (Camera.shell w))));
    reflexivity.
Qed.

(** C5, as the code has it. Stopping does not discard a call that is
    already in flight. In the gesture view, resetting [isDetecting] and
    handling a response commute: a response that settles after the stop is
    handled exactly as without the stop. In the camera view the same holds
    for clearing an interval and handling a response; what clearing does
    ensure is that no later tick of that interval samples or submits. *)
Theorem late_response_is_handled_as_without_stop :
  (∀ (req : Gesture.Request) (res : HttpResult Gesture.Data.t) (w : Gesture.World),
     Gesture.settled req res (Gesture.setIsDetecting false w)
     = Gesture.setIsDetecting false (Gesture.settled req res w)) ∧
  (∀ (req : Camera.Request) (res : HttpResult Camera.Data.t) (h : nat) (w : Camera.World),
     Camera.settled req res (Camera.clearInterval h w)
     = Camera.clearInterval h (Camera.settled req res w)) ∧
  (∀ (h : nat) (picture : string) (w : Camera.World),
     Camera.tick h picture (Camera.clearInterval h w) = Camera.clearInterval h w).
Proof.
  split; [ | split].
  - intros req res w. destruct w as [[a ch mt sr lv] m g d v n i nh f c t].
    destruct mt, res as [data|]; gesture_unfold; camera_cases; reflexivity.
  - intros req res h w. unfold Camera.settled.
    rewrite clearInterval_setIsProcessing. f_equal.
    destruct res as [data|].
    + destruct (Camera.Data.success data);
        [ | destruct (bool_decide (Camera.Data.action data = Some "register_prompt"))].
      * rewrite clearInterval_dispatch, (clearInterval_comm h). reflexivity.
      * rewrite clearInterval_dispatch, (clearInterval_comm h). reflexivity.
      * apply eq_sym, clearInterval_setMessage.
    + apply eq_sym, clearInterval_setMessage.
  - intros h picture w. unfold Camera.tick, Camera.clearInterval. cbn.
    rewrite lookup_delete_eq. reflexivity.
Qed.

(** C5, as the specification states it, fails in the gesture view. The
    user presses No while a call is pending; the response, a left gesture,
    arrives afterwards and is applied: it overwrites the feedback and the
    status, and schedules the registration, which reaches the controller
    after the guest access did. *)
Lemma late_response_after_stop_is_applied :
  let stopped := Scenario.declinedByHand in
  let late := Gesture.step (Gesture.Settle 0 (Resolved Scenario.leftSeen)) stopped in
  let final := Gesture.run [Gesture.Elapse 1500; Gesture.Fire 0;
                            Gesture.Elapse 500; Gesture.Fire 0] late in
  (Gesture.isDetecting stopped = false ∧
   Gesture.gestureDetected stopped = Some "right" ∧
   Gesture.timeouts stopped = [(1500%N, App.OnGuestAccess)]) ∧
  (Gesture.gestureDetected late = Some "left" ∧
   Gesture.message late = Gesture.yesDetected ∧
   Gesture.timeouts late =
     [(1500%N, App.OnGuestAccess); (2000%N, App.OnRegistrationStart)]) ∧
  late ≠ Gesture.with_http (Gesture.inflight late) (Gesture.calls late) stopped ∧
  App.currentView (Shell.app (Gesture.shell final)) = "register".
Proof.
  vm_compute. repeat split. discriminate.
Qed.

(** ** The manual buttons *)

Lemma fire_due (k : nat) (due : N) (cb : App.Callback) (w : Gesture.World) :
  Gesture.timeouts w !! k = Some (due, cb) →
  (due <= Gesture.now w)%N →
  Shell.app (Gesture.shell (Gesture.fire k w))
  = App.call cb (Shell.app (Gesture.shell w)).
Proof.
  intros Hk Hdue. unfold Gesture.fire. rewrite Hk.
  apply N.leb_le in Hdue. rewrite Hdue.
  rewrite gesture_dispatch_app. reflexivity.
Qed.

Lemma fire_early (k : nat) (due : N) (cb : App.Callback) (w : Gesture.World) :
  Gesture.timeouts w !! k = Some (due, cb) →
  (Gesture.now w < due)%N →
  Gesture.fire k w = w.
Proof.
  intros Hk Hdue. unfold Gesture.fire. rewrite Hk.
  apply N.leb_gt in Hdue. rewrite Hdue. reflexivity.
Qed.

Lemma elapse_timeouts (dt : N) (w : Gesture.World) :
  Gesture.timeouts (Gesture.step (Gesture.Elapse dt) w) = Gesture.timeouts w.
Proof. reflexivity. Qed.

Lemma elapse_now (dt : N) (w : Gesture.World) :
  Gesture.now (Gesture.step (Gesture.Elapse dt) w) = (Gesture.now w + dt)%N.
Proof. reflexivity. Qed.

Lemma elapse_shell (dt : N) (w : Gesture.World) :
  Gesture.shell (Gesture.step (Gesture.Elapse dt) w) = Gesture.shell w.
Proof. reflexivity. Qed.

(** What a manual choice does, for either button. *)
Lemma manual_choice_effect (w : Gesture.World) (g m : string) (cb : App.Callback) :
  Gesture.mounted w = true →
  let w' := Gesture.setTimeout cb Gesture.manualDelay
              (Gesture.setMessage m
                 (Gesture.setGestureDetected (Some g)
                    (Gesture.setIsDetecting false w))) in
  Gesture.isDetecting w' = false ∧
  Gesture.shell w' = Gesture.shell w ∧
  Gesture.now w' = Gesture.now w ∧
  Gesture.timeouts w' =
    Gesture.timeouts w ++ [((Gesture.now w + Gesture.manualDelay)%N, cb)].
Proof.
  intros Hm. destruct w as [[a ch mt sr lv] ms gd d v n i nh f c t].
  cbn in Hm. subst mt. cbn. auto.
Qed.

(** What a detected left or right gesture does. *)
Lemma gesture_decision_effect
    (w : Gesture.World) (req : Gesture.Request) (data : Gesture.Data.t) :
  Gesture.mounted w = true →
  Gesture.Data.success data = true → Gesture.Data.detected data = true →
  Gesture.Data.gesture data = Some "left" ∨ Gesture.Data.gesture data = Some "right" →
  let w' := Gesture.settled req (Resolved data) w in
  let cb := if bool_decide (Gesture.Data.gesture data = Some "left")
            then App.OnRegistrationStart else App.OnGuestAccess in
  Gesture.isDetecting w' = false ∧
  Gesture.gestureDetected w' = Gesture.Data.gesture data ∧
  Gesture.message w' =
    (if bool_decide (Gesture.Data.gesture data = Some "left")
     then Gesture.yesDetected else Gesture.noDetected) ∧
  Gesture.shell w' = Gesture.shell w ∧
  Gesture.now w' = Gesture.now w ∧
  Gesture.intervals w' = Gesture.intervals w ∧
  Gesture.timeouts w' =
    Gesture.timeouts w ++ [((Gesture.now w + Gesture.gestureDelay)%N, cb)].
Proof.
  intros Hm Hs Hdet Hg. destruct w as [[a ch mt sr lv] ms gd d v n i nh f c t].
  cbn in Hm. subst mt. unfold Gesture.settled. rewrite Hs, Hdet. cbn [andb].
  destruct Hg as [Hg | Hg]; rewrite Hg; cbn; auto 10.
Qed.

(** C8, as the code has it. While [isDetecting] is set both manual buttons
    are enabled. Pressing one resets [isDetecting], which disables both
    buttons, so that a second press does nothing; it calls nothing at once
    but schedules its callback 1500 ms ahead. Before that delay has passed
    the timeout does not run; once it has, the controller shows the register
    view for Yes and the guest view for No. A detected left or right gesture
    disables both buttons as well. *)
Theorem manual_choice_is_scheduled_and_disables_buttons (w : Gesture.World) :
  Gesture.mounted w = true →
  Gesture.isDetecting w = true →
  let k := length (Gesture.timeouts w) in
  let later dt w' := Gesture.step (Gesture.Elapse dt) w' in
  Gesture.manualDisabled w = false ∧
  (let w' := Gesture.clickYes w in
   Gesture.manualDisabled w' = true ∧
   Gesture.clickYes w' = w' ∧ Gesture.clickNo w' = w' ∧
   Gesture.shell w' = Gesture.shell w ∧
   Gesture.timeouts w' =
     Gesture.timeouts w ++ [((Gesture.now w + 1500)%N, App.OnRegistrationStart)] ∧
   (∀ dt, (dt < 1500)%N → Gesture.fire k (later dt w') = later dt w') ∧
   (∀ dt, (1500 <= dt)%N →
      App.currentView (Shell.app (Gesture.shell (Gesture.fire k (later dt w'))))
      = "register")) ∧
  (let w' := Gesture.clickNo w in
   Gesture.manualDisabled w' = true ∧
   Gesture.clickYes w' = w' ∧ Gesture.clickNo w' = w' ∧
   Gesture.shell w' = Gesture.shell w ∧
   Gesture.timeouts w' =
     Gesture.timeouts w ++ [((Gesture.now w + 1500)%N, App.OnGuestAccess)] ∧
   (∀ dt, (dt < 1500)%N → Gesture.fire k (later dt w') = later dt w') ∧
   (∀ dt, (1500 <= dt)%N →
      App.currentView (Shell.app (Gesture.shell (Gesture.fire k (later dt w'))))
      = "guest")) ∧
  (∀ req data,
     Gesture.Data.success data = true → Gesture.Data.detected data = true →
     Gesture.Data.gesture data = Some "left" ∨
       Gesture.Data.gesture data = Some "right" →
     Gesture.manualDisabled (Gesture.settled req (Resolved data) w) = true).
Proof.
  intros Hm Hd. cbv zeta.
  assert (Hen : Gesture.manualDisabled w = false).
  { unfold Gesture.manualDisabled. rewrite Hd. reflexivity. }
  assert (Hgen : ∀ g m cb view,
    App.currentView (App.call cb (Shell.app (Gesture.shell w))) = view →
    let w' := Gesture.setTimeout cb Gesture.manualDelay
                (Gesture.setMessage m
                   (Gesture.setGestureDetected (Some g)
                      (Gesture.setIsDetecting false w))) in
    Gesture.manualDisabled w' = true ∧
    Gesture.clickYes w' = w' ∧ Gesture.clickNo w' = w' ∧
    Gesture.shell w' = Gesture.shell w ∧
    Gesture.timeouts w' =
      Gesture.timeouts w ++ [((Gesture.now w + 1500)%N, cb)] ∧
    (∀ dt, (dt < 1500)%N →
       Gesture.fire (length (Gesture.timeouts w)) (Gesture.step (Gesture.Elapse dt) w')
       = Gesture.step (Gesture.Elapse dt) w') ∧
    (∀ dt, (1500 <= dt)%N →
       App.currentView
         (Shell.app (Gesture.shell
            (Gesture.fire (length (Gesture.timeouts w))
               (Gesture.step (Gesture.Elapse dt) w')))) = view)).
  { intros g m cb view Hview. cbv zeta.
    destruct (manual_choice_effect w g m cb Hm) as (E1 & E2 & E3 & E4).
    set (w' := Gesture.setTimeout cb Gesture.manualDelay _) in *.
    assert (Hdis : Gesture.manualDisabled w' = true).
    { unfold Gesture.manualDisabled. rewrite E1. reflexivity. }
    assert (Hk : ∀ dt, Gesture.timeouts (Gesture.step (Gesture.Elapse dt) w')
                         !! length (Gesture.timeouts w)
                       = Some ((Gesture.now w + 1500)%N, cb)).
    { intros dt. rewrite elapse_timeouts, E4.
      rewrite lookup_app_r by lia. rewrite Nat.sub_diag. reflexivity. }
    split; [exact Hdis | ].
    split; [unfold Gesture.clickYes; rewrite Hdis, andb_false_r; reflexivity | ].
    split; [unfold Gesture.clickNo; rewrite Hdis, andb_false_r; reflexivity | ].
    split; [exact E2 | ].
    split; [exact E4 | ].
    split.
    - intros dt Hdt. apply (fire_early _ _ _ _ (Hk dt)).
      rewrite elapse_now, E3. lia.
    - intros dt Hdt. rewrite (fire_due _ _ _ _ (Hk dt)).
      + rewrite elapse_shell, E2. exact Hview.
      + rewrite elapse_now, E3. lia. }
  split; [exact Hen | split; [ | split]].
  - unfold Gesture.clickYes. rewrite Hm, Hen. cbn [andb negb].
    apply (Hgen "left" _ App.OnRegistrationStart "register"). reflexivity.
  - unfold Gesture.clickNo. rewrite Hm, Hen. cbn [andb negb].
    apply (Hgen "right" _ App.OnGuestAccess "guest"). reflexivity.
  - intros req data Hs Hdet Hg.
    pose proof (gesture_decision_effect w req data Hm Hs Hdet Hg) as Hdec.
    cbv zeta in Hdec. destruct Hdec as (D1 & _).
    unfold Gesture.manualDisabled. rewrite D1. reflexivity.
Qed.

Lemma manual_choice_is_scheduled_and_disables_buttons_witness :
  Gesture.manualDisabled Scenario.watching = false ∧
  Gesture.manualDisabled (Gesture.clickYes Scenario.watching) = true ∧
  Gesture.timeouts (Gesture.clickNo Scenario.watching) = [(1500%N, App.OnGuestAccess)] ∧
  App.currentView
    (Shell.app (Gesture.shell
       (Gesture.fire 0 (Gesture.step (Gesture.Elapse 1500)
                          (Gesture.clickNo Scenario.watching))))) = "guest".
Proof.
  destruct (manual_choice_is_scheduled_and_disables_buttons Scenario.watching
              eq_refl eq_refl) as (Hen & Hyes & Hno & _).
  destruct Hyes as (Hy1 & _).
  destruct Hno as (_ & _ & _ & _ & Hn5 & _ & Hn7).
  split; [exact Hen | split; [exact Hy1 | split; [exact Hn5 | ]]].
  apply (Hn7 1500%N). reflexivity.
Defined.

(** C8, as the specification states it, fails: pressing Yes does not reach
    the controller at once. The view stays the gesture view, and the
    callback waits in a timeout that is not due. *)
Lemma manual_choice_is_not_immediate :
  let w' := Gesture.clickYes Scenario.watching in
  Gesture.manualDisabled Scenario.watching = false ∧
  App.currentView (Shell.app (Gesture.shell w')) = "gesture" ∧
  App.currentView (Shell.app (Gesture.shell w')) ≠ "register" ∧
  Gesture.timeouts w' = [(1500%N, App.OnRegistrationStart)] ∧
  Gesture.fire 0 w' = w'.
Proof.
  vm_compute. repeat split. discriminate.
Qed.

(** ** Guest access *)

(** C9. Every way into guest access stores the same record, which has the
    two fields name, Guest, and email, guest@example.com, and shows the guest
    view: the Continue as Guest button of the registration form, the No
    button of the gesture view once its timeout runs, and a detected right
    gesture once its timeout runs. *)
Theorem guest_access_stores_guest_record :
  (App.guestUser !! "name" = Some "Guest" ∧
   App.guestUser !! "email" = Some "guest@example.com" ∧
   size App.guestUser = 2) ∧
  (∀ s : Shell.State,
     let a := Shell.app (Registration.clickContinueAsGuest s) in
     App.user a = Some App.guestUser ∧ App.currentView a = "guest") ∧
  (∀ (w : Gesture.World) (dt : N),
     Gesture.mounted w = true → Gesture.isDetecting w = true →
     (Gesture.manualDelay <= dt)%N →
     let w' := Gesture.fire (length (Gesture.timeouts w))
                 (Gesture.step (Gesture.Elapse dt) (Gesture.clickNo w)) in
     let a := Shell.app (Gesture.shell w') in
     App.user a = Some App.guestUser ∧ App.currentView a = "guest") ∧
  (∀ (w : Gesture.World) (req : Gesture.Request) (data : Gesture.Data.t) (dt : N),
     Gesture.mounted w = true →
     Gesture.Data.success data = true → Gesture.Data.detected data = true →
     Gesture.Data.gesture data = Some "right" →
     (Gesture.gestureDelay <= dt)%N →
     let w' := Gesture.fire (length (Gesture.timeouts w))
                 (Gesture.step (Gesture.Elapse dt)
                    (Gesture.settled req (Resolved data) w)) in
     let a := Shell.app (Gesture.shell w') in
     App.user a = Some App.guestUser ∧ App.currentView a = "guest") ∧
  (∀ (w : Gesture.World) (k : nat) (due : N),
     Gesture.timeouts w !! k = Some (due, App.OnGuestAccess) →
     (due <= Gesture.now w)%N →
     let a := Shell.app (Gesture.shell (Gesture.fire k w)) in
     App.user a = Some App.guestUser ∧ App.currentView a = "guest").
Proof.
  split; [repeat split | ].
  split.
  { intros s. cbv zeta. unfold Registration.clickContinueAsGuest, Shell.dispatch.
    destruct (Shell.leaves _ _); [rewrite unmount_app | ]; cbn; auto. }
  assert (Hfire : ∀ (w : Gesture.World) (k : nat) (due : N),
    Gesture.timeouts w !! k = Some (due, App.OnGuestAccess) →
    (due <= Gesture.now w)%N →
    App.user (Shell.app (Gesture.shell (Gesture.fire k w))) = Some App.guestUser ∧
    App.currentView (Shell.app (Gesture.shell (Gesture.fire k w))) = "guest").
  { intros w k due Hk Hdue. rewrite (fire_due k due _ w Hk Hdue). cbn. auto. }
  split; [ | split; [ | exact Hfire]].
  - intros w dt Hm Hd Hdt. cbv zeta.
    assert (Hen : Gesture.manualDisabled w = false).
    { unfold Gesture.manualDisabled. rewrite Hd. reflexivity. }
    unfold Gesture.clickNo. rewrite Hm, Hen. cbn [andb negb].
    unfold Gesture.handleManualNo.
    destruct (manual_choice_effect w "right"
                "❌ No selected. Redirecting to guest access..."
                App.OnGuestAccess Hm) as (_ & _ & E3 & E4).
    apply (Hfire _ _ (Gesture.now w + Gesture.manualDelay)%N).
    + rewrite elapse_timeouts, E4.
      rewrite lookup_app_r by lia. rewrite Nat.sub_diag. reflexivity.
    + rewrite elapse_now, E3. lia.
  - intros w req data dt Hm Hs Hdet Hg Hdt. cbv zeta.
    pose proof (gesture_decision_effect w req data Hm Hs Hdet (or_intror Hg)) as Hdec.
    cbv zeta in Hdec. destruct Hdec as (_ & _ & _ & _ & D5 & _ & D7).
    rewrite Hg in D7. rewrite bool_decide_eq_false_2 in D7 by discriminate.
    apply (Hfire _ _ (Gesture.now w + Gesture.gestureDelay)%N).
    + rewrite elapse_timeouts, D7.
      rewrite lookup_app_r by lia. rewrite Nat.sub_diag. reflexivity.
    + rewrite elapse_now, D5. lia.
Qed.

Lemma guest_access_stores_guest_record_witness :
  App.user (Shell.app (Registration.clickContinueAsGuest Scenario.loggedIn))
    = Some App.guestUser ∧
  App.user
    (Shell.app (Gesture.shell
       (Gesture.fire 0 (Gesture.step (Gesture.Elapse 1500)
                          (Gesture.clickNo Scenario.watching)))))
    = Some App.guestUser ∧
  App.user
    (Shell.app (Gesture.shell
       (Gesture.fire 0
          (Gesture.step (Gesture.Elapse 2000)
             (Gesture.settled
                {| Gesture.image := "frame 1"; Gesture.owner := 0;
                   Gesture.env := Gesture.firstRender |}
                (Resolved Scenario.rightSeen) Scenario.watching)))))
    = Some App.guestUser.
Proof.
  destruct guest_access_stores_guest_record as (_ & Hform & Hno & Hright & _).
  split; [exact (proj1 (Hform Scenario.loggedIn)) | split].
  - refine (proj1 (Hno Scenario.watching 1500%N eq_refl eq_refl _)).
    discriminate.
  - refine (proj1 (Hright Scenario.watching _ Scenario.rightSeen 2000%N
                     eq_refl eq_refl eq_refl eq_refl _)).
    discriminate.
Defined.

(** ** Gesture polling: the cases without a decision, and later ticks *)

(** A response without a detected gesture changes nothing; a failed call
    puts the hint at the buttons into the status. Polling goes on in both
    cases. *)
Lemma gesture_undecided_keeps_polling
    (w : Gesture.World) (req : Gesture.Request) (data : Gesture.Data.t) :
  Gesture.mounted w = true →
  (Gesture.Data.success data && Gesture.Data.detected data = false →
   Gesture.settled req (Resolved data) w = w) ∧
  (Gesture.env req = Gesture.firstRender →
   let w' := Gesture.settled req Rejected w in
   Gesture.message w' = Gesture.useButtons ∧
   Gesture.isDetecting w' = Gesture.isDetecting w ∧
   Gesture.intervals w' = Gesture.intervals w ∧
   Gesture.timeouts w' = Gesture.timeouts w ∧
   Gesture.shell w' = Gesture.shell w).
Proof.
  intros Hm. split.
  - intros Hnone. unfold Gesture.settled. rewrite Hnone. reflexivity.
  - intros Henv. cbv zeta. unfold Gesture.settled. rewrite Henv.
    destruct w as [[a ch mt sr lv] ms gd d v n i nh f c t].
    cbn in Hm. subst mt. cbn. auto.
Qed.

(** In every world the mounted gesture view reaches, a tick of interval 0
    with a frame at hand issues a call: also after a gesture was detected or
    a button pressed, when [isDetecting] is reset. *)
Lemma gesture_tick_submits_in_every_state
    (dev : Camera.GumResult) (a : App.State) (es : list Gesture.Event)
    (picture imageData : string) :
  let w := Gesture.run es (Gesture.mount dev a) in
  Gesture.captureFrame picture w = Some imageData →
  Gesture.calls (Gesture.tick 0 picture w) =
    Gesture.calls w ++ [{| Gesture.image := imageData; Gesture.owner := 0;
                           Gesture.env := Gesture.firstRender |}].
Proof.
  intros w Hframe. unfold Gesture.tick.
  unfold w at 1. rewrite gesture_interval_never_cleared.
  rewrite lookup_singleton_eq. unfold Gesture.intervalCallback. cbn [negb Gesture.r_isDetecting Gesture.firstRender].
  cbn. fold w. rewrite Hframe. reflexivity.
Qed.

(** The status block shows the looking hint while no gesture was
    detected; a detected gesture that is neither left nor right, such as
    center, takes no decision, keeps polling, and is displayed as a No. *)
Lemma center_gesture_is_displayed_as_no :
  let w := Gesture.run [Gesture.Tick 0 "frame 1"] Scenario.watching in
  let w' := Gesture.step (Gesture.Settle 0 (Resolved Scenario.centerSeen)) w in
  Gesture.detectionStatus w = Gesture.lookingHint ∧
  Gesture.detectionStatus w' = "Detected: NO ❌" ∧
  Gesture.isDetecting w' = true ∧
  Gesture.timeouts w' = [].
Proof. vm_compute. repeat split. Qed.

(** * Further properties of the code *)

(** ** Regular expressions *)

Lemma seq_spec (r q : Regex.t) (s : list N) :
  Regex.Matches (Regex.Seq r q) s ↔
  ∃ u v, s = u ++ v ∧ Regex.Matches r u ∧ Regex.Matches q v.
Proof.
  split.
  - intros H. inversion H; subst. eauto.
  - intros (u & v & -> & Hu & Hv). constructor; assumption.
Qed.

Lemma alt_spec (r q : Regex.t) (s : list N) :
  Regex.Matches (Regex.Alt r q) s ↔ Regex.Matches r s ∨ Regex.Matches q s.
Proof.
  split.
  - intros H. inversion H; subst; auto.
  - intros [H | H]; [apply Regex.MAltL | apply Regex.MAltR]; exact H.
Qed.

Lemma class_spec (p : N → bool) (s : list N) :
  Regex.Matches (Regex.Class p) s ↔ ∃ c, s = [c] ∧ p c = true.
Proof.
  split.
  - intros H. inversion H; subst. eauto.
  - intros (c & -> & Hc). constructor. exact Hc.
Qed.

Lemma void_spec (s : list N) : Regex.Matches Regex.Void s ↔ False.
Proof. split; [intros H; inversion H | tauto]. Qed.

Lemma eps_spec (s : list N) : Regex.Matches Regex.Eps s ↔ s = [].
Proof. split; [intros H; inversion H; reflexivity | intros ->; constructor]. Qed.

Lemma nullable_spec (r : Regex.t) :
  Regex.nullable r = true ↔ Regex.Matches r [].
Proof.
  induction r as [| |p|r IHr s IHs|r IHr s IHs|r IHr]; cbn.
  - rewrite void_spec. split; [discriminate | tauto].
  - rewrite eps_spec. tauto.
  - rewrite class_spec. split; [discriminate | intros (c & Hc & _); discriminate].
  - rewrite andb_true_iff, IHr, IHs, seq_spec. split.
    + intros [Hr Hs]. exists [], []. auto.
    + intros (u & v & Heq & Hu & Hv). symmetry in Heq.
      apply app_eq_nil in Heq as [-> ->]. auto.
  - rewrite orb_true_iff, IHr, IHs, alt_spec. tauto.
  - split; [constructor | reflexivity].
Qed.

(** A non-empty match of [r*] starts with a non-empty match of [r]. *)
Lemma star_cons (r : Regex.t) (c : N) (s : list N) :
  Regex.Matches (Regex.Star r) (c :: s) →
  ∃ u v, s = u ++ v ∧ Regex.Matches r (c :: u) ∧ Regex.Matches (Regex.Star r) v.
Proof.
  intros H. remember (Regex.Star r) as q eqn:Eq. remember (c :: s) as l eqn:El.
  revert c s El.
  induction H as [ | | | | | |r' u v Hu _ Hv IHv]; intros c0 s0 El;
    try discriminate.
  injection Eq as ->.
  destruct u as [|c' u].
  - cbn in El. apply (IHv eq_refl c0 s0 El).
  - cbn in El. injection El as E1 E2. subst. exists u, v. auto.
Qed.

Lemma seq_cons (r q : Regex.t) (c : N) (s : list N) :
  Regex.Matches (Regex.Seq r q) (c :: s) ↔
  (∃ u v, s = u ++ v ∧ Regex.Matches r (c :: u) ∧ Regex.Matches q v) ∨
  (Regex.Matches r [] ∧ Regex.Matches q (c :: s)).
Proof.
  rewrite seq_spec. split.
  - intros (u & v & Heq & Hu & Hv). destruct u as [|c' u]; cbn in Heq.
    + right. subst v. auto.
    + injection Heq as -> ->. left. exists u, v. auto.
  - intros [(u & v & -> & Hu & Hv) | [Hr Hq]].
    + exists (c :: u), v. auto.
    + exists [], (c :: s). auto.
Qed.

Lemma deriv_spec (r : Regex.t) (c : N) (s : list N) :
  Regex.Matches (Regex.deriv c r) s ↔ Regex.Matches r (c :: s).
Proof.
  revert s. induction r as [| |p|r IHr q IHq|r IHr q IHq|r IHr]; intros s; cbn.
  - rewrite !void_spec. tauto.
  - rewrite void_spec, eps_spec. split; [tauto | discriminate].
  - rewrite class_spec. destruct (p c) eqn:Hp.
    + rewrite eps_spec. split.
      * intros ->. exists c. auto.
      * intros (c' & [= -> ->] & _). reflexivity.
    + rewrite void_spec. split; [tauto | ].
      intros (c' & [= -> ->] & Hc). congruence.
  - assert (Hseq : Regex.Matches (Regex.Seq (Regex.deriv c r) q) s ↔
                   ∃ u v, s = u ++ v ∧ Regex.Matches r (c :: u) ∧ Regex.Matches q v).
    { rewrite seq_spec. split.
      - intros (u & v & -> & Hu & Hv). exists u, v. rewrite <- IHr. auto.
      - intros (u & v & -> & Hu & Hv). exists u, v. rewrite IHr. auto. }
    rewrite seq_cons.
    destruct (Regex.nullable r) eqn:Hn.
    + apply nullable_spec in Hn. rewrite alt_spec, Hseq, IHq. tauto.
    + rewrite Hseq. split; [auto | ].
      intros [H | [Hr _]]; [exact H | ].
      apply nullable_spec in Hr. congruence.
  - rewrite !alt_spec, IHr, IHq. tauto.
  - rewrite seq_spec. split.
    + intros (u & v & -> & Hu & Hv).
      apply IHr in Hu. exact (Regex.MStarApp r (c :: u) v Hu Hv).
    + intros H. apply star_cons in H as (u & v & -> & Hu & Hv).
      exists u, v. rewrite IHr. auto.
Qed.

Lemma matchHere_spec (r : Regex.t) (s : list N) :
  Regex.matchHere r s = true ↔ ∃ m post, s = m ++ post ∧ Regex.Matches r m.
Proof.
  revert r. induction s as [|c s IH]; intros r; cbn.
  - rewrite orb_false_r, nullable_spec. split.
    + intros H. exists [], []. auto.
    + intros (m & post & Heq & H). symmetry in Heq.
      apply app_eq_nil in Heq as [-> _]. exact H.
  - rewrite orb_true_iff, nullable_spec, IH. split.
    + intros [H | (m & post & -> & H)].
      * exists [], (c :: s). auto.
      * exists (c :: m), post. split; [reflexivity | apply deriv_spec, H].
    + intros (m & post & Heq & H). destruct m as [|c' m]; cbn in Heq.
      * left. exact H.
      * injection Heq as -> ->. right. exists m, post.
        split; [reflexivity | apply deriv_spec, H].
Qed.

(** [test] finds a match wherever it is in the string. *)
Lemma test_spec (r : Regex.t) (s : list N) :
  Regex.test r s = true ↔ ∃ pre m post, s = pre ++ m ++ post ∧ Regex.Matches r m.
Proof.
  induction s as [|c s IH]; cbn [Regex.test].
  - rewrite orb_false_r, matchHere_spec. split.
    + intros (m & post & -> & H). exists [], m, post. auto.
    + intros (pre & m & post & Heq & H). destruct pre; [ | discriminate].
      exists m, post. auto.
  - rewrite orb_true_iff, matchHere_spec, IH. split.
    + intros [(m & post & Heq & H) | (pre & m & post & -> & H)].
      * exists [], m, post. auto.
      * exists (c :: pre), m, post. auto.
    + intros (pre & m & post & Heq & H). destruct pre as [|c' pre]; cbn in Heq.
      * left. exists m, post. auto.
      * injection Heq as -> ->. right. exists pre, m, post. auto.
Qed.

Lemma star_class_spec (p : N → bool) (s : list N) :
  Regex.Matches (Regex.Star (Regex.Class p)) s ↔ Forall (λ c, p c = true) s.
Proof.
  split.
  - intros H. remember (Regex.Star (Regex.Class p)) as q eqn:Eq.
    induction H as [ | | | | | |r' u v Hu _ Hv IHv]; try discriminate.
    + constructor.
    + injection Eq as ->. apply class_spec in Hu as (c & -> & Hc).
      constructor; [assumption | apply IHv; reflexivity].
  - induction 1 as [|c l Hc Hl IHl]; [constructor | ].
    exact (Regex.MStarApp _ [c] l (Regex.MClass p c Hc) IHl).
Qed.

(** What [p+] matches: a non-empty run of code units of the class. *)
Lemma plus_class_spec (p : N → bool) (s : list N) :
  Regex.Matches (Regex.Plus (Regex.Class p)) s ↔
  s ≠ [] ∧ Forall (λ c, p c = true) s.
Proof.
  unfold Regex.Plus. rewrite seq_spec. split.
  - intros (u & v & -> & Hu & Hv). apply class_spec in Hu as (c & -> & Hc).
    split; [discriminate | ].
    constructor; [assumption | apply star_class_spec, Hv].
  - intros [Hne Hall]. destruct s as [|c s]; [congruence | ].
    apply Forall_cons in Hall as [Hc Hs].
    exists [c], s. split; [reflexivity | split].
    + constructor. exact Hc.
    + apply star_class_spec, Hs.
Qed.

Lemma lit_spec (c : N) (s : list N) :
  Regex.Matches (Regex.Lit c) s ↔ s = [c].
Proof.
  unfold Regex.Lit. rewrite class_spec. split.
  - intros (c' & -> & Hc). apply N.eqb_eq in Hc. congruence.
  - intros ->. exists c. split; [reflexivity | apply N.eqb_refl].
Qed.

(** ** The registration form: validation *)

Lemma emailPattern_matches (m : list N) :
  Regex.Matches Form.emailPattern m ↔
  ∃ u v w,
    m = u ++ [64%N] ++ v ++ [46%N] ++ w ∧
    (u ≠ [] ∧ Forall (λ c, Form.nonSpace c = true) u) ∧
    (v ≠ [] ∧ Forall (λ c, Form.nonSpace c = true) v) ∧
    (w ≠ [] ∧ Forall (λ c, Form.nonSpace c = true) w).
Proof.
  unfold Form.emailPattern. rewrite seq_spec. split.
  - intros (u & r1 & -> & Hu & H1).
    apply seq_spec in H1 as (a & r2 & -> & Ha & H2).
    apply seq_spec in H2 as (v & r3 & -> & Hv & H3).
    apply seq_spec in H3 as (b & w & -> & Hb & Hw).
    apply lit_spec in Ha as ->. apply lit_spec in Hb as ->.
    exists u, v, w. rewrite <- !plus_class_spec. auto.
  - intros (u & v & w & -> & Hu & Hv & Hw).
    rewrite <- plus_class_spec in Hu, Hv, Hw.
    exists u, ([64%N] ++ v ++ [46%N] ++ w). split; [reflexivity | split; [exact Hu | ]].
    apply seq_spec. exists [64%N], (v ++ [46%N] ++ w).
    split; [reflexivity | split; [apply lit_spec; reflexivity | ]].
    apply seq_spec. exists v, ([46%N] ++ w).
    split; [reflexivity | split; [exact Hv | ]].
    apply seq_spec. exists [46%N], w.
    split; [reflexivity | split; [apply lit_spec; reflexivity | exact Hw]].
Qed.

(** X1. The email check accepts exactly the strings that contain, somewhere,
    a code unit that is not white space, an at sign, one or more code units
    that are not white space, a full stop, and a code unit that is not white
    space. Nothing is required of the rest of the string. *)
Theorem email_check_accepts_embedded_address (s : Form.JsString) :
  Regex.test Form.emailPattern s = true ↔
  ∃ pre a mid b post,
    s = pre ++ [a] ++ [64%N] ++ mid ++ [46%N] ++ [b] ++ post ∧
    Form.nonSpace a = true ∧
    mid ≠ [] ∧ Forall (λ c, Form.nonSpace c = true) mid ∧
    Form.nonSpace b = true.
Proof.
  rewrite test_spec. split.
  - intros (pre & m & post & -> & Hm).
    apply emailPattern_matches in Hm
      as (u & v & w & -> & [Hu Hus] & [Hv Hvs] & [Hw Hws]).
    destruct (List.exists_last Hu) as (u' & a & ->).
    destruct w as [|b w']; [congruence | ].
    apply Forall_app in Hus as [_ Ha]. apply Forall_cons in Ha as [Ha _].
    apply Forall_cons in Hws as [Hb _].
    exists (pre ++ u'), a, v, b, (w' ++ post).
    split; [ | auto].
    rewrite <- ?app_assoc. cbn. rewrite <- ?app_assoc. reflexivity.
  - intros (pre & a & mid & b & post & -> & Ha & Hmid & Hmids & Hb).
    exists pre, ([a] ++ [64%N] ++ mid ++ [46%N] ++ [b]), post.
    split; [cbn; rewrite <- ?app_assoc; reflexivity | ].
    apply emailPattern_matches. exists [a], mid, [b].
    split; [reflexivity | ].
    repeat split; try discriminate; try assumption; repeat constructor; assumption.
Qed.

Lemma dropWhile_nil (p : N → bool) (s : Form.JsString) :
  Form.dropWhile p s = [] ↔ Forall (λ c, p c = true) s.
Proof.
  induction s as [|c s IH]; cbn.
  - split; [constructor | reflexivity].
  - destruct (p c) eqn:Hp.
    + rewrite IH, Forall_cons. tauto.
    + rewrite Forall_cons. split; [discriminate | intros [H _]; congruence].
Qed.

Lemma dropWhile_all (p : N → bool) (s : Form.JsString) :
  Forall (λ c, p c = true) (Form.dropWhile p s) → Form.dropWhile p s = [].
Proof.
  induction s as [|c s IH]; cbn; [reflexivity | ].
  destruct (p c) eqn:Hp; [exact IH | ].
  intros H. apply Forall_cons in H as [H _]. congruence.
Qed.

(** [trim] leaves nothing exactly of a blank string. *)
Lemma trim_blank (s : Form.JsString) : Form.trim s = [] ↔ Form.blank s.
Proof.
  unfold Form.trim, Form.blank.
  rewrite <- (dropWhile_nil Form.isWhiteSpace s). split.
  - intros H. apply (f_equal reverse) in H.
    rewrite reverse_involutive, reverse_nil in H.
    apply dropWhile_nil in H. rewrite Forall_reverse in H.
    apply dropWhile_all, H.
  - intros ->. reflexivity.
Qed.

Lemma isEmpty_trim (s : Form.JsString) :
  Form.isEmpty (Form.trim s) = true ↔ Form.blank s.
Proof.
  rewrite <- trim_blank. destruct (Form.trim s); cbn; split; congruence.
Qed.

(** A string the email check accepts is not blank. *)
Lemma email_match_not_blank (s : Form.JsString) :
  Regex.test Form.emailPattern s = true → ¬ Form.blank s.
Proof.
  intros H Hb. apply test_spec in H as (pre & m & post & -> & Hm).
  apply emailPattern_matches in Hm as (u & v & w & -> & [Hu Hus] & _).
  destruct u as [|a u]; [congruence | ].
  apply Forall_cons in Hus as [Ha _].
  unfold Form.blank in Hb.
  apply Forall_app in Hb as [_ Hb]. apply Forall_app in Hb as [Hb _].
  apply Forall_cons in Hb as [Hb _].
  unfold Form.nonSpace in Ha. rewrite Hb in Ha. discriminate.
Qed.

Lemma newErrors_empty (d : Form.FormData) (face : option string) :
  Form.newErrors d face = ∅ ↔ Form.acceptable d face.
Proof.
  unfold Form.newErrors, Form.acceptable. cbv zeta.
  pose proof (isEmpty_trim (Form.name d)) as Hname.
  pose proof (isEmpty_trim (Form.email d)) as Hemail.
  pose proof (email_match_not_blank (Form.email d)) as Hnb.
  assert (Hpw : Form.isEmpty (Form.password d) = true ↔ Form.password d = []).
  { destruct (Form.password d); cbn; split; congruence. }
  destruct (Form.isEmpty (Form.trim (Form.name d))) eqn:E1;
    destruct (Form.isEmpty (Form.trim (Form.email d))) eqn:E2;
    destruct (Regex.test Form.emailPattern (Form.email d)) eqn:E3;
    destruct (Form.isEmpty (Form.password d)) eqn:E4;
    destruct (Nat.ltb_spec (length (Form.password d)) 6) as [E5 | E5];
    destruct (decide (Form.password d = Form.confirmPassword d)) as [E6 | E6];
    destruct (Form.truthy face) eqn:E7;
    rewrite ?(bool_decide_eq_true_2 _ E6), ?(bool_decide_eq_false_2 _ E6);
    cbn [negb];
    (split;
     [ intros H;
       try (exfalso; revert H; apply insert_non_empty)
     | intros (A1 & A2 & A3 & A4 & A5) ]);
    try discriminate;
    try (exfalso; apply A1, Hname; reflexivity);
    try (exfalso; apply (Hnb eq_refl), Hemail; reflexivity);
    try (exfalso; lia);
    try (exfalso; congruence);
    try (exfalso; assert (Hp0 : Form.password d = []) by (apply Hpw; reflexivity);
         rewrite Hp0 in A3; cbn in A3; lia).
  all: repeat split; try assumption.
  all: intros Hb; apply Hname in Hb; discriminate.
Qed.

(** The value [validateForm] returns, in terms of the form. *)
Lemma validateForm_accepts (w : Form.World) :
  Form.mounted w = true →
  ((Form.validateForm w).1 = true ↔
   Form.acceptable (Form.formData w) (Form.capturedFace w)).
Proof.
  intros Hm. unfold Form.validateForm. cbn [fst snd].
  rewrite Nat.eqb_eq, map_size_empty_iff. apply newErrors_empty.
Qed.

(** X2. [validateForm] answers true exactly for a form whose name is not
    blank, whose email contains a part of the shape x@y.z, whose password has
    six code units or more and is repeated exactly, and that has a captured
    face; the errors it stores are then empty, and otherwise not. *)
Theorem validateForm_accepts_exactly (w : Form.World) :
  Form.mounted w = true →
  ((Form.validateForm w).1 = true ↔
   Form.acceptable (Form.formData w) (Form.capturedFace w)) ∧
  ((Form.validateForm w).1 = true ↔ Form.errors (Form.validateForm w).2 = ∅).
Proof.
  intros Hm. split; [exact (validateForm_accepts w Hm) | ].
  unfold Form.validateForm. cbn [fst snd].
  unfold Form.setErrors. rewrite Hm. cbn.
  rewrite Nat.eqb_eq, map_size_empty_iff. tauto.
Qed.

(** ** The registration form: its two calls *)

Ltac form_unfold :=
  unfold Form.settle, Form.settled, Form.handleSubmit, Form.validateForm,
    Form.captureFace, Form.handleChange, Form.dispatch, Form.post,
    Form.setFormData, Form.setErrors, Form.setIsSubmitting,
    Form.setCapturedFace, Form.setIsCapturingFace, Form.submitDisabled,
    Form.mounted;
  cbn.

(** The component is never mounted again, and the controller's callbacks
    leave the flags and the calls alone. *)
Lemma form_dispatch_effect (cb : App.Callback) (w : Form.World) :
  let w' := Form.dispatch cb w in
  Form.calls w' = Form.calls w ∧
  Form.inflight w' = Form.inflight w ∧
  Form.isSubmitting w' = Form.isSubmitting w ∧
  Form.isCapturingFace w' = Form.isCapturingFace w ∧
  (Form.mounted w' = true → Form.mounted w = true) ∧
  Shell.app (Form.shell w') = App.call cb (Shell.app (Form.shell w)).
Proof.
  destruct w as [[a ch mt sr lv] fd er sub cf cap v inf cs].
  unfold Form.dispatch, Form.mounted, Shell.dispatch, Shell.leaves, Shell.unmount,
    Shell.cleanup. cbn.
  destruct mt; cbn;
    [destruct (bool_decide (App.renderView (App.call cb a) = ch)); cbn;
       [ | destruct sr; cbn] | ];
    repeat split; auto; discriminate.
Qed.

Ltac form_same :=
  split; [intros; congruence
         | left; repeat split; intros; (reflexivity || congruence)].

(** What each setter leaves alone. *)
Lemma form_setter_frame (w : Form.World) :
  (∀ e, let w' := Form.setErrors e w in
        Form.calls w' = Form.calls w ∧ Form.inflight w' = Form.inflight w ∧
        Form.isSubmitting w' = Form.isSubmitting w ∧
        Form.isCapturingFace w' = Form.isCapturingFace w ∧
        Form.mounted w' = Form.mounted w) ∧
  (∀ f, let w' := Form.setCapturedFace f w in
        Form.calls w' = Form.calls w ∧ Form.inflight w' = Form.inflight w ∧
        Form.isSubmitting w' = Form.isSubmitting w ∧
        Form.isCapturingFace w' = Form.isCapturingFace w ∧
        Form.mounted w' = Form.mounted w) ∧
  (∀ b, let w' := Form.setIsSubmitting b w in
        Form.calls w' = Form.calls w ∧ Form.inflight w' = Form.inflight w ∧
        Form.isCapturingFace w' = Form.isCapturingFace w ∧
        Form.mounted w' = Form.mounted w ∧
        (Form.mounted w = true → Form.isSubmitting w' = b)) ∧
  (∀ b, let w' := Form.setIsCapturingFace b w in
        Form.calls w' = Form.calls w ∧ Form.inflight w' = Form.inflight w ∧
        Form.isSubmitting w' = Form.isSubmitting w ∧
        Form.mounted w' = Form.mounted w ∧
        (Form.mounted w = true → Form.isCapturingFace w' = b)).
Proof.
  unfold Form.setErrors, Form.setCapturedFace, Form.setIsSubmitting,
    Form.setIsCapturingFace, Form.mounted.
  destruct (Shell.mounted (Form.shell w)) eqn:Hm; cbn; repeat split; auto;
    discriminate.
Qed.

(** What one event does to the calls and to the two flags. *)
Lemma form_step_effect (e : Form.Event) (w : Form.World) :
  let w' := Form.step e w in
  (Form.mounted w' = true → Form.mounted w = true) ∧
  ((Form.calls w' = Form.calls w ∧ Form.inflight w' = Form.inflight w ∧
    (Form.mounted w' = true →
     Form.isSubmitting w' = Form.isSubmitting w ∧
     Form.isCapturingFace w' = Form.isCapturingFace w)) ∨
   (∃ id req,
      Form.inflight w !! id = Some req ∧
      Form.calls w' = Form.calls w ∧
      Form.inflight w' = delete id (Form.inflight w) ∧
      (Form.mounted w' = true →
       (Form.isRegister req →
        Form.isSubmitting w' = false ∧
        Form.isCapturingFace w' = Form.isCapturingFace w) ∧
       (Form.isCapture req →
        Form.isCapturingFace w' = false ∧
        Form.isSubmitting w' = Form.isSubmitting w))) ∨
   (∃ req,
      Form.calls w' = Form.calls w ++ [req] ∧
      Form.inflight w' = <[length (Form.calls w) := req]> (Form.inflight w) ∧
      Form.mounted w = true ∧
      ((Form.isCapture req ∧
        Form.isCapturingFace w = false ∧ Form.isCapturingFace w' = true ∧
        Form.isSubmitting w' = Form.isSubmitting w) ∨
       (req = Form.Register (Form.formData w) (Form.capturedFace w) ∧
        Form.acceptable (Form.formData w) (Form.capturedFace w) ∧
        Form.isSubmitting w = false ∧ Form.isSubmitting w' = true ∧
        Form.isCapturingFace w' = Form.isCapturingFace w)))).
Proof.
  cbv zeta.
  destruct e as [f value|picture| | |id res| | |cb]; cbn [Form.step].
  - destruct (Form.mounted w) eqn:Hm; [ | form_same].
    unfold Form.handleChange, Form.setFormData. rewrite Hm. cbn. form_same.
  - destruct (Form.mounted w) eqn:Hm; [ | cbn; form_same].
    destruct (Form.isCapturingFace w) eqn:Hc; [cbn; form_same | ].
    cbn [andb negb]. unfold Form.captureFace, Form.setIsCapturingFace.
    rewrite Hm. cbn.
    destruct (Form.videoRef w) as [v|].
    + split; [intros; congruence | ]. right; right. eexists. cbn.
      split; [reflexivity | split; [reflexivity | split; [reflexivity | ]]].
      left. cbn. auto.
    + unfold Form.setErrors, Form.setIsCapturingFace, Form.mounted in *. cbn.
      rewrite Hm. cbn. rewrite Hm. cbn. form_same.
  - destruct (Form.mounted w) eqn:Hm; [ | cbn; form_same].
    destruct (Form.truthy (Form.capturedFace w)); [ | cbn; form_same].
    cbn [andb]. unfold Form.setCapturedFace. rewrite Hm. cbn. form_same.
  - destruct (Form.mounted w) eqn:Hm; [ | cbn; form_same].
    destruct (Form.submitDisabled w) eqn:Hd; [cbn; form_same | ].
    cbn [andb negb]. unfold Form.submitDisabled in Hd.
    apply orb_false_iff in Hd as [Hs Hf].
    pose proof (validateForm_accepts w Hm) as Hacc.
    unfold Form.handleSubmit.
    destruct (Form.validateForm w) as [ok w1] eqn:Ev. cbn [fst] in Hacc.
    assert (Hw1 : w1 = Form.with_errors
                         (Form.newErrors (Form.formData w) (Form.capturedFace w)) w).
    { unfold Form.validateForm, Form.setErrors in Ev. rewrite Hm in Ev.
      injection Ev as _ <-. reflexivity. }
    destruct ok; cbn [negb].
    + split; [intros; congruence | ]. right; right. eexists.
      unfold Form.setIsSubmitting, Form.mounted. rewrite Hw1. cbn.
      unfold Form.mounted in Hm. rewrite Hm. cbn.
      split; [reflexivity | split; [reflexivity | split; [reflexivity | ]]].
      right. split; [reflexivity | ]. split; [apply Hacc; reflexivity | auto].
    + rewrite Hw1. cbn. form_same.
  - unfold Form.settle.
    destruct (Form.inflight w !! id) as [req|] eqn:Hreq; [ | form_same].
    set (w0 := Form.with_http (delete id (Form.inflight w)) (Form.calls w) w).
    assert (Hsh : Form.shell w0 = Form.shell w) by reflexivity.
    assert (Hm0 : Form.mounted w0 = Form.mounted w) by reflexivity.
    assert (H0 : Form.calls w0 = Form.calls w ∧
                 Form.inflight w0 = delete id (Form.inflight w) ∧
                 Form.isSubmitting w0 = Form.isSubmitting w ∧
                 Form.isCapturingFace w0 = Form.isCapturingFace w)
      by (repeat split).
    destruct H0 as (C0 & I0 & S0 & K0).
    assert (Hbody : ∃ w1,
      Form.settled req res w0 =
        match req with
        | Form.CaptureFace _ _ => Form.setIsCapturingFace false w1
        | Form.Register _ _ => Form.setIsSubmitting false w1
        end ∧
      Form.calls w1 = Form.calls w0 ∧ Form.inflight w1 = Form.inflight w0 ∧
      Form.isSubmitting w1 = Form.isSubmitting w0 ∧
      Form.isCapturingFace w1 = Form.isCapturingFace w0 ∧
      (Form.mounted w1 = true → Form.mounted w0 = true)).
    { destruct req as [img errs | form face]; cbn [Form.settled].
      - eexists. split; [reflexivity | ].
        destruct res as [data|]; [destruct (Form.Data.success data) | ].
        + destruct (form_setter_frame w0) as (_ & F2 & _).
          destruct (F2 (Form.Data.face_image data)) as (P1 & P2 & P3 & P4 & P5).
          destruct (form_setter_frame
                      (Form.setCapturedFace (Form.Data.face_image data) w0))
            as (F1 & _).
          destruct (F1 (<["face" := None]> errs)) as (Q1 & Q2 & Q3 & Q4 & Q5).
          repeat split; intros; congruence.
        + destruct (form_setter_frame w0) as (F1 & _).
          destruct (F1 (<["face" := Form.Data.message data]> errs))
            as (Q1 & Q2 & Q3 & Q4 & Q5).
          repeat split; intros; congruence.
        + destruct (form_setter_frame w0) as (F1 & _).
          destruct (F1 (<["face" := Some Form.captureFailed]> errs))
            as (Q1 & Q2 & Q3 & Q4 & Q5).
          repeat split; intros; congruence.
      - eexists. split; [reflexivity | ].
        destruct res as [data|]; [destruct (Form.Data.success data) | ].
        + destruct (form_dispatch_effect
                      (App.OnRegistrationComplete (Form.Data.user data)) w0)
            as (D1 & D2 & D3 & D4 & D5 & _). auto.
        + destruct (form_setter_frame w0) as (F1 & _).
          destruct (F1 {["submit" := Form.Data.message data]}) as (? & ? & ? & ? & ?).
          repeat split; intros; congruence.
        + destruct (form_setter_frame w0) as (F1 & _).
          destruct (F1 {["submit" := Some Form.registrationFailed]})
            as (? & ? & ? & ? & ?).
          repeat split; intros; congruence. }
    destruct Hbody as (w1 & -> & C1 & I1 & S1 & K1 & M1).
    destruct (form_setter_frame w1) as (_ & _ & FS & FK).
    destruct req as [img errs | form face].
    + destruct (FK false) as (A1 & A2 & A3 & A4 & A5).
      split; [intros H; rewrite A4 in H; apply M1 in H; congruence | ].
      right; left. exists id, (Form.CaptureFace img errs).
      split; [exact Hreq | split; [congruence | split; [congruence | ]]].
      intros Hm'. split; [intros []| intros _].
      split; [apply A5; congruence | congruence].
    + destruct (FS false) as (A1 & A2 & A3 & A4 & A5).
      split; [intros H; rewrite A4 in H; apply M1 in H; congruence | ].
      right; left. exists id, (Form.Register form face).
      split; [exact Hreq | split; [congruence | split; [congruence | ]]].
      intros Hm'. split; [intros _| intros []].
      split; [apply A5; congruence | congruence].
  - destruct (Form.mounted w) eqn:Hm; [ | cbn; form_same].
    destruct (form_dispatch_effect App.OnBack w) as (D1 & D2 & D3 & D4 & D5 & _).
    split; [intros H; apply D5 in H; congruence | left; auto].
  - destruct (Form.mounted w) eqn:Hm; [ | cbn; form_same].
    destruct (form_dispatch_effect App.OnGuestAccess w) as (D1 & D2 & D3 & D4 & D5 & _).
    split; [intros H; apply D5 in H; congruence | left; auto].
  - destruct (form_dispatch_effect cb w) as (D1 & D2 & D3 & D4 & D5 & _).
    split; [exact D5 | left; auto].
Qed.

Lemma form_step_pendingIssued (e : Form.Event) (w : Form.World) :
  Form.pendingIssued w → Form.pendingIssued (Form.step e w).
Proof.
  intros Hp id req Hreq.
  destruct (form_step_effect e w) as [_ Heff].
  destruct Heff as [(Ec & Ef & _)|[(id' & req' & _ & Ec & Ef & _)|(req' & Ec & Ef & _)]];
    rewrite Ef in Hreq; rewrite Ec.
  - eauto.
  - apply lookup_delete_Some in Hreq as [_ Hreq]. eauto.
  - rewrite length_app. cbn.
    destruct (decide (length (Form.calls w) = id)) as [<- | Hne]; [lia | ].
    rewrite lookup_insert_ne in Hreq by exact Hne.
    specialize (Hp _ _ Hreq). lia.
Qed.

Lemma form_step_singleFlight (e : Form.Event) (w : Form.World) :
  Form.pendingIssued w → Form.singleFlight w → Form.singleFlight (Form.step e w).
Proof.
  intros Hp (Hr & Hc & Hs & Hk).
  destruct (form_step_effect e w) as [Hmono Heff].
  set (w' := Form.step e w) in *.
  destruct Heff as [(Ec & Ef & Hfl)|[(id & req & Hreq & Ec & Ef & Hfl)|(req & Ec & Ef & Hm & Hkind)]].
  - (* nothing issued, nothing settled *)
    unfold Form.singleFlight. rewrite Ef.
    split; [exact Hr | split; [exact Hc | split]].
    + intros Hm' Hsub. destruct (Hfl Hm') as [E1 _].
      apply Hs; [auto | congruence].
    + intros Hm' Hcap. destruct (Hfl Hm') as [_ E2].
      apply Hk; [auto | congruence].
  - (* one call settled *)
    unfold Form.singleFlight. rewrite Ef.
    split; [ | split; [ | split]].
    + intros i j ri rj Hi Hj.
      apply lookup_delete_Some in Hi as [_ Hi].
      apply lookup_delete_Some in Hj as [_ Hj]. eauto.
    + intros i j ri rj Hi Hj.
      apply lookup_delete_Some in Hi as [_ Hi].
      apply lookup_delete_Some in Hj as [_ Hj]. eauto.
    + intros Hm' Hsub i r Hi Hreg.
      apply lookup_delete_Some in Hi as [Hne Hi].
      destruct (Hfl Hm') as [Freg Fcap].
      destruct req as [img errs | form face].
      * destruct (Fcap I) as [_ E]. apply (Hs (Hmono Hm')) with i r; congruence.
      * apply Hne. apply (Hr id i _ r Hreq Hi I Hreg).
    + intros Hm' Hcap i r Hi Hcapt.
      apply lookup_delete_Some in Hi as [Hne Hi].
      destruct (Hfl Hm') as [Freg Fcap].
      destruct req as [img errs | form face].
      * apply Hne. apply (Hc id i _ r Hreq Hi I Hcapt).
      * destruct (Freg I) as [_ E]. apply (Hk (Hmono Hm')) with i r; congruence.
  - (* one call issued *)
    assert (Hfresh : Form.inflight w !! length (Form.calls w) = None).
    { destruct (Form.inflight w !! length (Form.calls w)) as [r|] eqn:E;
        [ | reflexivity].
      specialize (Hp _ _ E). lia. }
    assert (Hins : ∀ i r, Form.inflight w' !! i = Some r →
                          (i = length (Form.calls w) ∧ r = req) ∨
                          (i ≠ length (Form.calls w) ∧ Form.inflight w !! i = Some r)).
    { intros i r. rewrite Ef.
      destruct (decide (length (Form.calls w) = i)) as [<- | Hne].
      - rewrite lookup_insert_eq. intros [= <-]. auto.
      - rewrite lookup_insert_ne by exact Hne. auto. }
    destruct Hkind as [(Hcapt & K0 & K1 & S1) | (-> & _ & S0 & S1 & K1)].
    + (* a capture *)
      assert (Hnone : ∀ i r, Form.inflight w !! i = Some r → ¬ Form.isCapture r)
        by (apply Hk; assumption).
      split; [ | split; [ | split]].
      * intros i j ri rj Hi Hj Ri Rj.
        destruct (Hins _ _ Hi) as [[-> ->] | [_ Hi']];
          destruct (Hins _ _ Hj) as [[-> ->] | [_ Hj']]; try reflexivity.
        -- destruct req; contradiction.
        -- destruct req; contradiction.
        -- eauto.
      * intros i j ri rj Hi Hj Ri Rj.
        destruct (Hins _ _ Hi) as [[-> ->] | [_ Hi']];
          destruct (Hins _ _ Hj) as [[-> ->] | [_ Hj']]; try reflexivity.
        -- exfalso. exact (Hnone _ _ Hj' Rj).
        -- exfalso. exact (Hnone _ _ Hi' Ri).
        -- eauto.
      * intros Hm' Hsub i r Hi Hreg.
        destruct (Hins _ _ Hi) as [[-> ->] | [_ Hi']].
        -- destruct req; contradiction.
        -- apply (Hs Hm) with i r; congruence.
      * intros _ Hcap. congruence.
    + (* a registration *)
      assert (Hnone : ∀ i r, Form.inflight w !! i = Some r → ¬ Form.isRegister r)
        by (apply Hs; assumption).
      split; [ | split; [ | split]].
      * intros i j ri rj Hi Hj Ri Rj.
        destruct (Hins _ _ Hi) as [[-> ->] | [_ Hi']];
          destruct (Hins _ _ Hj) as [[-> ->] | [_ Hj']]; try reflexivity.
        -- exfalso. exact (Hnone _ _ Hj' Rj).
        -- exfalso. exact (Hnone _ _ Hi' Ri).
        -- eauto.
      * intros i j ri rj Hi Hj Ri Rj.
        destruct (Hins _ _ Hi) as [[-> ->] | [_ Hi']];
          destruct (Hins _ _ Hj) as [[-> ->] | [_ Hj']]; try reflexivity;
          try contradiction.
        eauto.
      * intros _ Hsub. congruence.
      * intros Hm' Hcap i r Hi Hcapt.
        destruct (Hins _ _ Hi) as [[-> ->] | [_ Hi']]; [contradiction | ].
        apply (Hk Hm) with i r; congruence.
Qed.

Lemma form_mount_start (dev : Camera.GumResult) (a : App.State) :
  Form.inflight (Form.mount dev a) = ∅ ∧ Form.calls (Form.mount dev a) = [] ∧
  Form.mounted (Form.mount dev a) = true.
Proof.
  unfold Form.mount, Form.initializeCamera. destruct dev as [stream|]; cbn; auto.
Qed.

(** X3. Registration and face capture are single-flight. In every world the
    mounted form reaches, at most one registration call and at most one
    capture call are pending, and none is pending while its flag
    ([isSubmitting], [isCapturingFace]) is unset: the buttons are disabled
    from the state of the current render. *)
Theorem form_calls_are_single_flight
    (dev : Camera.GumResult) (a : App.State) (es : list Form.Event) :
  Form.singleFlight (Form.run es (Form.mount dev a)).
Proof.
  destruct (form_mount_start dev a) as (Hi & Hc & _).
  assert (Hp0 : Form.pendingIssued (Form.mount dev a)).
  { intros id req. rewrite Hi, lookup_empty. discriminate. }
  assert (Hs0 : Form.singleFlight (Form.mount dev a)).
  { unfold Form.singleFlight. rewrite Hi.
    repeat split; intros; rewrite lookup_empty in *; discriminate. }
  revert Hp0 Hs0. generalize (Form.mount dev a) as w.
  induction es as [|e es IH]; intros w Hp Hs; cbn; [exact Hs | ].
  apply IH; [apply form_step_pendingIssued, Hp | apply form_step_singleFlight; assumption].
Qed.

(** X4. No registration is sent for a form that [validateForm] would
    reject: in every world the mounted form reaches, each registration call
    ever issued carries a name that is not blank, an email with a part of
    the shape x@y.z, a password of six code units or more equal to its
    confirmation, and a captured face. *)
Theorem registration_calls_carry_valid_forms
    (dev : Camera.GumResult) (a : App.State) (es : list Form.Event)
    (form : Form.FormData) (face : option string) :
  Form.Register form face ∈ Form.calls (Form.run es (Form.mount dev a)) →
  Form.acceptable form face.
Proof.
  destruct (form_mount_start dev a) as (_ & Hc & _).
  assert (H0 : ∀ f g, Form.Register f g ∈ Form.calls (Form.mount dev a) →
                      Form.acceptable f g).
  { intros f g. rewrite Hc. intros H. inversion H. }
  revert form face. revert H0. generalize (Form.mount dev a) as w.
  induction es as [|e es IH]; intros w Hw form face; cbn; [apply Hw | ].
  apply IH. intros f g.
  destruct (form_step_effect e w) as [_ Heff].
  destruct Heff as [(Ec & _)|[(id & req & _ & Ec & _)|(req & Ec & _ & _ & Hkind)]];
    rewrite Ec; try apply Hw.
  rewrite elem_of_app, list_elem_of_singleton.
  intros [H | Hreq]; [apply Hw, H | ]. subst req.
  destruct Hkind as [(Hcapt & _) | (Heq & Hacc & _)].
  - contradiction.
  - injection Heq as -> ->. exact Hacc.
Qed.

(** X5. The answer to a registration call, in a form that is still on the
    screen. With [success] set the controller stores the user of the answer
    and shows the main view. Otherwise, and when the call fails, the
    controller is untouched, the form stays mounted with its data, the error
    object is replaced by the single entry submit, holding the answer's
    message or the fixed failure text, and [isSubmitting] is reset. *)
Theorem registration_answer_is_applied
    (w : Form.World) (id : nat) (form : Form.FormData) (face : option string)
    (res : HttpResult Form.Data.t) :
  Form.mounted w = true →
  Form.inflight w !! id = Some (Form.Register form face) →
  let w' := Form.settle id res w in
  let stays (m : option string) :=
    Form.shell w' = Form.shell w ∧
    Form.formData w' = Form.formData w ∧
    Form.errors w' = {["submit" := m]} ∧
    Form.isSubmitting w' = false in
  match res with
  | Resolved data =>
      if Form.Data.success data then
        Shell.app (Form.shell w') =
          App.handleRegistrationComplete (Form.Data.user data)
            (Shell.app (Form.shell w)) ∧
        App.currentView (Shell.app (Form.shell w')) = "main" ∧
        App.user (Shell.app (Form.shell w')) = Form.Data.user data
      else stays (Form.Data.message data)
  | Rejected => stays (Some Form.registrationFailed)
  end.
Proof.
  intros Hm Hreq. cbv zeta. unfold Form.settle. rewrite Hreq.
  destruct w as [[a ch mt sr lv] fd er sub cf cap v inf cs].
  cbn in Hm. subst mt.
  destruct res as [data|]; [destruct (Form.Data.success data) eqn:Hs | ].
  - unfold Form.settled. rewrite Hs.
    match goal with
    | |- context [Form.setIsSubmitting false ?x] =>
        assert (Hshell : Form.shell (Form.setIsSubmitting false x) = Form.shell x)
          by (unfold Form.setIsSubmitting; destruct (Form.mounted x); reflexivity);
        rewrite Hshell
    end.
    match goal with
    | |- context [Form.dispatch ?cb ?x] =>
        destruct (form_dispatch_effect cb x) as (_ & _ & _ & _ & _ & D6);
        rewrite D6
    end.
    cbn. auto.
  - unfold Form.settled. rewrite Hs. form_unfold. auto.
  - form_unfold. auto.
Qed.

(** ** The controller over sequences of callbacks *)

Lemma renderView_main (s : App.State) :
  App.renderView s = App.MainPage ↔ App.currentView s = "main".
Proof.
  unfold App.renderView. cbv zeta.
  repeat (case_view; [split; intros; congruence | idtac]).
  split; intros; congruence.
Qed.

Lemma renderView_guest (s : App.State) :
  App.renderView s = App.GuestPage ↔ App.currentView s = "guest".
Proof.
  unfold App.renderView. cbv zeta.
  repeat (case_view; [split; intros; congruence | idtac]).
  split; intros; congruence.
Qed.

Lemma call_keeps_view_recognised (cb : App.Callback) (s : App.State) :
  App.currentView s ∈ App.recognisedViews →
  App.currentView (App.call cb s) ∈ App.recognisedViews.
Proof.
  intros Hs. unfold App.recognisedViews.
  destruct cb; cbn; try destruct (App.user s); cbn; try exact Hs;
    rewrite !elem_of_cons;
    repeat (first [left; reflexivity | right]).
Qed.

(** X6. Whatever callbacks are called, in whatever order, the current view
    is always one of the six names [renderView] has a case for: its default
    branch is never taken. *)
Theorem current_view_is_always_recognised (cbs : list App.Callback) :
  App.currentView (Flow.run cbs App.initial) ∈ App.recognisedViews.
Proof.
  assert (H0 : App.currentView App.initial ∈ App.recognisedViews)
    by apply list_elem_of_here.
  revert H0. generalize App.initial as s.
  induction cbs as [|cb cbs IH]; intros s Hs; cbn; [exact Hs | ].
  apply IH, call_keeps_view_recognised, Hs.
Qed.

Lemma call_keeps_user_for_pages (cb : App.Callback) (s : App.State) :
  Flow.carriesUser cb →
  (Flow.showsUser s → App.user s ≠ None) →
  Flow.showsUser (App.call cb s) → App.user (App.call cb s) ≠ None.
Proof.
  unfold Flow.showsUser. rewrite !renderView_main, !renderView_guest.
  intros Hcb Hs.
  destruct cb as [[u|]| | | |[u|]| | | | | ]; cbn in *;
    try destruct (App.user s) eqn:Hu; cbn;
    try contradiction; try discriminate;
    try (intros [H | H]; discriminate).
  - rewrite Hu. exact Hs.
Qed.

(** X7. The main page and the guest page read the name and the email of
    the stored user. As long as every login and registration callback hands
    over a user record, neither page is ever shown while no user is stored,
    whatever callbacks are called, in whatever order. *)
Theorem user_pages_always_have_a_user (cbs : list App.Callback) :
  Forall Flow.carriesUser cbs →
  Flow.showsUser (Flow.run cbs App.initial) →
  App.user (Flow.run cbs App.initial) ≠ None.
Proof.
  assert (H0 : Flow.showsUser App.initial → App.user App.initial ≠ None).
  { unfold Flow.showsUser. cbn. intros [H | H]; discriminate. }
  revert H0. generalize App.initial as s.
  induction cbs as [|cb cbs IH]; intros s Hs Hall; cbn; [exact Hs | ].
  apply Forall_cons in Hall as [Hcb Hall].
  apply IH; [ | exact Hall].
  apply call_keeps_user_for_pages; assumption.
Qed.

Lemma call_keeps_user (cb : App.Callback) (s : App.State) :
  Flow.carriesUser cb → App.user s ≠ None → App.user (App.call cb s) ≠ None.
Proof.
  intros Hcb Hs.
  destruct cb as [[u|]| | | |[u|]| | | | | ]; cbn in *;
    try destruct (App.user s) eqn:Hu; cbn;
    try contradiction; try discriminate; congruence.
Qed.

(** X8. A stored user is never forgotten: as long as every login and
    registration callback hands over a user record, no sequence of
    callbacks, logout and restart included, brings [user] back to null. *)
Theorem stored_user_is_never_cleared (cbs : list App.Callback) (s : App.State) :
  Forall Flow.carriesUser cbs →
  App.user s ≠ None →
  App.user (Flow.run cbs s) ≠ None.
Proof.
  revert s. induction cbs as [|cb cbs IH]; intros s Hall Hs; cbn; [exact Hs | ].
  apply Forall_cons in Hall as [Hcb Hall].
  apply IH; [exact Hall | ]. apply call_keeps_user; assumption.
Qed.

(** ** Releasing the camera *)

(** X9. The effect cleanup stops exactly the running tracks of the stream in
    [streamRef]: afterwards a track runs if and only if it ran before and
    does not belong to that stream. Running it a second time changes
    nothing. *)
Theorem cleanup_stops_held_tracks_once (s : Shell.State) :
  (∀ t, t ∈ Shell.live (Shell.cleanup s) ↔
        t ∈ Shell.live s ∧ ∀ st, Shell.streamRef s = Some st → t ∉ st) ∧
  Shell.cleanup (Shell.cleanup s) = Shell.cleanup s ∧
  Shell.unmount (Shell.unmount s) = Shell.unmount s.
Proof.
  destruct s as [a ch mt [st|] lv]; cbn.
  - assert (Htwice : lv ∖ list_to_set st ∖ list_to_set st
                     = lv ∖ (list_to_set st : gset nat)).
    { apply set_eq. intros x. rewrite !elem_of_difference. tauto. }
    split; [ | split].
    + intros t. rewrite elem_of_difference, elem_of_list_to_set. split.
      * intros [Hl Hn]. split; [exact Hl | ]. intros st' [= <-]. exact Hn.
      * intros [Hl Hn]. split; [exact Hl | ]. apply Hn. reflexivity.
    + unfold Shell.cleanup, Shell.stopTracks, Shell.setLive. cbn.
      rewrite Htwice. reflexivity.
    + unfold Shell.unmount, Shell.cleanup, Shell.stopTracks, Shell.setLive,
        Shell.setMounted. cbn. rewrite Htwice. reflexivity.
  - split; [ | split; reflexivity].
    intros t. split; [ | tauto]. intros H. split; [exact H | discriminate].
Qed.

(** ** Examples for the form and the controller *)

Lemma validateForm_accepts_exactly_witness :
  (Form.validateForm Sample.readyToSubmit).1 = true ∧
  Form.acceptable (Form.formData Sample.readyToSubmit)
    (Form.capturedFace Sample.readyToSubmit).
Proof.
  assert (Hm : Form.mounted Sample.readyToSubmit = true) by reflexivity.
  destruct (validateForm_accepts_exactly Sample.readyToSubmit Hm) as [Hacc _].
  assert (Hok : (Form.validateForm Sample.readyToSubmit).1 = true)
    by (vm_compute; reflexivity).
  split; [exact Hok | exact (proj1 Hacc Hok)].
Defined.

Lemma registration_calls_carry_valid_forms_witness :
  Form.acceptable Sample.filled (Some "data:image/jpeg;base64,AAAA").
Proof.
  apply (registration_calls_carry_valid_forms (Camera.GumResolved (Some [0]))
           {| App.currentView := "register"; App.user := None |}
           Sample.submission Sample.filled (Some "data:image/jpeg;base64,AAAA")).
  vm_compute. apply list_elem_of_further, list_elem_of_here.
Defined.

Lemma registration_answer_is_applied_witness :
  App.currentView
    (Shell.app (Form.shell (Form.settle 1 (Resolved Sample.registered) Sample.submitted)))
    = "main" ∧
  App.user
    (Shell.app (Form.shell (Form.settle 1 (Resolved Sample.registered) Sample.submitted)))
    = Some Scenario.alice ∧
  Form.errors (Form.settle 1 (Resolved Sample.refused) Sample.submitted)
    = {["submit" := Some "Email already registered"]}.
Proof.
  assert (Hm : Form.mounted Sample.submitted = true) by reflexivity.
  assert (Hreq : Form.inflight Sample.submitted !! 1
                 = Some (Form.Register Sample.filled
                           (Some "data:image/jpeg;base64,AAAA")))
    by (vm_compute; reflexivity).
  pose proof (registration_answer_is_applied Sample.submitted 1 _ _
                (Resolved Sample.registered) Hm Hreq) as Hyes.
  pose proof (registration_answer_is_applied Sample.submitted 1 _ _
                (Resolved Sample.refused) Hm Hreq) as Hno.
  cbv zeta in Hyes, Hno. cbn [Form.Data.success Sample.registered Sample.refused]
    in Hyes, Hno.
  destruct Hyes as (_ & Hview & Huser). destruct Hno as (_ & _ & Herr & _).
  split; [exact Hview | split; [exact Huser | exact Herr]].
Defined.

Lemma user_pages_always_have_a_user_witness :
  App.currentView (Flow.run Sample.visit App.initial) = "guest" ∧
  App.user (Flow.run Sample.visit App.initial) ≠ None.
Proof.
  split; [reflexivity | ].
  apply user_pages_always_have_a_user.
  - repeat constructor.
  - right. reflexivity.
Defined.

Lemma stored_user_is_never_cleared_witness :
  App.user
    (Flow.run [App.OnLogout; App.NavRestart; App.NavMainApp]
       (App.handleLoginSuccess (Some Scenario.alice) App.initial)) ≠ None.
Proof.
  apply stored_user_is_never_cleared.
  - repeat constructor.
  - discriminate.
Defined.

(** A success answer without a user brings up the main page with no user
    stored. *)
Lemma login_without_user_shows_main_page_without_user :
  let s := Flow.run [App.OnLoginSuccess None] App.initial in
  App.renderView s = App.MainPage ∧ App.user s = None.
Proof. split; reflexivity. Qed.

(** ** The camera view: what its calls carry, and the unmounted view *)

(** The call a step issues, if any, is that of a registered interval and
    carries the quality its closure captured. *)
Lemma step_calls_shape (dev : Camera.Device) (e : Camera.Event) (w : Camera.World) :
  Camera.calls (Camera.step dev e w) = Camera.calls w ∨
  ∃ h r imageData,
    Camera.intervals w !! h = Some r ∧
    Camera.calls (Camera.step dev e w) =
      Camera.calls w ++ [{| Camera.image := imageData;
                            Camera.quality := Camera.r_cameraQuality r;
                            Camera.timestamp := Camera.now w;
                            Camera.owner := h |}].
Proof.
  destruct e as [vw vh|h picture|id res| |cb|dt]; cbn [Camera.step].
  - left. apply (loadedmetadata_timers vw vh w).
  - unfold Camera.tick.
    destruct (Camera.intervals w !! h) as [r|] eqn:Eh; [ | auto].
    unfold Camera.intervalCallback.
    destruct (Camera.r_isProcessing r); [auto | ].
    destruct (Camera.captureFrame picture w) as [img|]; [ | auto].
    right. exists h, r, img. split; [exact Eh | ].
    unfold Camera.setIsProcessing. destruct (Camera.mounted w); reflexivity.
  - left. unfold Camera.settle.
    destruct (Camera.inflight w !! id) as [req|]; [ | reflexivity].
    apply (settled_timers req res
             (Camera.with_http (delete id (Camera.inflight w)) (Camera.calls w) w)).
  - left. destruct (Camera.mounted w); [ | reflexivity].
    apply (retry_timers dev w).
  - left. apply (dispatch_timers cb w).
  - left. reflexivity.
Qed.

(** X10. The quality a call reports is the one the first render bound, not
    the one the camera was acquired at: every call the mounted view issues
    on its own is tagged high, also when the stream was obtained at medium
    or default quality. *)
Theorem calls_always_report_high_quality
    (dev : Camera.Device) (a : App.State) (es : list Camera.Event)
    (req : Camera.Request) :
  Camera.ClickEnhance ∉ es →
  req ∈ Camera.calls (Camera.run dev es (Camera.mount dev a)) →
  Camera.quality req = "high".
Proof.
  intros Hes.
  assert (Hc0 : ∀ r, r ∈ Camera.calls (Camera.mount dev a) → Camera.quality r = "high").
  { intros r. unfold Camera.mount, Camera.initializeCamera.
    destruct (initializeCameraWith_timers Camera.qualities Camera.firstRender dev
                (Camera.fresh a)) as (_ & _ & _ & T4).
    rewrite T4. cbn. intros H. inversion H. }
  revert req. revert Hc0 Hes.
  generalize (mount_firstRenderOnly dev a). generalize (Camera.mount dev a) as w.
  induction es as [|e es IH]; intros w Hf Hc Hes req; cbn; [apply Hc | ].
  apply not_elem_of_cons in Hes as [He Hes].
  apply IH; [apply step_firstRenderOnly; [congruence | exact Hf] | | exact Hes].
  intros r.
  destruct (step_calls_shape dev e w) as [-> | (h & cl & img & Hh & ->)];
    [apply Hc | ].
  rewrite elem_of_app, list_elem_of_singleton. intros [H | ->]; [apply Hc, H | ].
  cbn. destruct Hf as [Hi _]. rewrite (Hi h cl Hh). reflexivity.
Qed.

Lemma calls_always_report_high_quality_witness :
  Camera.cameraQuality Sample.pollingAtMedium = "medium" ∧
  length (Camera.calls Sample.pollingAtMedium) = 1 ∧
  Forall (λ req, Camera.quality req = "high") (Camera.calls Sample.pollingAtMedium).
Proof.
  split; [vm_compute; reflexivity | split; [vm_compute; reflexivity | ]].
  apply Forall_forall. intros req.
  apply (calls_always_report_high_quality Scenario.reluctant App.initial
           [Camera.LoadedMetadata 1280 720; Camera.Tick 0 "frame 1"]).
  intros H. apply elem_of_cons in H as [H | H]; [discriminate | ].
  apply elem_of_cons in H as [H | H]; [discriminate | ].
  inversion H.
Defined.

(** Once the view is off the screen, with its refs reset, it stays so and
    issues nothing. *)
Lemma step_unmounted (dev : Camera.Device) (e : Camera.Event) (w : Camera.World) :
  Camera.mounted w = false → Camera.videoRef w = None →
  Camera.mounted (Camera.step dev e w) = false ∧
  Camera.videoRef (Camera.step dev e w) = None ∧
  Camera.calls (Camera.step dev e w) = Camera.calls w.
Proof.
  intros Hm Hv.
  destruct w as [[a ch mt sr lv] m p q v n g i nh f c].
  cbn in Hm, Hv. subst mt v.
  destruct e as [vw vh|h picture|id res| |cb|dt]; cbn [Camera.step].
  - cbn. auto.
  - unfold Camera.tick, Camera.intervalCallback, Camera.captureFrame. cbn.
    destruct (i !! h) as [r|]; [destruct (Camera.r_isProcessing r) | ]; cbn; auto.
  - unfold Camera.settle. cbn.
    destruct (f !! id) as [req|]; [ | cbn; auto].
    destruct res as [data|];
      [destruct (Camera.Data.success data) eqn:Hs;
       [ | destruct (bool_decide (Camera.Data.action data = Some "register_prompt")) eqn:Ha] | ];
      unfold Camera.settled; rewrite ?Hs, ?Ha; cbn; auto.
  - cbn. auto.
  - cbn. auto.
  - cbn. auto.
Qed.

(** X11. Leaving the camera view does not clear its interval, yet ends its
    calls: when a callback takes the view off the screen, every interval
    stays registered, and whatever happens afterwards no further call is
    issued, because the video element is gone. *)
Theorem unmounted_view_issues_no_call
    (dev : Camera.Device) (cb : App.Callback) (w : Camera.World)
    (es : list Camera.Event) :
  Camera.mounted w = true →
  Camera.mounted (Camera.dispatch cb w) = false →
  Camera.intervals (Camera.dispatch cb w) = Camera.intervals w ∧
  Camera.calls (Camera.run dev es (Camera.dispatch cb w)) = Camera.calls w.
Proof.
  intros Hm Hm'.
  destruct (dispatch_timers cb w) as (T1 & _ & _ & T4 & _).
  split; [exact T1 | ]. rewrite <- T4.
  assert (Hv : Camera.videoRef (Camera.dispatch cb w) = None).
  { revert Hm'. unfold Camera.dispatch, Camera.mounted in *. cbv zeta.
    rewrite Hm.
    destruct (Shell.mounted (Shell.dispatch cb (Camera.shell w))) eqn:E; cbn;
      [rewrite E; discriminate | reflexivity]. }
  revert Hm' Hv. generalize (Camera.dispatch cb w) as w0.
  induction es as [|e es IH]; intros w0 Hm0 Hv0; cbn; [reflexivity | ].
  destruct (step_unmounted dev e w0 Hm0 Hv0) as (S1 & S2 & S3).
  rewrite <- S3. apply IH; assumption.
Qed.

Lemma unmounted_view_issues_no_call_witness :
  Camera.intervals (Camera.dispatch App.NavTestHeadDetection Scenario.polling)
    = Camera.intervals Scenario.polling ∧
  Camera.calls
    (Camera.run Scenario.willing [Camera.Tick 0 "frame 1"; Camera.Tick 0 "frame 2"]
       (Camera.dispatch App.NavTestHeadDetection Scenario.polling))
    = Camera.calls Scenario.polling.
Proof.
  apply unmounted_view_issues_no_call; reflexivity.
Defined.

(** ** The camera view: the Enhance Quality button *)

Lemma acquire_all_fail_shell (dev : Camera.Device) (qs : list string) :
  ∀ (w : Camera.World),
    (∀ i q', qs !! i = Some q' →
       Camera.refuses dev (length (Camera.gumCalls w) + i) q') →
    Camera.shell (Camera.acquire dev qs w).2 = Camera.shell w.
Proof.
  induction qs as [|p qs IH]; intros w Hall; cbn [Camera.acquire]; [reflexivity | ].
  assert (Hp : Camera.refuses dev (length (Camera.gumCalls w)) p).
  { specialize (Hall 0 p eq_refl). rewrite Nat.add_0_r in Hall. exact Hall. }
  unfold Camera.getUserMedia. cbv zeta.
  set (w1 := Camera.with_gumCalls
               (Camera.gumCalls w ++ [Camera.getCameraConstraints p]) w).
  assert (Hrec : Camera.shell (Camera.acquire dev qs w1).2 = Camera.shell w).
  { rewrite IH; [reflexivity | ].
    intros i q' Hi. unfold w1. cbn. rewrite length_app. cbn.
    replace (length (Camera.gumCalls w) + 1 + i)
      with (length (Camera.gumCalls w) + S i) by lia.
    apply Hall. exact Hi. }
  destruct (dev (length (Camera.gumCalls w)) (Camera.getCameraConstraints p))
    as [[st|]|] eqn:Hdev.
  - exfalso. exact (Hp st Hdev).
  - exact Hrec.
  - exact Hrec.
Qed.

(** X12. Enhance Quality with a camera that no longer yields a stream: the
    tracks of the stream held so far are stopped, [streamRef] and the video
    element still refer to that stream, the failure message is the status,
    and every interval stays registered, so that polling goes on over the
    stopped stream. *)
Theorem enhance_with_refusing_camera_keeps_polling
    (dev : Camera.Device) (w : Camera.World) (st : Stream) :
  Camera.mounted w = true →
  Shell.streamRef (Camera.shell w) = Some st →
  (∀ i q, Camera.qualities !! i = Some q →
     Camera.refuses dev (length (Camera.gumCalls w) + i) q) →
  let w' := Camera.step dev Camera.ClickEnhance w in
  (∀ t, t ∈ st → t ∉ Shell.live (Camera.shell w')) ∧
  Shell.streamRef (Camera.shell w') = Some st ∧
  Camera.videoRef w' = Camera.videoRef w ∧
  Camera.message w' = Some Camera.cameraFailed ∧
  Camera.intervals w' = Camera.intervals w.
Proof.
  intros Hm Hst Hall. cbv zeta. cbn [Camera.step]. rewrite Hm.
  unfold Camera.retryWithBetterQuality, Camera.initializeCamera,
    Camera.initializeCameraWith. rewrite Hst.
  set (w1 := Camera.with_shell (Shell.stopTracks st (Camera.shell w)) w).
  set (w2 := Camera.setMessage
               (Some "🔄 Retrying with enhanced camera settings...") w1).
  set (w3 := Camera.setMessage
               (Some "🔄 Accessing camera with optimal settings...") w2).
  assert (Hm1 : Camera.mounted w1 = true) by exact Hm.
  destruct (setMessage_frame
              (Some "🔄 Retrying with enhanced camera settings...") w1)
    as (A1 & _ & A3 & A4 & A5 & _). fold w2 in A1, A3, A4, A5.
  destruct (setMessage_frame
              (Some "🔄 Accessing camera with optimal settings...") w2)
    as (B1 & _ & B3 & B4 & B5 & _). fold w3 in B1, B3, B4, B5.
  assert (Hlog : Camera.gumCalls w3 = Camera.gumCalls w)
    by (rewrite B4, A4; reflexivity).
  assert (Hall3 : ∀ i q, Camera.qualities !! i = Some q →
                         Camera.refuses dev (length (Camera.gumCalls w3) + i) q).
  { rewrite Hlog. exact Hall. }
  pose proof (acquire_all_fail dev Camera.qualities w3 Hall3) as Hacq.
  pose proof (acquire_all_fail_shell dev Camera.qualities w3 Hall3) as Hsh.
  pose proof (acquire_frame dev Camera.qualities w3) as Hf. cbv zeta in Hf.
  destruct (Camera.acquire dev Camera.qualities w3) as [stream w4].
  cbn in Hsh, Hf. destruct Hacq as (-> & _ & _).
  destruct Hf as (_ & F2 & F3 & _ & _ & _ & F7 & _).
  destruct (setMessage_frame (Some Camera.cameraFailed) w4)
    as (C1 & _ & C3 & _ & C5 & _ & C7).
  assert (Hshell : Camera.shell (Camera.setMessage (Some Camera.cameraFailed) w4)
                   = Shell.stopTracks st (Camera.shell w)).
  { rewrite C1, Hsh, B1, A1. reflexivity. }
  split; [ | split; [ | split; [ | split]]].
  - intros t Ht. rewrite Hshell. cbn.
    intros Hin. apply elem_of_difference in Hin as [_ Hn].
    apply Hn, elem_of_list_to_set, Ht.
  - rewrite Hshell. cbn. exact Hst.
  - rewrite C3, F2, B3, A3. reflexivity.
  - apply C7. rewrite F7. unfold Camera.mounted. rewrite B1, A1. exact Hm.
  - rewrite C5, F3, B5, A5. reflexivity.
Qed.

Lemma enhance_with_refusing_camera_keeps_polling_witness :
  let w' := Camera.step Sample.oneShot Camera.ClickEnhance Sample.pollingOneShot in
  (0 ∉ Shell.live (Camera.shell w')) ∧
  Camera.message w' = Some Camera.cameraFailed ∧
  Camera.intervals w' = Camera.intervals Sample.pollingOneShot.
Proof.
  assert (Hm : Camera.mounted Sample.pollingOneShot = true) by reflexivity.
  assert (Hst : Shell.streamRef (Camera.shell Sample.pollingOneShot) = Some [0])
    by reflexivity.
  assert (Hall : ∀ i q, Camera.qualities !! i = Some q →
            Camera.refuses Sample.oneShot
              (length (Camera.gumCalls Sample.pollingOneShot) + i) q).
  { intros i q _ st. discriminate. }
  destruct (enhance_with_refusing_camera_keeps_polling Sample.oneShot
              Sample.pollingOneShot [0] Hm Hst Hall) as (H1 & _ & _ & H4 & H5).
  split; [apply H1, list_elem_of_here | split; [exact H4 | exact H5]].
Defined.

Lemma acquire_now (dev : Camera.Device) (qs : list string) :
  ∀ w : Camera.World, Camera.now (Camera.acquire dev qs w).2 = Camera.now w.
Proof.
  induction qs as [|q qs IH]; intros w; cbn [Camera.acquire]; [reflexivity | ].
  unfold Camera.getUserMedia. cbv zeta.
  destruct (dev _ _) as [[s|]|]; cbn.
  - unfold Camera.setCameraQuality, Camera.mounted. cbn.
    destruct (Shell.mounted _); reflexivity.
  - rewrite IH. reflexivity.
  - rewrite IH. reflexivity.
Qed.

(** X13. Enhance Quality with a camera that grants the first request never
    replaces the running interval but adds one beside it once the video has
    loaded again. The new interval closes over the render of the click: if a
    call was pending then ([isProcessing] set), the new interval never
    submits; otherwise each of its ticks with a frame at hand submits, tagged
    with the quality shown at the click. *)
Theorem enhance_adds_a_second_interval
    (dev : Camera.Device) (w : Camera.World) (v : Camera.Video) (st : Stream)
    (vw vh : N) :
  Camera.mounted w = true →
  Camera.videoRef w = Some v →
  dev (length (Camera.gumCalls w)) (Camera.getCameraConstraints "high")
    = Camera.GumResolved (Some st) →
  let w' := Camera.run dev [Camera.ClickEnhance; Camera.LoadedMetadata vw vh] w in
  let h := Camera.nextHandle w in
  Camera.intervals w' = <[h := Camera.render w]> (Camera.intervals w) ∧
  Shell.streamRef (Camera.shell w') = Some st ∧
  (Camera.isProcessing w = true → ∀ picture, Camera.tick h picture w' = w') ∧
  (Camera.isProcessing w = false →
   ∀ picture imageData, Camera.captureFrame picture w' = Some imageData →
     Camera.calls (Camera.tick h picture w') =
       Camera.calls w ++ [{| Camera.image := imageData;
                             Camera.quality := Camera.cameraQuality w;
                             Camera.timestamp := Camera.now w;
                             Camera.owner := h |}]).
Proof.
  intros Hm Hv Hdev. cbv zeta. cbn [Camera.run foldl Camera.step]. rewrite Hm.
  unfold Camera.retryWithBetterQuality, Camera.initializeCamera,
    Camera.initializeCameraWith.
  set (w1 := match Shell.streamRef (Camera.shell w) with
             | Some st0 => Camera.with_shell (Shell.stopTracks st0 (Camera.shell w)) w
             | None => w
             end).
  assert (H1 : Camera.mounted w1 = true ∧ Camera.videoRef w1 = Camera.videoRef w ∧
               Camera.gumCalls w1 = Camera.gumCalls w ∧
               Camera.intervals w1 = Camera.intervals w ∧
               Camera.nextHandle w1 = Camera.nextHandle w ∧
               Camera.calls w1 = Camera.calls w ∧ Camera.now w1 = Camera.now w).
  { unfold w1. destruct (Shell.streamRef (Camera.shell w)); repeat split; exact Hm. }
  destruct H1 as (Hm1 & V1 & G1 & I1 & N1 & C1 & T1).
  set (w2 := Camera.setMessage
               (Some "🔄 Retrying with enhanced camera settings...") w1).
  set (w3 := Camera.setMessage
               (Some "🔄 Accessing camera with optimal settings...") w2).
  assert (H3 : w3 = Camera.with_message
                      (Some "🔄 Accessing camera with optimal settings...") w1).
  { unfold w3, w2, Camera.setMessage. rewrite Hm1.
    change (Camera.mounted (Camera.with_message
              (Some "🔄 Retrying with enhanced camera settings...") w1))
      with (Camera.mounted w1).
    rewrite Hm1. reflexivity. }
  assert (Hm3 : Camera.mounted w3 = true) by (rewrite H3; exact Hm1).
  assert (G3 : Camera.gumCalls w3 = Camera.gumCalls w) by (rewrite H3; exact G1).
  pose proof (acquire_first_success dev [] "high" ["medium"; "default"] st w3) as Hacq.
  pose proof (acquire_frame dev Camera.qualities w3) as Hf. cbv zeta in Hf.
  pose proof (acquire_now dev Camera.qualities w3) as Hnow.
  change ([] ++ "high" :: ["medium"; "default"]) with Camera.qualities in Hacq.
  destruct (Camera.acquire dev Camera.qualities w3) as [stream w4].
  cbn in Hf, Hnow.
  destruct Hacq as (-> & _ & _).
  { intros i q' Hi. destruct i; discriminate. }
  { rewrite G3, Nat.add_0_r. exact Hdev. }
  destruct Hf as (_ & F2 & F3 & F4 & _ & F6 & F7 & _).
  assert (V4 : Camera.videoRef w4 = Some v).
  { rewrite F2, H3. cbn. rewrite V1. exact Hv. }
  cbn. rewrite V4. cbn.
  unfold Camera.loadedmetadata. cbn.
  unfold Camera.startFaceValidation, Camera.setInterval, Camera.setMessage,
    Camera.mounted. cbn.
  assert (Hm4 : Shell.mounted (Camera.shell w4) = true).
  { unfold Camera.mounted in F7, Hm3. rewrite F7. exact Hm3. }
  rewrite Hm4. cbn.
  assert (I4 : Camera.intervals w4 = Camera.intervals w).
  { rewrite F3, H3. cbn. exact I1. }
  assert (N4 : Camera.nextHandle w4 = Camera.nextHandle w).
  { rewrite F4, H3. cbn. exact N1. }
  assert (C4 : Camera.calls w4 = Camera.calls w).
  { rewrite F6, H3. cbn. exact C1. }
  assert (T4 : Camera.now w4 = Camera.now w).
  { rewrite Hnow, H3. exact T1. }
  rewrite I4, N4.
  split; [reflexivity | split; [reflexivity | split]].
  - intros Hp picture. unfold Camera.tick. cbn. rewrite lookup_insert_eq.
    unfold Camera.intervalCallback. cbn. rewrite Hp. reflexivity.
  - intros Hp picture imageData Hframe. unfold Camera.tick. cbn.
    rewrite lookup_insert_eq. unfold Camera.intervalCallback. cbn. rewrite Hp.
    unfold Camera.captureFrame in *. cbn in *.
    destruct (vw =? 0)%N; [discriminate | ]. injection Hframe as <-.
    unfold Camera.setIsProcessing, Camera.mounted. cbn. rewrite Hm4. cbn.
    rewrite C4, T4. reflexivity.
Qed.

Lemma enhance_adds_a_second_interval_witness :
  let w' := Camera.run Scenario.willing
              [Camera.ClickEnhance; Camera.LoadedMetadata 640 480] Sample.busy in
  Camera.isProcessing Sample.busy = true ∧
  size (Camera.intervals w') = 2 ∧
  Camera.tick 1 "frame 2" w' = w'.
Proof.
  assert (Hm : Camera.mounted Sample.busy = true) by reflexivity.
  assert (Hv : Camera.videoRef Sample.busy
               = Some {| Camera.srcObject := Some [0]; Camera.videoWidth := 640;
                         Camera.videoHeight := 480;
                         Camera.onloadedmetadata := Some Camera.firstRender |})
    by reflexivity.
  assert (Hdev : Scenario.willing (length (Camera.gumCalls Sample.busy))
                   (Camera.getCameraConstraints "high")
                 = Camera.GumResolved (Some [0])) by reflexivity.
  assert (Hp : Camera.isProcessing Sample.busy = true) by reflexivity.
  destruct (enhance_adds_a_second_interval Scenario.willing Sample.busy _ [0]
              640 480 Hm Hv Hdev) as (Hi & _ & Hdead & _).
  split; [exact Hp | split].
  - rewrite Hi. vm_compute. reflexivity.
  - exact (Hdead Hp "frame 2").
Defined.

(** ** The camera view: what it asks of the device *)

Lemma constraints_no_audio (quality : string) :
  Camera.audio (Camera.getCameraConstraints quality) = false ∧
  Camera.facingMode (Camera.video (Camera.getCameraConstraints quality)) = "user".
Proof.
  unfold Camera.getCameraConstraints.
  repeat (case_view; [split; reflexivity | idtac]). split; reflexivity.
Qed.

Lemma acquire_log (dev : Camera.Device) (qs : list string) :
  ∀ w : Camera.World,
    ∃ tried, Camera.gumCalls (Camera.acquire dev qs w).2
             = Camera.gumCalls w ++ (Camera.getCameraConstraints <$> tried).
Proof.
  induction qs as [|q qs IH]; intros w; cbn [Camera.acquire].
  - exists []. cbn. rewrite app_nil_r. reflexivity.
  - pose proof (getUserMedia_frame dev (Camera.getCameraConstraints q) w) as Hg.
    cbv zeta in Hg.
    destruct (Camera.getUserMedia dev (Camera.getCameraConstraints q) w)
      as [res w1]. cbn in Hg. destruct Hg as (G0 & _).
    assert (Hrec : ∃ tried, Camera.gumCalls (Camera.acquire dev qs w1).2
                            = Camera.gumCalls w ++ (Camera.getCameraConstraints <$> tried)).
    { destruct (IH w1) as (tried & Ht). exists (q :: tried).
      rewrite Ht, G0. cbn. rewrite <- app_assoc. reflexivity. }
    destruct res as [[st|]|]; [ | exact Hrec | exact Hrec].
    exists [q]. cbn.
    destruct (setCameraQuality_frame q w1) as (Q0 & _). rewrite Q0. exact G0.
Qed.

Lemma initializeCameraWith_log
    (qs : list string) (r : Camera.Render) (dev : Camera.Device) (w : Camera.World) :
  ∃ tried, Camera.gumCalls (Camera.initializeCameraWith qs r dev w)
           = Camera.gumCalls w ++ (Camera.getCameraConstraints <$> tried).
Proof.
  unfold Camera.initializeCameraWith.
  destruct (setMessage_frame (Some "🔄 Accessing camera with optimal settings...") w)
    as (_ & _ & _ & S4 & _).
  destruct (acquire_log dev qs
              (Camera.setMessage (Some "🔄 Accessing camera with optimal settings...") w))
    as (tried & Ht).
  rewrite S4 in Ht. exists tried.
  destruct (Camera.acquire dev qs _) as [stream w2]. cbn in Ht.
  destruct stream as [st|].
  - cbn. destruct (Camera.videoRef w2); cbn; [exact Ht | ].
    match goal with
    | |- context [Camera.setMessage ?m ?x] =>
        destruct (setMessage_frame m x) as (_ & _ & _ & M4 & _); rewrite M4
    end.
    exact Ht.
  - destruct (setMessage_frame (Some Camera.cameraFailed) w2) as (_ & _ & _ & M4 & _).
    rewrite M4. exact Ht.
Qed.

Lemma step_log (dev : Camera.Device) (e : Camera.Event) (w : Camera.World) :
  ∃ tried, Camera.gumCalls (Camera.step dev e w)
           = Camera.gumCalls w ++ (Camera.getCameraConstraints <$> tried).
Proof.
  assert (Hsame : ∀ w', Camera.gumCalls w' = Camera.gumCalls w →
            ∃ tried, Camera.gumCalls w'
                     = Camera.gumCalls w ++ (Camera.getCameraConstraints <$> tried)).
  { intros w' ->. exists []. cbn. rewrite app_nil_r. reflexivity. }
  assert (Hdisp : ∀ cb x, Camera.gumCalls (Camera.dispatch cb x) = Camera.gumCalls x).
  { intros cb x. unfold Camera.dispatch. cbv zeta.
    destruct (Camera.mounted x && negb (Shell.mounted (Shell.dispatch cb (Camera.shell x))));
      reflexivity. }
  assert (Hmsg : ∀ m x, Camera.gumCalls (Camera.setMessage m x) = Camera.gumCalls x).
  { intros m x. apply (setMessage_frame m x). }
  assert (Hproc : ∀ b x, Camera.gumCalls (Camera.setIsProcessing b x) = Camera.gumCalls x).
  { intros b x. unfold Camera.setIsProcessing. destruct (Camera.mounted x); reflexivity. }
  destruct e as [vw vh|h picture|id res| |cb|dt]; cbn [Camera.step].
  - apply Hsame. unfold Camera.loadedmetadata.
    destruct (Camera.videoRef w) as [v|]; [ | reflexivity].
    destruct (Camera.onloadedmetadata v); [ | reflexivity].
    unfold Camera.startFaceValidation, Camera.setInterval. cbn.
    rewrite Hmsg. reflexivity.
  - apply Hsame. unfold Camera.tick, Camera.intervalCallback.
    destruct (Camera.intervals w !! h) as [r|]; [ | reflexivity].
    destruct (Camera.r_isProcessing r); [reflexivity | ].
    destruct (Camera.captureFrame picture w); [ | reflexivity].
    unfold Camera.post. cbn. rewrite Hproc. reflexivity.
  - apply Hsame. unfold Camera.settle.
    destruct (Camera.inflight w !! id) as [req|]; [ | reflexivity].
    unfold Camera.settled. rewrite Hproc.
    destruct res as [data|];
      [destruct (Camera.Data.success data);
       [ | destruct (bool_decide (Camera.Data.action data = Some "register_prompt"))] | ];
      rewrite ?Hdisp, ?Hmsg; reflexivity.
  - destruct (Camera.mounted w); [ | apply Hsame; reflexivity].
    unfold Camera.retryWithBetterQuality, Camera.initializeCamera.
    match goal with
    | |- context [Camera.initializeCameraWith ?qs ?r dev ?x] =>
        destruct (initializeCameraWith_log qs r dev x) as (tried & Ht);
        exists tried; rewrite Ht, Hmsg
    end.
    destruct (Shell.streamRef (Camera.shell w)); reflexivity.
  - apply Hsame, Hdisp.
  - apply Hsame. reflexivity.
Qed.

(** X14. The camera view never asks for the microphone: every request it
    makes of the device, at mount or from the Enhance Quality button, for
    whatever quality, has [audio: false] and the front camera as facing
    mode. *)
Theorem camera_view_never_requests_audio
    (dev : Camera.Device) (a : App.State) (es : list Camera.Event) :
  Forall (λ c, Camera.audio c = false ∧ Camera.facingMode (Camera.video c) = "user")
    (Camera.gumCalls (Camera.run dev es (Camera.mount dev a))).
Proof.
  assert (Hext : ∀ l tried,
    Forall (λ c, Camera.audio c = false ∧ Camera.facingMode (Camera.video c) = "user") l →
    Forall (λ c, Camera.audio c = false ∧ Camera.facingMode (Camera.video c) = "user")
      (l ++ (Camera.getCameraConstraints <$> tried))).
  { intros l tried Hl. apply Forall_app. split; [exact Hl | ].
    apply Forall_fmap, Forall_forall. intros q _. apply constraints_no_audio. }
  assert (H0 : Forall (λ c, Camera.audio c = false ∧
                            Camera.facingMode (Camera.video c) = "user")
                 (Camera.gumCalls (Camera.mount dev a))).
  { unfold Camera.mount, Camera.initializeCamera.
    destruct (initializeCameraWith_log Camera.qualities Camera.firstRender dev
                (Camera.fresh a)) as (tried & ->).
    apply Hext. constructor. }
  revert H0. generalize (Camera.mount dev a) as w.
  induction es as [|e es IH]; intros w Hw; cbn; [exact Hw | ].
  apply IH. destruct (step_log dev e w) as (tried & ->). apply Hext, Hw.
Qed.

(** ** The gesture view: before the video plays, and where it leads *)

Lemma gesture_mount_start (dev : Camera.GumResult) (a : App.State) :
  let w := Gesture.mount dev a in
  Gesture.calls w = [] ∧ Gesture.inflight w = ∅ ∧ Gesture.timeouts w = [] ∧
  Shell.app (Gesture.shell w) = a ∧
  match Gesture.videoRef w with
  | Some v => Gesture.videoWidth v = 0%N
  | None => True
  end.
Proof.
  unfold Gesture.mount, Gesture.startGestureDetection, Gesture.setInterval,
    Gesture.initializeCamera, Gesture.setMessage.
  destruct dev as [stream|]; cbn; auto.
Qed.

Lemma gesture_step_not_ready (e : Gesture.Event) (w : Gesture.World) :
  (∀ vw vh, e ≠ Gesture.LoadedMetadata vw vh) →
  Gesture.calls w = [] → Gesture.inflight w = ∅ →
  match Gesture.videoRef w with
  | Some v => Gesture.videoWidth v = 0%N
  | None => True
  end →
  let w' := Gesture.step e w in
  Gesture.calls w' = [] ∧ Gesture.inflight w' = ∅ ∧
  match Gesture.videoRef w' with
  | Some v => Gesture.videoWidth v = 0%N
  | None => True
  end.
Proof.
  intros He Hc Hi Hv. cbv zeta.
  destruct w as [[a ch mt sr lv] ms gd d v n i nh f c t].
  cbn in Hc, Hi, Hv. subst c f.
  destruct e as [vw vh|h picture|id res| | |k|cb|dt]; cbn [Gesture.step].
  - exfalso. exact (He vw vh eq_refl).
  - unfold Gesture.tick, Gesture.intervalCallback, Gesture.captureFrame. cbn.
    destruct (i !! h) as [r|]; [ | cbn; auto].
    destruct (Gesture.r_isDetecting r); cbn; [ | auto].
    destruct v as [v|]; [rewrite Hv | ]; cbn; auto.
  - unfold Gesture.settle. cbn. rewrite lookup_empty. cbn. auto.
  - unfold Gesture.clickYes, Gesture.handleManualYes. gesture_unfold.
    destruct mt, d; cbn; auto.
  - unfold Gesture.clickNo, Gesture.handleManualNo. gesture_unfold.
    destruct mt, d; cbn; auto.
  - unfold Gesture.fire. cbn.
    destruct (t !! k) as [[due cb]|]; [ | cbn; auto].
    destruct (due <=? n)%N; [ | cbn; auto].
    gesture_unfold.
    destruct mt; cbn;
      [destruct (bool_decide (App.renderView (App.call cb a) = ch)); cbn;
         [ | destruct sr; cbn] | ]; auto.
  - gesture_unfold.
    destruct mt; cbn;
      [destruct (bool_decide (App.renderView (App.call cb a) = ch)); cbn;
         [ | destruct sr; cbn] | ]; auto.
  - cbn. auto.
Qed.

(** X15. Until the video element reports its dimensions the gesture view
    issues no call, although its interval runs from the mount on: each tick
    finds no frame and is skipped, whatever else happens, and also when the
    camera was refused. *)
Theorem gesture_view_waits_for_the_video
    (dev : Camera.GumResult) (a : App.State) (es : list Gesture.Event) :
  Forall (λ e, ∀ vw vh, e ≠ Gesture.LoadedMetadata vw vh) es →
  Gesture.calls (Gesture.run es (Gesture.mount dev a)) = [].
Proof.
  destruct (gesture_mount_start dev a) as (Hc & Hi & _ & _ & Hv).
  revert Hc Hi Hv. generalize (Gesture.mount dev a) as w.
  induction es as [|e es IH]; intros w Hc Hi Hv Hes; cbn; [exact Hc | ].
  apply Forall_cons in Hes as [He Hes].
  destruct (gesture_step_not_ready e w He Hc Hi Hv) as (Hc' & Hi' & Hv').
  apply IH; assumption.
Qed.

Lemma gesture_view_waits_for_the_video_witness :
  Gesture.calls
    (Gesture.run [Gesture.Tick 0 "frame 1"; Gesture.Elapse 1000; Gesture.Tick 0 "frame 2"]
       (Gesture.mount Camera.GumRejected (App.handleRegisterPrompt App.initial)))
  = [].
Proof.
  apply gesture_view_waits_for_the_video.
  repeat constructor; intros vw vh; discriminate.
Defined.

(** What one event of the view itself does to the controller and to the
    pending timeouts. *)
Lemma gesture_step_outcomes (e : Gesture.Event) (w : Gesture.World) :
  (∀ cb, e ≠ Gesture.Header cb) →
  let w' := Gesture.step e w in
  (Shell.app (Gesture.shell w') = Shell.app (Gesture.shell w) ∧
   (Gesture.timeouts w' = Gesture.timeouts w ∨
    ∃ due cb, (cb = App.OnRegistrationStart ∨ cb = App.OnGuestAccess) ∧
              Gesture.timeouts w' = Gesture.timeouts w ++ [(due, cb)])) ∨
  (∃ k due cb,
     Gesture.timeouts w !! k = Some (due, cb) ∧
     Shell.app (Gesture.shell w') = App.call cb (Shell.app (Gesture.shell w)) ∧
     Gesture.timeouts w' = delete k (Gesture.timeouts w)).
Proof.
  intros He. cbv zeta.
  destruct e as [vw vh|h picture|id res| | |k|cb|dt]; cbn [Gesture.step].
  - left. unfold Gesture.loadedmetadata. destruct (Gesture.videoRef w); auto.
  - left. unfold Gesture.tick, Gesture.intervalCallback.
    destruct (Gesture.intervals w !! h) as [r|]; [ | auto].
    destruct (Gesture.r_isDetecting r); cbn; [ | auto].
    destruct (Gesture.captureFrame picture w); auto.
  - left. unfold Gesture.settle.
    destruct (Gesture.inflight w !! id) as [req|]; [ | auto].
    destruct w as [[a ch mt sr lv] ms gd d v n i nh f c t].
    destruct mt, res as [data|]; gesture_unfold; camera_cases; eauto 10.
  - left. unfold Gesture.clickYes, Gesture.handleManualYes.
    destruct w as [[a ch mt sr lv] ms gd d v n i nh f c t].
    destruct mt, d; gesture_unfold; eauto 10.
  - left. unfold Gesture.clickNo, Gesture.handleManualNo.
    destruct w as [[a ch mt sr lv] ms gd d v n i nh f c t].
    destruct mt, d; gesture_unfold; eauto 10.
  - unfold Gesture.fire.
    destruct (Gesture.timeouts w !! k) as [[due cb]|] eqn:Hk; [ | auto].
    destruct (due <=? Gesture.now w)%N; [ | auto].
    right. exists k, due, cb. split; [exact Hk | ].
    rewrite gesture_dispatch_app. cbn. split; [reflexivity | ].
    unfold Gesture.dispatch. cbv zeta.
    match goal with
    | |- context [if ?b then _ else _] => destruct b; reflexivity
    end.
  - exfalso. exact (He cb eq_refl).
  - left. cbn. auto.
Qed.

(** X16. Left to itself, the gesture view hands over to registration or to
    guest access and to nothing else: whatever gestures, answers, button
    presses and timeouts occur, while no button of the header is pressed the
    controller still shows the view it showed at the mount, or the register
    view, or the guest view. From the gesture view the camera view is
    reached through the header only. *)
Theorem gesture_view_leads_to_register_or_guest
    (dev : Camera.GumResult) (a : App.State) (es : list Gesture.Event) :
  Forall (λ e, ∀ cb, e ≠ Gesture.Header cb) es →
  let s := Shell.app (Gesture.shell (Gesture.run es (Gesture.mount dev a))) in
  App.currentView s = App.currentView a ∨
  App.currentView s = "register" ∨
  App.currentView s = "guest".
Proof.
  intros Hes. cbv zeta.
  destruct (gesture_mount_start dev a) as (_ & _ & Ht & Ha & _).
  assert (Hinv :
    (App.currentView (Shell.app (Gesture.shell (Gesture.mount dev a)))
       = App.currentView a ∨
     App.currentView (Shell.app (Gesture.shell (Gesture.mount dev a))) = "register" ∨
     App.currentView (Shell.app (Gesture.shell (Gesture.mount dev a))) = "guest") ∧
    Forall (λ p, p.2 = App.OnRegistrationStart ∨ p.2 = App.OnGuestAccess)
      (Gesture.timeouts (Gesture.mount dev a))).
  { rewrite Ha, Ht. split; [auto | constructor]. }
  revert Hinv Hes. generalize (Gesture.mount dev a) as w.
  induction es as [|e es IH]; intros w [Hview Hto] Hes; cbn; [exact Hview | ].
  apply Forall_cons in Hes as [He Hes].
  apply IH; [ | exact Hes].
  destruct (gesture_step_outcomes e w He)
    as [(Happ & [Hsame | (due & cb & Hcb & Hadd)]) | (k & due & cb & Hk & Happ & Hdel)].
  - rewrite Happ, Hsame. auto.
  - rewrite Happ, Hadd. split; [exact Hview | ].
    apply Forall_app. split; [exact Hto | ]. apply Forall_cons. split; [exact Hcb | constructor].
  - rewrite Happ, Hdel. split.
    + assert (Hcb : cb = App.OnRegistrationStart ∨ cb = App.OnGuestAccess).
      { rewrite Forall_forall in Hto.
        apply (Hto (due, cb)). apply list_elem_of_lookup. eauto. }
      destruct Hcb as [-> | ->]; cbn; auto.
    + apply Forall_forall. intros p Hp. rewrite Forall_forall in Hto.
      apply Hto. exact (list_elem_of_delete_inv _ _ _ Hp).
Qed.

Lemma gesture_view_leads_to_register_or_guest_witness :
  App.currentView
    (Shell.app (Gesture.shell
       (Gesture.run [Gesture.ClickYes; Gesture.Elapse 1500; Gesture.Fire 0]
          (Gesture.mount (Camera.GumResolved (Some [0]))
             (App.handleRegisterPrompt App.initial))))) = "register".
Proof.
  destruct (gesture_view_leads_to_register_or_guest (Camera.GumResolved (Some [0]))
              (App.handleRegisterPrompt App.initial)
              [Gesture.ClickYes; Gesture.Elapse 1500; Gesture.Fire 0])
    as [H | [H | H]].
  - repeat constructor; intros cb; discriminate.
  - vm_compute in H. discriminate.
  - exact H.
  - vm_compute in H. discriminate.
Defined.

(** ** The head pose display *)

(** X17. The colour and the label of the pose indicator agree: for every
    value of [headPose], undefined included, the indicator is grey exactly
    when its label reads ERROR, and the colours and the labels of left,
    right and center are shown for these three values and for no other. *)
Theorem pose_colour_and_label_agree (headPose : option string) :
  (HeadPose.getHeadPoseColor headPose = "#6b7280" ↔
   HeadPose.getHeadPoseEmoji headPose = "❌ ERROR") ∧
  (HeadPose.getHeadPoseColor headPose = "#10b981" ↔ headPose = Some "left") ∧
  (HeadPose.getHeadPoseEmoji headPose = "👈 LEFT" ↔ headPose = Some "left") ∧
  (HeadPose.getHeadPoseColor headPose = "#ef4444" ↔ headPose = Some "right") ∧
  (HeadPose.getHeadPoseEmoji headPose = "👉 RIGHT" ↔ headPose = Some "right") ∧
  (HeadPose.getHeadPoseColor headPose = "#3b82f6" ↔ headPose = Some "center") ∧
  (HeadPose.getHeadPoseEmoji headPose = "🎯 CENTER" ↔ headPose = Some "center").
Proof.
  destruct headPose as [p|]; cbn.
  - repeat (case_view; [subst; repeat split; intros; congruence | idtac]).
    repeat split; intros; congruence.
  - repeat split; intros; congruence.
Qed.



